(** * CUPS scheduler main loop and libusb backend: model and properties

    Shallow embedding of the parts of [scheduler/main.c] and
    [backend/usb-libusb.c] that carry the testable properties of the
    specification: the signal hold/release counter, the child reaper, the
    reload gate, the adaptive select timeout, the IEEE-1284 device-ID
    decoder, the side-channel responder, the alt-setting scan of the device
    finder and the writer loop of [print_device].

    Integers of the C code ([int], [long], [time_t], [ssize_t]) are modelled
    as [Z]; signed overflow is undefined behaviour in C and is not modelled.
    The [uint8_t] variables of [find_device] wrap modulo 256, written out
    with [uint8].

    Further parts cover the signal handlers and periodic tests of [main],
    the pipe helpers, the string variables ([SetString], [SetStringf],
    [ClearString]) over a heap of blocks, the opening and closing of the
    USB device with the calls they make, the loops of [find_device] with
    [list_devices], the accounting of the writer loop and the URI
    comparison of [print_cb] over character lists. *)

From Stdlib Require Import ZArith List Bool Lia.
From Stdlib Require Ascii String.
From stdpp Require Import base list gmap.
From stdpp Require strings.
Import ListNotations.

Local Open Scope Z_scope.

(** ** Part I: definitions *)

Module Sched.

(** Names that [main.c] takes from headers outside this translation unit
    ([<signal.h>], [cups/ipp.h], [http.h], [conf.h], [dirsvc.h], [cups.h])
    and the compile-time switches that guard parts of [select_timeout]. *)
Class Headers := {
  SIGTERM : Z;
  IPP_JOB_PROCESSING : Z;
  RELOAD_ALL : Z;
  HTTP_WAITING : Z;
  HTTP_KEEPALIVE_OFF : Z;
  BROWSE_CUPS : Z;
  BROWSE_SLP : Z;
  CUPS_PRINTER_REMOTE : Z;
  CUPS_PRINTER_IMPLICIT : Z;
  L_DEBUG : Z;
  WIFSIGNALED : Z -> bool;
  WTERMSIG : Z -> Z;
  WEXITSTATUS : Z -> Z;
  HAVE_LIBSLP : bool;
  HAVE_MALLINFO : bool;
  HAVE_NOTIFY_POST : bool
}.

(** *** Signal hold / release *)

(** [holdcount] and whether SIGTERM/SIGCHLD are currently held. *)
Record sigstate := {
  holdcount : Z;
  held : bool
}.

Definition sig_init : sigstate := {| holdcount := 0; held := false |}.

Definition HoldSignals (s : sigstate) : sigstate :=
  let hc := holdcount s + 1 in
  if hc >? 1 then {| holdcount := hc; held := held s |}
  else {| holdcount := hc; held := true |}.

Definition ReleaseSignals (s : sigstate) : sigstate :=
  let hc := holdcount s - 1 in
  if hc >? 0 then {| holdcount := hc; held := held s |}
  else {| holdcount := hc; held := false |}.

Inductive sigcall := Hold | Release.

Definition sig_step (s : sigstate) (c : sigcall) : sigstate :=
  match c with
  | Hold => HoldSignals s
  | Release => ReleaseSignals s
  end.

(** The states reached after each call of a sequence, oldest first. *)
Fixpoint sig_trace (s : sigstate) (calls : list sigcall) : list sigstate :=
  match calls with
  | [] => []
  | c :: rest => let s' := sig_step s c in s' :: sig_trace s' rest
  end.

(** A call sequence is well nested from depth [d] when no prefix releases
    more often than [d] plus the number of holds before it. *)
Fixpoint well_nested (d : Z) (calls : list sigcall) : bool :=
  match calls with
  | [] => true
  | Hold :: rest => well_nested (d + 1) rest
  | Release :: rest => (1 <=? d) && well_nested (d - 1) rest
  end.

(** *** Scheduler data *)

(** The fields of [client_t] read by the main loop: [http.used],
    [http.activity], [http.state], [http.keep_alive]. *)
Record client_t := {
  http_used : Z;
  http_activity : Z;
  http_state : Z;
  http_keep_alive : Z
}.

(** What [process_children] formats into [state_message]: the index of the
    failed filter in [job->filters] and the signal or exit code. *)
Inductive failure_note :=
  | TerminatedOnSignal (filter : nat) (sig : Z)
  | StoppedWithStatus (filter : nat) (code : Z).

Record printer_t := {
  p_type : Z;
  browse_protocol : Z;
  browse_time : Z;
  state_message : option failure_note;
  history : list failure_note
}.

(** [state] is [None] for a NULL [job->state], otherwise
    [job->state->values[0].integer].  [procs] is the zero-terminated pid
    array; [printer] indexes the job's printer in [Printers]. *)
Record job_t := {
  state : option Z;
  procs : list Z;
  status : Z;
  printer : nat
}.

Record globals := {
  Clients : list client_t;
  NumClients : Z;
  Jobs : list job_t;
  Printers : list printer_t;
  Listening : bool;
  NeedReload : Z;
  ReloadTime : Z;
  ReloadTimeout : Z;
  Timeout : Z;
  Browsing : Z;
  BrowseLocalProtocols : Z;
  BrowseRemoteProtocols : Z;
  BrowseSLPRefresh : Z;
  BrowseTimeout : Z;
  BrowseInterval : Z;
  LogLevel : Z;
  mallinfo_time : Z;
  RootCertDuration : Z;
  RootCertTime : Z;
  NotifyPost : Z
}.

Definition set_jobs_printers (g : globals) (js : list job_t)
    (ps : list printer_t) : globals :=
  {| Clients := Clients g; NumClients := NumClients g; Jobs := js;
     Printers := ps; Listening := Listening g; NeedReload := NeedReload g;
     ReloadTime := ReloadTime g; ReloadTimeout := ReloadTimeout g;
     Timeout := Timeout g; Browsing := Browsing g;
     BrowseLocalProtocols := BrowseLocalProtocols g;
     BrowseRemoteProtocols := BrowseRemoteProtocols g;
     BrowseSLPRefresh := BrowseSLPRefresh g; BrowseTimeout := BrowseTimeout g;
     BrowseInterval := BrowseInterval g; LogLevel := LogLevel g;
     mallinfo_time := mallinfo_time g; RootCertDuration := RootCertDuration g;
     RootCertTime := RootCertTime g; NotifyPost := NotifyPost g |}.

Definition set_clients (g : globals) (cs : list client_t) (n : Z)
    (lis : bool) : globals :=
  {| Clients := cs; NumClients := n; Jobs := Jobs g;
     Printers := Printers g; Listening := lis; NeedReload := NeedReload g;
     ReloadTime := ReloadTime g; ReloadTimeout := ReloadTimeout g;
     Timeout := Timeout g; Browsing := Browsing g;
     BrowseLocalProtocols := BrowseLocalProtocols g;
     BrowseRemoteProtocols := BrowseRemoteProtocols g;
     BrowseSLPRefresh := BrowseSLPRefresh g; BrowseTimeout := BrowseTimeout g;
     BrowseInterval := BrowseInterval g; LogLevel := LogLevel g;
     mallinfo_time := mallinfo_time g; RootCertDuration := RootCertDuration g;
     RootCertTime := RootCertTime g; NotifyPost := NotifyPost g |}.

(** C truth value of an integer. *)
Definition truthy (x : Z) : bool := negb (x =? 0).

(** *** Child reaper ([process_children]) *)

(** Reading [procs[i]]; the array is zero-terminated, and a read past the
    modelled cells yields the terminator. *)
Definition proc_at (ps : list Z) (i : nat) : Z := default 0 (ps !! i).

(** [for (i = 0; job->procs[i]; i ++) if (job->procs[i] == pid) break;]
    started at index [i]; returns the index the loop stops at. *)
Fixpoint find_proc (pid : Z) (ps : list Z) (i : nat) : nat :=
  match ps with
  | [] => i
  | p :: rest =>
      if p =? 0 then i
      else if p =? pid then i
      else find_proc pid rest (S i)
  end.

(** The pipeline of a job: the pids in [procs] in front of the zero
    terminator. *)
Fixpoint pipeline (ps : list Z) : list Z :=
  match ps with
  | [] => []
  | p :: rest => if p =? 0 then [] else p :: pipeline rest
  end.

Section Reaper.
Context `{Headers}.

Definition note_of (filter : nat) (st : Z) : failure_note :=
  if WIFSIGNALED st then TerminatedOnSignal filter (WTERMSIG st)
  else StoppedWithStatus filter (WEXITSTATUS st).

(** The body of the job loop for one job whose state is Processing:
    [None] when [pid] is not in the pipeline; otherwise the updated job and
    the note to put on its printer, if any.  [st] is the status after the
    SIGTERM adjustment. *)
Definition reap_in_job (pid st : Z) (job : job_t)
    : option (job_t * option failure_note) :=
  let i := find_proc pid (procs job) 0 in
  if truthy (proc_at (procs job) i) then
    let procs' := <[i := - pid]> (procs job) in
    if truthy st && (status job >=? 0) then
      let status' :=
        if negb (truthy (proc_at procs' (S i))) then - st  (* Backend failed *)
        else st                                            (* Filter failed *) in
      Some ({| state := state job; procs := procs'; status := status';
               printer := printer job |},
            Some (note_of i st))
    else
      Some ({| state := state job; procs := procs'; status := status job;
               printer := printer job |},
            None)
  else None.

(** Modelled from the spec: [AddPrinterHistory] is defined outside
    [main.c]; the state message is appended to the printer history. *)
Definition AddPrinterHistory (p : printer_t) : printer_t :=
  {| p_type := p_type p; browse_protocol := browse_protocol p;
     browse_time := browse_time p; state_message := state_message p;
     history := history p ++ match state_message p with
                             | Some n => [n]
                             | None => []
                             end |}.

Definition set_state_message (n : failure_note) (p : printer_t) : printer_t :=
  {| p_type := p_type p; browse_protocol := browse_protocol p;
     browse_time := browse_time p; state_message := Some n;
     history := history p |}.

Definition is_processing (job : job_t) : bool :=
  match state job with
  | Some v => v =? IPP_JOB_PROCESSING
  | None => false
  end.

(** [for (job = Jobs; job != NULL; job = job->next)]: the first Processing
    job holding [pid] is updated and the loop breaks. *)
Fixpoint reap_in_jobs (pid st : Z) (jobs : list job_t)
    : list job_t * option (nat * failure_note) :=
  match jobs with
  | [] => ([], None)
  | job :: rest =>
      if is_processing job then
        match reap_in_job pid st job with
        | Some (job', note) =>
            (job' :: rest, option_map (fun n => (printer job', n)) note)
        | None =>
            let '(rest', note) := reap_in_jobs pid st rest in
            (job :: rest', note)
        end
      else
        let '(rest', note) := reap_in_jobs pid st rest in
        (job :: rest', note)
  end.

(** [if (status == SIGTERM) status = 0;] *)
Definition adjust_status (st : Z) : Z :=
  if st =? SIGTERM then 0 else st.

(** One iteration of the [waitpid] loop for the child [(pid, st)].  The
    log messages and [DeleteCert] do not touch [Jobs] or [Printers] and are
    left out. *)
Definition reap_child (g : globals) (pid st : Z) : globals :=
  let st := adjust_status st in
  let '(jobs', note) := reap_in_jobs pid st (Jobs g) in
  let printers' :=
    match note with
    | Some (p, n) =>
        alter (fun pr => AddPrinterHistory (set_state_message n pr)) p
              (Printers g)
    | None => Printers g
    end in
  set_jobs_printers g jobs' printers'.

(** [while ((pid = waitpid(-1, &status, WNOHANG)) > 0)]: [reaped] lists the
    successive results of [waitpid]; the loop ends at the first pid that is
    not positive. *)
Fixpoint process_children (g : globals) (reaped : list (Z * Z)) : globals :=
  match reaped with
  | [] => g
  | (pid, st) :: rest =>
      if pid >? 0 then process_children (reap_child g pid st) rest
      else g
  end.

End Reaper.

(** *** Reload gate (the [if (NeedReload)] block of [main]) *)

Section Reload.
Context `{Headers}.

(** A loop over [Jobs] that dereferences [job->state] without a NULL test
    and breaks at the first job whose state value satisfies [test]:
    [Some true] when it broke, [Some false] when it ran off the list,
    [None] when it reached a job with a NULL state first. *)
Fixpoint scan_jobs (test : Z -> bool) (jobs : list job_t) : option bool :=
  match jobs with
  | [] => Some false
  | job :: rest =>
      match state job with
      | None => None
      | Some v => if test v then Some true else scan_jobs test rest
      end
  end.

Definition keep_alive_off (con : client_t) : client_t :=
  {| http_used := http_used con; http_activity := http_activity con;
     http_state := http_state con; http_keep_alive := HTTP_KEEPALIVE_OFF |}.

(** Modelled from the spec: [CloseClient] and [PauseListening] are defined
    outside [main.c]; closing destroys the client (it leaves [Clients] and
    [NumClients] drops by one), pausing stops listener acceptance.  The loop
    closes clients in [HTTP_WAITING] and switches keep-alive off for the
    others. *)
Fixpoint close_waiting (cons : list client_t) (n : Z) : list client_t * Z :=
  match cons with
  | [] => ([], n)
  | con :: rest =>
      if http_state con =? HTTP_WAITING then close_waiting rest (n - 1)
      else let '(kept, n') := close_waiting rest n in
           (keep_alive_off con :: kept, n')
  end.

Definition close_idle_clients (g : globals) : globals :=
  if NumClients g >? 0 then
    let '(kept, n) := close_waiting (Clients g) (NumClients g) in
    set_clients g kept n false
  else g.

(** The restart test:
    [(NumClients == 0 && (!job || NeedReload != RELOAD_ALL)) ||
     (time(NULL) - ReloadTime) >= ReloadTimeout],
    where [job_found] tells whether the job loop broke on a Processing job. *)
Definition restart_test (g : globals) (job_found : bool) (now : Z) : bool :=
  ((NumClients g =? 0) &&
   (negb job_found || negb (NeedReload g =? RELOAD_ALL))) ||
  (now - ReloadTime g >=? ReloadTimeout g).

Inductive reload_step :=
  | NotRequested            (* NeedReload is 0 *)
  | KeepWaiting (g : globals)
  | ReadConfiguration (g : globals)
  | NullState.              (* a job with a NULL state was dereferenced *)

Definition reload_gate (g : globals) (now : Z) : reload_step :=
  if truthy (NeedReload g) then
    let g1 := close_idle_clients g in
    match scan_jobs (fun v => v =? IPP_JOB_PROCESSING) (Jobs g1) with
    | None => NullState
    | Some job_found =>
        if restart_test g1 job_found now then ReadConfiguration g1
        else KeepWaiting g1
    end
  else NotRequested.

(** The condition as the specification words it: no clients remain and no
    job is Processing, or [ReloadTimeout] has elapsed. *)
Definition spec_reload_condition (g : globals) (job_found : bool) (now : Z)
    : bool :=
  ((NumClients g =? 0) && negb job_found) ||
  (now - ReloadTime g >=? ReloadTimeout g).

End Reload.

(** *** Adaptive timeout ([select_timeout]) *)

Section SelectTimeout.
Context `{Headers}.

(** [for (con = Clients; ...) if (con->http.used > 0) return (0);] *)
Definition pending_data (cons : list client_t) : bool :=
  existsb (fun con => http_used con >? 0) cons.

(** The client loop lowering [timeout]. *)
Fixpoint client_deadlines (cons : list client_t) (tmo timeout : Z) : Z :=
  match cons with
  | [] => timeout
  | con :: rest =>
      if http_activity con + tmo <? timeout
      then client_deadlines rest tmo (http_activity con + tmo)
      else client_deadlines rest tmo timeout
  end.

(** The printer loop lowering [timeout]. *)
Fixpoint printer_deadlines (g : globals) (ps : list printer_t) (timeout : Z)
    : Z :=
  match ps with
  | [] => timeout
  | p :: rest =>
      let timeout' :=
        if truthy (Z.land (p_type p) CUPS_PRINTER_REMOTE) then
          if (browse_protocol p =? BROWSE_CUPS) &&
             (browse_time p + BrowseTimeout g <? timeout)
          then browse_time p + BrowseTimeout g
          else timeout
        else if negb (truthy (Z.land (p_type p) CUPS_PRINTER_IMPLICIT)) then
          if truthy (BrowseInterval g) &&
             (browse_time p + BrowseInterval g <? timeout)
          then browse_time p + BrowseInterval g
          else timeout
        else timeout in
      printer_deadlines g rest timeout'
  end.

Definition browse_deadlines (g : globals) (timeout : Z) : Z :=
  if truthy (Browsing g) &&
     (truthy (BrowseLocalProtocols g) || truthy (BrowseRemoteProtocols g))
  then
    let timeout :=
      if HAVE_LIBSLP &&
         truthy (Z.land (BrowseRemoteProtocols g) BROWSE_SLP) &&
         (BrowseSLPRefresh g <? timeout)
      then BrowseSLPRefresh g else timeout in
    if truthy (Z.land (Z.lor (BrowseLocalProtocols g)
                             (BrowseRemoteProtocols g)) BROWSE_CUPS)
    then printer_deadlines g (Printers g) timeout
    else timeout
  else timeout.

(** The active-jobs block; [None] when a NULL [job->state] is read. *)
Definition job_deadline (g : globals) (now timeout : Z) : option Z :=
  if timeout >? now + 10 then
    match scan_jobs (fun v => v <=? IPP_JOB_PROCESSING) (Jobs g) with
    | None => None
    | Some true => Some (now + 10)
    | Some false => Some timeout
    end
  else Some timeout.

Definition mallinfo_deadline (g : globals) (timeout : Z) : Z :=
  if HAVE_MALLINFO && (LogLevel g >=? L_DEBUG) &&
     (mallinfo_time g + 60 <? timeout)
  then mallinfo_time g + 60 else timeout.

Definition rootcert_deadline (g : globals) (timeout : Z) : Z :=
  if truthy (RootCertDuration g) &&
     (RootCertTime g + RootCertDuration g <? timeout)
  then RootCertTime g + RootCertDuration g else timeout.

(** The final adjustment from absolute to relative time. *)
Definition clamp_timeout (timeout now : Z) : Z :=
  let timeout := timeout - now + 1 in
  if timeout <? 1 then 1
  else if timeout >? 86400 then 86400
  else timeout.

(** [select_timeout(fds)] with [now] the value of [time(NULL)]; [None] when
    the job loop reads a NULL [job->state]. *)
Definition select_timeout (g : globals) (fds now : Z) : option Z :=
  if pending_data (Clients g) then Some 0
  else if truthy fds || (NumClients g >? 50) then Some 1
  else if HAVE_NOTIFY_POST && truthy (NotifyPost g) then Some 1
  else
    let timeout := now + 86400 in
    let timeout := client_deadlines (Clients g) (Timeout g) timeout in
    let timeout := browse_deadlines g timeout in
    match job_deadline g now timeout with
    | None => None
    | Some timeout =>
        let timeout := mallinfo_deadline g timeout in
        let timeout := rootcert_deadline g timeout in
        Some (clamp_timeout timeout now)
    end.

(** The scheduled events as the specification lists them, as absolute
    times: client idle deadlines, the browse refresh, the per-printer
    browse deadlines, ten seconds from now when a job is pending or
    processing, the memory-statistics tick and the certificate rotation. *)
Definition printer_event (g : globals) (p : printer_t) : list Z :=
  if truthy (Z.land (p_type p) CUPS_PRINTER_REMOTE) then
    if browse_protocol p =? BROWSE_CUPS
    then [browse_time p + BrowseTimeout g] else []
  else if negb (truthy (Z.land (p_type p) CUPS_PRINTER_IMPLICIT)) then
    if truthy (BrowseInterval g)
    then [browse_time p + BrowseInterval g] else []
  else [].

Definition job_active (job : job_t) : bool :=
  match state job with
  | Some v => v <=? IPP_JOB_PROCESSING
  | None => false
  end.

Definition scheduled_events (g : globals) (now : Z) : list Z :=
  map (fun con => http_activity con + Timeout g) (Clients g) ++
  (if truthy (Browsing g) &&
      (truthy (BrowseLocalProtocols g) || truthy (BrowseRemoteProtocols g))
   then
     (if HAVE_LIBSLP && truthy (Z.land (BrowseRemoteProtocols g) BROWSE_SLP)
      then [BrowseSLPRefresh g] else []) ++
     (if truthy (Z.land (Z.lor (BrowseLocalProtocols g)
                               (BrowseRemoteProtocols g)) BROWSE_CUPS)
      then concat (map (printer_event g) (Printers g)) else [])
   else []) ++
  (if existsb job_active (Jobs g) then [now + 10] else []) ++
  (if HAVE_MALLINFO && (LogLevel g >=? L_DEBUG)
   then [mallinfo_time g + 60] else []) ++
  (if truthy (RootCertDuration g)
   then [RootCertTime g + RootCertDuration g] else []).

(** The earliest scheduled event, never later than a day from now. *)
Definition earliest_event (g : globals) (now : Z) : Z :=
  fold_right Z.min (now + 86400) (scheduled_events g now).

Definition jobs_have_state (g : globals) : Prop :=
  Forall (fun job => state job <> None) (Jobs g).

End SelectTimeout.

(** *** Reference values *)

(** The header values of CUPS 1.1 on a POSIX system with the usual
    encoding of wait statuses; used to evaluate the model on concrete
    inputs. *)
Definition posix_headers : Headers :=
  {| SIGTERM := 15;
     IPP_JOB_PROCESSING := 5;
     RELOAD_ALL := 1;
     HTTP_WAITING := 0;
     HTTP_KEEPALIVE_OFF := 0;
     BROWSE_CUPS := 1;
     BROWSE_SLP := 2;
     CUPS_PRINTER_REMOTE := 2;
     CUPS_PRINTER_IMPLICIT := 65536;
     L_DEBUG := 8;
     WIFSIGNALED := fun st => negb (Z.land st 127 =? 0) &&
                              negb (Z.land st 127 =? 127);
     WTERMSIG := fun st => Z.land st 127;
     WEXITSTATUS := fun st => Z.land (Z.shiftr st 8) 255;
     HAVE_LIBSLP := false;
     HAVE_MALLINFO := false;
     HAVE_NOTIFY_POST := true |}.

(** A scheduler with no clients, jobs or printers and every setting 0. *)
Definition quiet : globals :=
  {| Clients := []; NumClients := 0; Jobs := []; Printers := [];
     Listening := true; NeedReload := 0; ReloadTime := 0; ReloadTimeout := 0;
     Timeout := 0; Browsing := 0; BrowseLocalProtocols := 0;
     BrowseRemoteProtocols := 0; BrowseSLPRefresh := 0; BrowseTimeout := 0;
     BrowseInterval := 0; LogLevel := 0; mallinfo_time := 0;
     RootCertDuration := 0; RootCertTime := 0; NotifyPost := 0 |}.

Definition blank_printer : printer_t :=
  {| p_type := 0; browse_protocol := 0; browse_time := 0;
     state_message := None; history := [] |}.

(** A Processing job with pipeline 10, 11, 12 whose filter 11 has already
    failed with wait status 768 (exit code 3). *)
Definition job_after_filter_failure : job_t :=
  {| state := Some 5; procs := [10; -11; 12; 0]; status := 768;
     printer := 0%nat |}.

(** A scheduler with no client, one Processing job, and a reload of a kind
    other than RELOAD_ALL requested at time 1000 with ReloadTimeout 60. *)
Definition partial_reload_pending : globals :=
  {| Clients := []; NumClients := 0;
     Jobs := [ {| state := Some 5; procs := [10; 0]; status := 0;
                  printer := 0%nat |} ];
     Printers := [blank_printer];
     Listening := true; NeedReload := 2; ReloadTime := 1000;
     ReloadTimeout := 60;
     Timeout := 300; Browsing := 0; BrowseLocalProtocols := 0;
     BrowseRemoteProtocols := 0; BrowseSLPRefresh := 0; BrowseTimeout := 0;
     BrowseInterval := 0; LogLevel := 0; mallinfo_time := 0;
     RootCertDuration := 0; RootCertTime := 0; NotifyPost := 0 |}.

(** One client with five unread bytes in its buffer. *)
Definition client_with_pending_data : globals :=
  {| Clients := [ {| http_used := 5; http_activity := 990; http_state := 1;
                     http_keep_alive := 1 |} ];
     NumClients := 1; Jobs := []; Printers := [];
     Listening := true; NeedReload := 0; ReloadTime := 0; ReloadTimeout := 0;
     Timeout := 300; Browsing := 0; BrowseLocalProtocols := 0;
     BrowseRemoteProtocols := 0; BrowseSLPRefresh := 0; BrowseTimeout := 0;
     BrowseInterval := 0; LogLevel := 0; mallinfo_time := 0;
     RootCertDuration := 0; RootCertTime := 0; NotifyPost := 0 |}.

(** An idle scheduler whose root certificate, issued at time 0 for 300
    seconds, is overdue at time 1000. *)
Definition overdue_certificate : globals :=
  {| Clients := []; NumClients := 0; Jobs := []; Printers := [];
     Listening := true; NeedReload := 0; ReloadTime := 0; ReloadTimeout := 0;
     Timeout := 300; Browsing := 0; BrowseLocalProtocols := 0;
     BrowseRemoteProtocols := 0; BrowseSLPRefresh := 0; BrowseTimeout := 0;
     BrowseInterval := 0; LogLevel := 0; mallinfo_time := 0;
     RootCertDuration := 300; RootCertTime := 0; NotifyPost := 0 |}.

End Sched.

Module Usb.

(** Names that [usb-libusb.c] takes from [<libusb.h>] and uses in
    bit tests of descriptors. *)
Class Headers := {
  LIBUSB_CLASS_PRINTER : Z;
  LIBUSB_TRANSFER_TYPE_MASK : Z;
  LIBUSB_TRANSFER_TYPE_BULK : Z;
  LIBUSB_ENDPOINT_DIR_MASK : Z;
  CUPS_SC_STATE_ONLINE : Z
}.

(** [enum libusb_error], with 0 for success. *)
Inductive libusb_error :=
  | LIBUSB_SUCCESS
  | LIBUSB_ERROR_IO
  | LIBUSB_ERROR_INVALID_PARAM
  | LIBUSB_ERROR_ACCESS
  | LIBUSB_ERROR_NO_DEVICE
  | LIBUSB_ERROR_NOT_FOUND
  | LIBUSB_ERROR_BUSY
  | LIBUSB_ERROR_TIMEOUT
  | LIBUSB_ERROR_OVERFLOW
  | LIBUSB_ERROR_PIPE
  | LIBUSB_ERROR_INTERRUPTED
  | LIBUSB_ERROR_NO_MEM
  | LIBUSB_ERROR_NOT_SUPPORTED
  | LIBUSB_ERROR_OTHER.

(** [cups_backend_t]: the exit statuses of a backend. *)
Inductive cups_backend_t :=
  | CUPS_BACKEND_OK
  | CUPS_BACKEND_FAILED
  | CUPS_BACKEND_AUTH_REQUIRED
  | CUPS_BACKEND_HOLD
  | CUPS_BACKEND_STOP
  | CUPS_BACKEND_CANCEL.

(** [cups_sc_command_t]; [CUPS_SC_CMD_UNKNOWN] stands for any other value
    read from the side-channel socket. *)
Inductive cups_sc_command_t :=
  | CUPS_SC_CMD_SOFT_RESET
  | CUPS_SC_CMD_DRAIN_OUTPUT
  | CUPS_SC_CMD_GET_BIDI
  | CUPS_SC_CMD_GET_DEVICE_ID
  | CUPS_SC_CMD_GET_STATE
  | CUPS_SC_CMD_SNMP_GET
  | CUPS_SC_CMD_SNMP_GET_NEXT
  | CUPS_SC_CMD_GET_CONNECTED
  | CUPS_SC_CMD_UNKNOWN (code : Z).

(** [cups_sc_status_t]. *)
Inductive cups_sc_status_t :=
  | CUPS_SC_STATUS_NONE
  | CUPS_SC_STATUS_OK
  | CUPS_SC_STATUS_IO_ERROR
  | CUPS_SC_STATUS_TIMEOUT
  | CUPS_SC_STATUS_NO_RESPONSE
  | CUPS_SC_STATUS_BAD_MESSAGE
  | CUPS_SC_STATUS_TOO_BIG
  | CUPS_SC_STATUS_NOT_IMPLEMENTED.

(** The values of [errno] the backend distinguishes. *)
Inductive errno_t :=
  | EINTR
  | EAGAIN
  | EOTHER (code : Z).

#[global] Instance libusb_error_eq_dec : EqDecision libusb_error.
Proof. solve_decision. Defined.

#[global] Instance errno_eq_dec : EqDecision errno_t.
Proof. solve_decision. Defined.

(** [usb_printer_t]; [device] numbers the entry of the device list and
    [handle] tells whether a device handle is open. *)
Record usb_printer_t := {
  device : nat;
  conf : Z;
  iface : Z;
  altset : Z;
  write_endp : Z;
  read_endp : Z;
  protocol : Z;
  usblp_attached : Z;
  handle : bool
}.

Definition truthy (x : Z) : bool := negb (x =? 0).

(** *** IEEE-1284 device ID ([get_device_id]) *)

(** [buffer[i]] of a [char] buffer; cells past the modelled ones read as 0. *)
Definition char_at (buffer : list Z) (i : nat) : Z := default 0 (buffer !! i).

(** [memmove(buffer, buffer + 2, length)] *)
Definition memmove_2 (buffer : list Z) (length : nat) : list Z :=
  take length (drop 2 buffer) ++ drop length buffer.

(** [get_device_id(printer, buffer, bufsize)], where [rc] is the value
    returned by [libusb_control_transfer] and [buffer] the buffer as the
    transfer left it.  Returns the function result and the final buffer. *)
Definition get_device_id (rc : Z) (buffer : list Z) (bufsize : Z)
    : Z * list Z :=
  if rc <? 0 then (-1, <[0%nat := 0]> buffer)
  else
    let length :=
      Z.lor (Z.shiftl (Z.land (char_at buffer 0) 255) 8)
            (Z.land (char_at buffer 1) 255) in
    let length :=
      if (length >? bufsize) || (length <? 14)
      then Z.lor (Z.shiftl (Z.land (char_at buffer 1) 255) 8)
                 (Z.land (char_at buffer 0) 255)
      else length in
    let length := if length >? bufsize then bufsize else length in
    if length <? 14 then (-1, <[0%nat := 0]> buffer)
    else
      let length := length - 2 in
      (0, <[Z.to_nat length := 0]> (memmove_2 buffer (Z.to_nat length))).

(** [strlen]: the bytes before the first NUL. *)
Fixpoint c_string (buffer : list Z) : list Z :=
  match buffer with
  | [] => []
  | c :: rest => if c =? 0 then [] else c :: c_string rest
  end.

Definition strlen (buffer : list Z) : Z := Z.of_nat (length (c_string buffer)).

(** The length computation as the specification words it: the first two
    bytes read as a big-endian number; read as little-endian instead when
    that exceeds the buffer or is below 14; then clamped to the buffer. *)
Definition big_endian (b0 b1 : Z) : Z := 256 * (b0 mod 256) + b1 mod 256.

Definition little_endian (b0 b1 : Z) : Z := 256 * (b1 mod 256) + b0 mod 256.

Definition decoded_length (buffer : list Z) (bufsize : Z) : Z :=
  let b0 := char_at buffer 0 in
  let b1 := char_at buffer 1 in
  let len :=
    if (bufsize <? big_endian b0 b1) || (big_endian b0 b1 <? 14)
    then little_endian b0 b1
    else big_endian b0 b1 in
  Z.min len bufsize.

(** The byte order of the length prefix on the wire. *)
Inductive prefix_order := MsbFirst | LsbFirst.

(** The wire image of a device ID as the specification describes it: a
    two-byte prefix holding the total length (prefix included), most
    significant byte first or, with the vendor bug, least significant byte
    first, followed by the payload; [fill] is whatever the rest of the
    buffer holds. *)
Definition build_device_id (order : prefix_order) (payload fill : list Z)
    : list Z :=
  let n := Z.of_nat (length payload) + 2 in
  let hi := Z.land (Z.shiftr n 8) 255 in
  let lo := Z.land n 255 in
  match order with
  | MsbFirst => hi :: lo :: payload ++ fill
  | LsbFirst => lo :: hi :: payload ++ fill
  end.

(** Decoding as the round-trip law reads it: the device ID is what
    [get_device_id] leaves in front of the terminator it writes, provided
    it reports success. *)
Definition parse_device_id (buffer : list Z) (bufsize : Z)
    : option (list Z) :=
  let '(rc, out) := get_device_id 0 buffer bufsize in
  if rc =? 0 then Some (c_string out) else None.

(** *** The globals [g] *)

(** [usb_globals_t], without its mutexes and condition variables. *)
Record usb_globals_t := {
  printer : usb_printer_t;
  read_thread_stop : Z;
  read_thread_done : Z;
  readwrite_lock : Z;
  print_fd : Z;
  print_bytes : Z;
  wait_eof : Z;
  drain_output : Z;
  bidi_flag : Z;
  sidechannel_thread_stop : Z;
  sidechannel_thread_done : Z
}.

Definition set_print_bytes (g : usb_globals_t) (n : Z) : usb_globals_t :=
  {| printer := printer g; read_thread_stop := read_thread_stop g;
     read_thread_done := read_thread_done g;
     readwrite_lock := readwrite_lock g; print_fd := print_fd g;
     print_bytes := n; wait_eof := wait_eof g;
     drain_output := drain_output g; bidi_flag := bidi_flag g;
     sidechannel_thread_stop := sidechannel_thread_stop g;
     sidechannel_thread_done := sidechannel_thread_done g |}.

Definition set_drain_output (g : usb_globals_t) (v : Z) : usb_globals_t :=
  {| printer := printer g; read_thread_stop := read_thread_stop g;
     read_thread_done := read_thread_done g;
     readwrite_lock := readwrite_lock g; print_fd := print_fd g;
     print_bytes := print_bytes g; wait_eof := wait_eof g;
     drain_output := v; bidi_flag := bidi_flag g;
     sidechannel_thread_stop := sidechannel_thread_stop g;
     sidechannel_thread_done := sidechannel_thread_done g |}.

Definition set_readwrite_lock (g : usb_globals_t) (v : Z) : usb_globals_t :=
  {| printer := printer g; read_thread_stop := read_thread_stop g;
     read_thread_done := read_thread_done g;
     readwrite_lock := v; print_fd := print_fd g;
     print_bytes := print_bytes g; wait_eof := wait_eof g;
     drain_output := drain_output g; bidi_flag := bidi_flag g;
     sidechannel_thread_stop := sidechannel_thread_stop g;
     sidechannel_thread_done := sidechannel_thread_done g |}.

(** *** Side-channel responder ([sidechannel_thread]) *)

(** One call of [cupsSideChannelWrite(command, status, data, datalen, 1.0)]. *)
Record sc_reply := {
  r_command : cups_sc_command_t;
  r_status : cups_sc_status_t;
  r_data : list Z
}.

(** [soft_reset()] once the writer has released the I/O lock: the lock is
    taken, [g.print_bytes] is cleared and pending input flushed, the device
    is reset and the lock is released. *)
Definition soft_reset (g : usb_globals_t) : usb_globals_t :=
  let g := set_readwrite_lock g 1 in
  let g := set_print_bytes g 0 in
  set_readwrite_lock g 0.

(** What one pass through the [switch (command)] leaves behind: the
    globals, the replies written, the number of [libusb_reset_device]
    calls, and the local variable [status]. *)
Record sc_result := {
  res_globals : usb_globals_t;
  res_replies : list sc_reply;
  res_resets : nat;
  res_status : cups_sc_status_t
}.

(** The [switch (command)] of [sidechannel_thread] for a command read with
    status [status]; [rc] and [buffer] are what the device-ID control
    transfer returns into [data] (2048 bytes). *)
Definition sidechannel_command `{Headers} (g : usb_globals_t)
    (command : cups_sc_command_t) (status : cups_sc_status_t)
    (rc : Z) (buffer : list Z) : sc_result :=
  match command with
  | CUPS_SC_CMD_SOFT_RESET =>
      {| res_globals := soft_reset g;
         res_replies :=
           [{| r_command := command; r_status := CUPS_SC_STATUS_OK;
               r_data := [] |}];
         res_resets := 1;
         res_status := status |}
  | CUPS_SC_CMD_DRAIN_OUTPUT =>
      {| res_globals := set_drain_output g 1;
         res_replies := [];
         res_resets := 0;
         res_status := status |}
  | CUPS_SC_CMD_GET_BIDI =>
      {| res_globals := g;
         res_replies :=
           [{| r_command := command; r_status := CUPS_SC_STATUS_OK;
               r_data := [if protocol (printer g) >=? 2 then 1 else 0] |}];
         res_resets := 0;
         res_status := status |}
  | CUPS_SC_CMD_GET_DEVICE_ID =>
      let '(failed, data) := get_device_id rc buffer 2048 in
      let '(status, datalen) :=
        if truthy failed then (CUPS_SC_STATUS_IO_ERROR, 0)
        else (CUPS_SC_STATUS_OK, strlen data) in
      {| res_globals := g;
         res_replies :=
           [{| r_command := command; r_status := CUPS_SC_STATUS_OK;
               r_data := take (Z.to_nat datalen) data |}];
         res_resets := 0;
         res_status := status |}
  | CUPS_SC_CMD_GET_STATE =>
      {| res_globals := g;
         res_replies :=
           [{| r_command := command; r_status := CUPS_SC_STATUS_OK;
               r_data := [CUPS_SC_STATE_ONLINE] |}];
         res_resets := 0;
         res_status := status |}
  | CUPS_SC_CMD_GET_CONNECTED =>
      {| res_globals := g;
         res_replies :=
           [{| r_command := command; r_status := CUPS_SC_STATUS_OK;
               r_data := [if handle (printer g) then 1 else 0] |}];
         res_resets := 0;
         res_status := status |}
  | _ =>
      {| res_globals := g;
         res_replies :=
           [{| r_command := command;
               r_status := CUPS_SC_STATUS_NOT_IMPLEMENTED; r_data := [] |}];
         res_resets := 0;
         res_status := status |}
  end.

(** *** Device finder ([find_device]) *)

(** A value stored into a [uint8_t] variable. *)
Definition uint8 (x : Z) : Z := x mod 256.

Record libusb_endpoint_descriptor := {
  bmAttributes : Z;
  bEndpointAddress : Z
}.

(** An alternate setting; [bNumEndpoints] is the length of [endpoint]. *)
Record libusb_interface_descriptor := {
  bInterfaceClass : Z;
  bInterfaceSubClass : Z;
  bInterfaceProtocol : Z;
  endpoint : list libusb_endpoint_descriptor
}.

(** An interface; [num_altsetting] is the length of [altsetting]. *)
Record libusb_interface := {
  altsetting : list libusb_interface_descriptor
}.

(** A configuration; [bNumInterfaces] is the length of [interface]. *)
Record libusb_config_descriptor := {
  interface : list libusb_interface
}.

(** A device: the descriptor fields the finder reads, and for each
    configuration index what [libusb_get_config_descriptor] yields ([None]
    when it fails). *)
Record libusb_device := {
  idVendor : Z;
  idProduct : Z;
  configurations : list (option libusb_config_descriptor)
}.

Section Finder.
Context `{Headers}.

Definition is_bulk (ep : libusb_endpoint_descriptor) : bool :=
  Z.land (bmAttributes ep) LIBUSB_TRANSFER_TYPE_MASK
    =? LIBUSB_TRANSFER_TYPE_BULK.

(** Device-to-host direction. *)
Definition is_in (ep : libusb_endpoint_descriptor) : bool :=
  truthy (Z.land (bEndpointAddress ep) LIBUSB_ENDPOINT_DIR_MASK).

(** The endpoint loop from index [endp] on, with the current values of the
    [uint8_t] variables [read_endp] and [write_endp]. *)
Fixpoint scan_endpoints (eps : list libusb_endpoint_descriptor) (endp : nat)
    (read_endp write_endp : Z) : Z * Z :=
  match eps with
  | [] => (read_endp, write_endp)
  | ep :: rest =>
      if is_bulk ep then
        if is_in ep
        then scan_endpoints rest (S endp) (uint8 (Z.of_nat endp)) write_endp
        else scan_endpoints rest (S endp) read_endp (uint8 (Z.of_nat endp))
      else scan_endpoints rest (S endp) read_endp write_endp
  end.

(** The test that skips an alternate setting. *)
Definition skip_altsetting (alt : libusb_interface_descriptor)
    (protocol : Z) : bool :=
  negb (bInterfaceClass alt =? LIBUSB_CLASS_PRINTER) ||
  negb (bInterfaceSubClass alt =? 1) ||
  (negb (bInterfaceProtocol alt =? 1) && negb (bInterfaceProtocol alt =? 2)) ||
  (bInterfaceProtocol alt <? protocol).

Definition save_match (pr : usb_printer_t) (altset_ w r : Z) : usb_printer_t :=
  {| device := device pr; conf := conf pr; iface := iface pr;
     altset := altset_; write_endp := w; read_endp := r;
     protocol := protocol pr; usblp_attached := usblp_attached pr;
     handle := handle pr |}.

(** The alternate-setting loop from index [altset_] on; [protocol_] is the
    [uint8_t] local of that name and [pr] the static [printer].  The source
    counts the alternate settings in the [uint8_t] variable [altset] and
    compares it with the [int] field [num_altsetting]: the loop comes to an
    end only for an interface with at most 255 alternate settings, and
    this definition gives its result for those; with 256 or more the
    counter wraps, the test stays true and the source loop does not
    return. *)
Fixpoint scan_altsettings (alts : list libusb_interface_descriptor)
    (altset_ : nat) (protocol_ : Z) (pr : usb_printer_t)
    : Z * usb_printer_t :=
  match alts with
  | [] => (protocol_, pr)
  | alt :: rest =>
      if skip_altsetting alt protocol_
      then scan_altsettings rest (S altset_) protocol_ pr
      else
        let '(read_endp_, write_endp_) :=
          scan_endpoints (endpoint alt) 0 (uint8 (-1)) (uint8 (-1)) in
        if write_endp_ >=? 0 then
          scan_altsettings rest (S altset_) (uint8 (bInterfaceProtocol alt))
            (save_match pr (uint8 (Z.of_nat altset_)) write_endp_ read_endp_)
        else scan_altsettings rest (S altset_) protocol_ pr
  end.

(** The body of the interface loop up to the call of [open_device]: the
    static [printer] afterwards and whether [protocol > 0]. *)
Definition probe_interface (pr : usb_printer_t) (device_ : nat)
    (conf_ iface_ : Z) (ifc : libusb_interface) : usb_printer_t * bool :=
  let '(protocol_, pr1) := scan_altsettings (altsetting ifc) 0 0 pr in
  if protocol_ >? 0 then
    ({| device := device_; conf := conf_; iface := iface_;
        altset := altset pr1; write_endp := write_endp pr1;
        read_endp := read_endp pr1; protocol := protocol_;
        usblp_attached := usblp_attached pr1; handle := false |}, true)
  else (pr1, false).

(** A bulk endpoint of the given direction ([true]: device-to-host). *)
Definition bulk_dir (dir_in : bool) (ep : libusb_endpoint_descriptor)
    : bool :=
  is_bulk ep && eqb (is_in ep) dir_in.

(** What the specification calls the first bulk endpoint of a direction:
    the least index, counted from [endp], whose endpoint is bulk with that
    direction. *)
Fixpoint first_bulk (dir_in : bool) (eps : list libusb_endpoint_descriptor)
    (endp : nat) : option nat :=
  match eps with
  | [] => None
  | ep :: rest =>
      if bulk_dir dir_in ep then Some endp
      else first_bulk dir_in rest (S endp)
  end.

(** An alternate setting the class test lets through. *)
Definition printer_class (alt : libusb_interface_descriptor) : bool :=
  (bInterfaceClass alt =? LIBUSB_CLASS_PRINTER) &&
  (bInterfaceSubClass alt =? 1) &&
  ((bInterfaceProtocol alt =? 1) || (bInterfaceProtocol alt =? 2)).

(** The translation done when the callback accepts the printer: the saved
    endpoint indexes are replaced by the endpoint addresses of the chosen
    alternate setting; [None] when an index lies outside the descriptor
    arrays. *)
Definition accept_printer (pr : usb_printer_t)
    (confptr : libusb_config_descriptor) : option usb_printer_t :=
  match interface confptr !! Z.to_nat (iface pr) with
  | None => None
  | Some ifc =>
      match altsetting ifc !! Z.to_nat (altset pr) with
      | None => None
      | Some alt =>
          match endpoint alt !! Z.to_nat (read_endp pr),
                endpoint alt !! Z.to_nat (write_endp pr) with
          | Some r, Some w =>
              Some {| device := device pr; conf := conf pr; iface := iface pr;
                      altset := altset pr; write_endp := bEndpointAddress w;
                      read_endp := bEndpointAddress r; protocol := protocol pr;
                      usblp_attached := usblp_attached pr;
                      handle := handle pr |}
          | _, _ => None
          end
      end
  end.

End Finder.

(** *** Closing the device ([close_device]) *)

(** The calls made on the device and the state messages written to
    stderr, in the order they happen. *)
Inductive usb_call :=
  | LibusbOpen (rc : Z)
  | GetConfiguration
  | GetConfigDescriptor
  | SetConfiguration (number : Z)
  | KernelDriverActive (iface : Z)
  | DetachKernelDriver (iface : Z)
  | ClaimInterface (number : Z)
  | SetInterfaceAltSetting (number alt : Z)
  | ReleaseInterface (number : Z)
  | AttachKernelDriver (iface : Z)
  | FreeConfigDescriptor
  | LibusbClose
  | StateConnecting (on : bool).   (* "STATE: +/-connecting-to-device" *)

#[global] Instance usb_call_eq_dec : EqDecision usb_call.
Proof. solve_decision. Defined.

Definition set_handle (pr : usb_printer_t) (h : bool) : usb_printer_t :=
  {| device := device pr; conf := conf pr; iface := iface pr;
     altset := altset pr; write_endp := write_endp pr;
     read_endp := read_endp pr; protocol := protocol pr;
     usblp_attached := usblp_attached pr; handle := h |}.

(** [close_device(printer)], where [number] is the [bInterfaceNumber] of
    the chosen alternate setting: the result, the printer afterwards and
    the calls made. *)
Definition close_device (printer : usb_printer_t) (number : Z)
    : Z * usb_printer_t * list usb_call :=
  if handle printer then
    (0, set_handle printer false,
     [GetConfigDescriptor; ReleaseInterface number]
     ++ (if negb (number =? 0) then [ReleaseInterface 0] else [])
     ++ (if usblp_attached printer =? 1
         then [AttachKernelDriver (iface printer)] else [])
     ++ [FreeConfigDescriptor; LibusbClose])
  else (0, printer, []).

(** How often a call occurs in a trace. *)
Definition count_call (c : usb_call) (calls : list usb_call) : nat :=
  length (filter (fun c' => c' = c) calls).

(** *** Writer loop ([print_device]) *)

(** The writer: the globals [g] and the locals [total_bytes], [print_ptr]
    (as an offset into [print_buffer]) and [status] of [print_device], with
    two records of what it did: the number of [libusb_bulk_transfer] calls
    and the drain replies sent on the side channel. *)
Record writer := {
  g : usb_globals_t;
  total_bytes : Z;
  print_ptr : Z;
  status : cups_backend_t;
  bulk_calls : nat;
  drain_replies : nat
}.

(** What the system and the device answer during one pass of the inner
    loop: the result of [select] with its [errno] and whether [print_fd] is
    reported readable, the result of [read] with its [errno], and the
    results ([iostatus], [bytes]) of the first bulk transfer and of the
    retry, should one be issued; and the [bInterfaceNumber] that
    [close_device] reads from the configuration descriptor, should the
    pass close the device. *)
Record answers := {
  nfds : Z;
  select_errno : errno_t;
  fd_ready : bool;
  read_ret : Z;
  read_errno : errno_t;
  first_transfer : libusb_error * Z;
  retry_transfer : libusb_error * Z;
  interface_number : Z
}.

Inductive pass_result :=
  | NextPass (w : writer)                 (* back to the loop test *)
  | BreakLoop (w : writer)                (* break *)
  | CloseAndReturn (code : cups_backend_t) (* close_device; return *)
      (w : writer) (calls : list usb_call).

(** The timeout handed to [select]: [Some] microseconds, [None] to wait
    forever. *)
Definition writer_select_timeout (w : writer) : option Z :=
  if truthy (print_bytes (g w)) then Some 100000
  else if truthy (drain_output (g w)) then Some 0
  else None.

Definition is_errno (e which : errno_t) : bool := bool_decide (e = which).

Definition is_status (s t : libusb_error) : bool := bool_decide (s = t).

(** The writer after [calls] more bulk transfers, the last of which ended
    with [iostatus] 0 and reported [bytes] bytes:
    [if (bytes > 0) { g.print_bytes -= bytes; print_ptr += bytes;
                      total_bytes += bytes; }]. *)
Definition count_transfer (w : writer) (calls : nat) (bytes : Z) : writer :=
  if bytes >? 0 then
    {| g := set_print_bytes (g w) (print_bytes (g w) - bytes);
       total_bytes := total_bytes w + bytes;
       print_ptr := print_ptr w + bytes;
       status := status w;
       bulk_calls := (calls + bulk_calls w)%nat;
       drain_replies := drain_replies w |}
  else
    {| g := g w; total_bytes := total_bytes w; print_ptr := print_ptr w;
       status := status w; bulk_calls := (calls + bulk_calls w)%nat;
       drain_replies := drain_replies w |}.

(** The writer after [calls] more bulk transfers, the last of which left
    [iostatus] non-zero: [status = CUPS_BACKEND_FAILED]. *)
Definition fail_transfer (w : writer) (calls : nat) : writer :=
  {| g := g w; total_bytes := total_bytes w; print_ptr := print_ptr w;
     status := CUPS_BACKEND_FAILED;
     bulk_calls := (calls + bulk_calls w)%nat;
     drain_replies := drain_replies w |}.

(** The bulk transfer and the classification of its result: the final
    [iostatus] and [bytes], and the number of transfers issued. *)
Definition transfer_with_retry (a : answers) : libusb_error * Z * nat :=
  let '(iostatus, bytes) := first_transfer a in
  if is_status iostatus LIBUSB_ERROR_TIMEOUT
  then (LIBUSB_SUCCESS, bytes, 1%nat)
  else if is_status iostatus LIBUSB_ERROR_PIPE
  then (fst (retry_transfer a), snd (retry_transfer a), 2%nat)
  else if is_status iostatus LIBUSB_ERROR_INTERRUPTED
  then (fst (retry_transfer a), snd (retry_transfer a), 2%nat)
  else (iostatus, bytes, 1%nat).

(** The [if (g.print_bytes)] block: the transfer, then
    [if (iostatus) { status = CUPS_BACKEND_FAILED; break; }
     else if (bytes > 0) ...]. *)
Definition bulk_write (w : writer) (a : answers) : pass_result :=
  let '(iostatus, bytes, calls) := transfer_with_retry a in
  if negb (is_status iostatus LIBUSB_SUCCESS)
  then BreakLoop (fail_transfer w calls)
  else NextPass (count_transfer w calls bytes).

(** [g.print_bytes = n] and [print_ptr] at offset [ptr]. *)
Definition with_print_bytes (w : writer) (n ptr : Z) : writer :=
  {| g := set_print_bytes (g w) n; total_bytes := total_bytes w;
     print_ptr := ptr; status := status w; bulk_calls := bulk_calls w;
     drain_replies := drain_replies w |}.

(** [g.printer] replaced: the globals point to the static [printer], which
    [close_device] changes. *)
Definition set_printer (g : usb_globals_t) (pr : usb_printer_t)
    : usb_globals_t :=
  {| printer := pr; read_thread_stop := read_thread_stop g;
     read_thread_done := read_thread_done g;
     readwrite_lock := readwrite_lock g; print_fd := print_fd g;
     print_bytes := print_bytes g; wait_eof := wait_eof g;
     drain_output := drain_output g; bidi_flag := bidi_flag g;
     sidechannel_thread_stop := sidechannel_thread_stop g;
     sidechannel_thread_done := sidechannel_thread_done g |}.

(** [close_device(g.printer); return (code);]: the writer with the printer
    as [close_device] leaves it, and the calls [close_device] made. *)
Definition close_and_return (w : writer) (a : answers)
    (code : cups_backend_t) : pass_result :=
  let closed := close_device (printer (g w)) (interface_number a) in
  CloseAndReturn code
    {| g := set_printer (g w) (snd (fst closed));
       total_bytes := total_bytes w; print_ptr := print_ptr w;
       status := status w; bulk_calls := bulk_calls w;
       drain_replies := drain_replies w |}
    (snd closed).

(** The tail of a pass from [if (g.print_bytes)] on. *)
Definition write_phase (w : writer) (a : answers) : pass_result :=
  if truthy (print_bytes (g w)) then bulk_write w a else NextPass w.

(** The [if (FD_ISSET(print_fd, &input_set))] block and what follows;
    [in_set] tells whether [print_fd] is in [input_set] after [select]. *)
Definition read_phase (w : writer) (a : answers) (in_set : bool)
    : pass_result :=
  if in_set then
    if read_ret a <? 0 then
      if negb (is_errno (read_errno a) EAGAIN) &&
         negb (is_errno (read_errno a) EINTR)
      then close_and_return w a CUPS_BACKEND_FAILED
      else write_phase (with_print_bytes w 0 0) a
    else if read_ret a =? 0 then
      BreakLoop (with_print_bytes w 0 (print_ptr w))   (* End of file *)
    else write_phase (with_print_bytes w (read_ret a) 0) a
  else write_phase w a.

(** The drain-output response:
    [if (g.drain_output && !nfds && !g.print_bytes)]. *)
Definition drain_phase (w : writer) (a : answers) : writer :=
  if truthy (drain_output (g w)) && negb (truthy (nfds a)) &&
     negb (truthy (print_bytes (g w)))
  then {| g := set_drain_output (g w) 0; total_bytes := total_bytes w;
          print_ptr := print_ptr w; status := status w;
          bulk_calls := bulk_calls w;
          drain_replies := S (drain_replies w) |}
  else w.

(** One pass through the body of [while (status == CUPS_BACKEND_OK)].
    [print_fd] is put in [input_set] only when [g.print_bytes] is 0, and
    [select] can report it only then.  The writer gives [g.readwrite_lock]
    up before [select] and has it back, set to 1, when the pass goes on. *)
Definition writer_pass (w : writer) (a : answers) : pass_result :=
  let in_set := negb (truthy (print_bytes (g w))) && fd_ready a in
  if (nfds a <? 0) && is_errno (select_errno a) EINTR &&
     (total_bytes w =? 0)
  then close_and_return w a CUPS_BACKEND_OK
  else if (nfds a <? 0) && negb (is_errno (select_errno a) EAGAIN) &&
          negb (is_errno (select_errno a) EINTR)
  then close_and_return w a CUPS_BACKEND_FAILED
  else read_phase (drain_phase w a) a in_set.

Definition backend_ok (s : cups_backend_t) : bool :=
  match s with
  | CUPS_BACKEND_OK => true
  | _ => false
  end.

Inductive copy_result :=
  | CopyEnded (w : writer) (rest : list answers)  (* the inner loop ended *)
  | Returned (code : cups_backend_t)              (* print_device returned *)
      (w : writer) (calls : list usb_call)
  | Waiting (w : writer).                         (* the answers ran out *)

(** The inner loop [while (status == CUPS_BACKEND_OK)], driven by the
    answers of the successive passes. *)
Fixpoint copy_loop (w : writer) (script : list answers) : copy_result :=
  if backend_ok (status w) then
    match script with
    | [] => Waiting w
    | a :: rest =>
        match writer_pass w a with
        | NextPass w' => copy_loop w' rest
        | BreakLoop w' => CopyEnded w' rest
        | CloseAndReturn code w' calls => Returned code w' calls
        end
    end
  else CopyEnded w script.

(** The outer loop [while (status == CUPS_BACKEND_OK && copies-- > 0)] with
    [copies] copies left, followed by the return of [status]; [None] when
    the answers run out before the loops end. *)
Fixpoint print_copies (copies : nat) (w : writer) (script : list answers)
    : option (cups_backend_t * writer) :=
  if backend_ok (status w) then
    match copies with
    | O => Some (status w, w)
    | S copies' =>
        match copy_loop w script with
        | CopyEnded w' rest => print_copies copies' w' rest
        | Returned code w' _ => Some (code, w')
        | Waiting _ => None
        end
    end
  else Some (status w, w).

(** The globals when the writer loop starts, for the printer [pr] and the
    job file descriptor [fd]. *)
Definition globals_init (pr : usb_printer_t) (fd : Z) : usb_globals_t :=
  {| printer := pr; read_thread_stop := 0; read_thread_done := 0;
     readwrite_lock := 1; print_fd := fd; print_bytes := 0; wait_eof := 0;
     drain_output := 0; bidi_flag := 0; sidechannel_thread_stop := 0;
     sidechannel_thread_done := 0 |}.

Definition writer_init (pr : usb_printer_t) (fd : Z) : writer :=
  {| g := globals_init pr fd; total_bytes := 0; print_ptr := 0;
     status := CUPS_BACKEND_OK; bulk_calls := 0; drain_replies := 0 |}.

(** *** Reference values *)

(** The values of libusb 1.0 and of [cups/sidechannel.h]. *)
Definition libusb_headers : Headers :=
  {| LIBUSB_CLASS_PRINTER := 7;
     LIBUSB_TRANSFER_TYPE_MASK := 3;
     LIBUSB_TRANSFER_TYPE_BULK := 2;
     LIBUSB_ENDPOINT_DIR_MASK := 128;
     CUPS_SC_STATE_ONLINE := 1 |}.

(** An opened bidirectional printer. *)
Definition open_printer : usb_printer_t :=
  {| device := 0; conf := 0; iface := 0; altset := 0; write_endp := 1;
     read_endp := 129; protocol := 2; usblp_attached := 0; handle := true |}.

(** A uni-directional and a bidirectional alternate setting of one
    printer interface. *)
Definition uni_then_bidi : list libusb_interface_descriptor :=
  [ {| bInterfaceClass := 7; bInterfaceSubClass := 1; bInterfaceProtocol := 1;
       endpoint := [ {| bmAttributes := 2; bEndpointAddress := 1 |} ] |};
    {| bInterfaceClass := 7; bInterfaceSubClass := 1; bInterfaceProtocol := 2;
       endpoint := [ {| bmAttributes := 2; bEndpointAddress := 129 |};
                     {| bmAttributes := 2; bEndpointAddress := 1 |};
                     {| bmAttributes := 2; bEndpointAddress := 130 |} ] |} ].

(** Answers of one pass: [select] reports the job file readable, [read]
    returns [n] bytes, and the two transfers end as given. *)
Definition pass_answers (n : Z) (first retry : libusb_error * Z) : answers :=
  {| nfds := 1; select_errno := EOTHER 0; fd_ready := true; read_ret := n;
     read_errno := EOTHER 0; first_transfer := first;
     retry_transfer := retry; interface_number := 0 |}.

(** Answers of a pass whose [select] times out with nothing to read, as it
    does while unsent bytes remain. *)
Definition residue_answers (first retry : libusb_error * Z) : answers :=
  {| nfds := 0; select_errno := EOTHER 0; fd_ready := false; read_ret := 0;
     read_errno := EOTHER 0; first_transfer := first;
     retry_transfer := retry; interface_number := 0 |}.

(** Answers of a pass whose [select] fails with [EINTR]. *)
Definition interrupted_select : answers :=
  {| nfds := -1; select_errno := EINTR; fd_ready := false; read_ret := 0;
     read_errno := EOTHER 0; first_transfer := (LIBUSB_SUCCESS, 0);
     retry_transfer := (LIBUSB_SUCCESS, 0); interface_number := 0 |}.

(** The globals of a backend printing a file on descriptor 3. *)
Definition idle_side_channel : usb_globals_t := globals_init open_printer 3.

(** A bulk IN endpoint 0x81, a bulk OUT endpoint 0x01 and a second bulk IN
    endpoint 0x82. *)
Definition two_in_endpoints : list libusb_endpoint_descriptor :=
  [ {| bmAttributes := 2; bEndpointAddress := 129 |};
    {| bmAttributes := 2; bEndpointAddress := 1 |};
    {| bmAttributes := 2; bEndpointAddress := 130 |} ].

(** A printer-class alternate setting whose only endpoint is an interrupt
    IN endpoint. *)
Definition no_bulk_out : libusb_interface_descriptor :=
  {| bInterfaceClass := 7; bInterfaceSubClass := 1; bInterfaceProtocol := 1;
     endpoint := [ {| bmAttributes := 3; bEndpointAddress := 131 |} ] |}.

(** A writer holding 100 unsent bytes. *)
Definition writer_with_residue : writer :=
  {| g := set_print_bytes (globals_init open_printer 3) 100;
     total_bytes := 0; print_ptr := 0; status := CUPS_BACKEND_OK;
     bulk_calls := 0; drain_replies := 0 |}.

(** A writer that has sent its first ten bytes. *)
Definition writer_after_ten : writer :=
  {| g := globals_init open_printer 3; total_bytes := 10; print_ptr := 10;
     status := CUPS_BACKEND_OK; bulk_calls := 1; drain_replies := 0 |}.

End Usb.

Module SchedExt.
Import Sched.

(** *** Signal handlers and the periodic tests of [main] *)

Section Handlers.
Context `{Headers}.

(** [sighup_handler]: [NeedReload = RELOAD_ALL; ReloadTime = time(NULL);] *)
Definition sighup_handler (g : globals) (now : Z) : globals :=
  {| Clients := Clients g; NumClients := NumClients g; Jobs := Jobs g;
     Printers := Printers g; Listening := Listening g;
     NeedReload := RELOAD_ALL; ReloadTime := now;
     ReloadTimeout := ReloadTimeout g;
     Timeout := Timeout g; Browsing := Browsing g;
     BrowseLocalProtocols := BrowseLocalProtocols g;
     BrowseRemoteProtocols := BrowseRemoteProtocols g;
     BrowseSLPRefresh := BrowseSLPRefresh g; BrowseTimeout := BrowseTimeout g;
     BrowseInterval := BrowseInterval g; LogLevel := LogLevel g;
     mallinfo_time := mallinfo_time g; RootCertDuration := RootCertDuration g;
     RootCertTime := RootCertTime g; NotifyPost := NotifyPost g |}.

End Handlers.

(** The inactivity test of the client loop of [main], for a client whose
    [pipe_pid] is given:
    [activity = time(NULL) - Timeout;
     if (con->http.activity < activity && !con->pipe_pid)]. *)
Definition idle_close_due (g : globals) (con : client_t) (pipe_pid now : Z)
    : bool :=
  let activity := now - Timeout g in
  (http_activity con <? activity) && negb (truthy pipe_pid).

(** [if ((time(NULL) - RootCertTime) >= RootCertDuration &&
         RootCertDuration)] *)
Definition rootcert_due (g : globals) (now : Z) : bool :=
  (now - RootCertTime g >=? RootCertDuration g) &&
  truthy (RootCertDuration g).

(** *** Descriptor limits of [main] *)

(** [if (limit.rlim_max > CUPS_MAX_FDS) MaxFDs = CUPS_MAX_FDS;
     else MaxFDs = limit.rlim_max;] *)
Definition MaxFDs (rlim_max CUPS_MAX_FDS : Z) : Z :=
  if rlim_max >? CUPS_MAX_FDS then CUPS_MAX_FDS else rlim_max.

(** [SetSize = (MaxFDs + 31) / 8 + 4;
     if (SetSize < sizeof(fd_set)) SetSize = sizeof(fd_set);]
    with the truncating division of C. *)
Definition SetSize (maxfds sizeof_fd_set : Z) : Z :=
  let size := Z.quot (maxfds + 31) 8 + 4 in
  if size <? sizeof_fd_set then sizeof_fd_set else size.

(** *** Pipes ([cupsdClosePipe], [cupsdOpenPipe]) *)

(** [cupsdClosePipe(fds)]: the array afterwards and the descriptors handed
    to [close], in order. *)
Definition cupsdClosePipe (fds : Z * Z) : (Z * Z) * list Z :=
  let '(fd0, closed0) :=
    if fst fds >=? 0 then (-1, [fst fds]) else (fst fds, []) in
  let '(fd1, closed1) :=
    if snd fds >=? 0 then (-1, [snd fds]) else (snd fds, []) in
  ((fd0, fd1), closed0 ++ closed1).

(** What the system answers to [cupsdOpenPipe]: the result of [pipe] and
    the descriptors it stores on success, and the results of the two
    [fcntl(fd, F_SETFD, ...)] calls. *)
Record pipe_answers := {
  pipe_rc : Z;
  pipe_fds : Z * Z;
  setfd0_rc : Z;
  setfd1_rc : Z
}.

(** What [cupsdOpenPipe] leaves behind: its result, the array, the
    descriptors it closed and those it marked close-on-exec. *)
Record pipe_result := {
  open_rc : Z;
  open_fds : Z * Z;
  open_closed : list Z;
  open_cloexec : list Z
}.

(** [cupsdOpenPipe(fds)]; a failing [pipe] leaves the array as it was. *)
Definition cupsdOpenPipe (fds : Z * Z) (a : pipe_answers) : pipe_result :=
  if truthy (pipe_rc a) then
    {| open_rc := -1; open_fds := fds; open_closed := [];
       open_cloexec := [] |}
  else
    let fds := pipe_fds a in
    if truthy (setfd0_rc a) then
      {| open_rc := -1; open_fds := fds;
         open_closed := [fst fds; snd fds]; open_cloexec := [] |}
    else if truthy (setfd1_rc a) then
      {| open_rc := -1; open_fds := fds;
         open_closed := [fst fds; snd fds]; open_cloexec := [fst fds] |}
    else
      {| open_rc := 0; open_fds := fds; open_closed := [];
         open_cloexec := [fst fds; snd fds] |}.

(** *** Status pipes of the jobs (the job loop of [main]) *)

(** [for (job = Jobs; ...) if (job->pipe >= 0 && FD_ISSET(job->pipe, input))
       { FD_CLR(job->pipe, input); UpdateJob(job); }]
    over the [pipe] fields of the jobs, counted from index [i]: the indexes
    of the jobs handed to [UpdateJob], in order, and [input] afterwards. *)
Fixpoint update_jobs (pipes : list Z) (i : nat) (input : gset Z)
    : list nat * gset Z :=
  match pipes with
  | [] => ([], input)
  | pipe :: rest =>
      if (pipe >=? 0) && bool_decide (pipe ∈ input) then
        let '(updated, input') :=
          update_jobs rest (S i) (input ∖ {[pipe]}) in
        (i :: updated, input')
      else update_jobs rest (S i) input
  end.

(** *** The pid pipelines of the jobs *)

(** The number of slots of a pipeline that still hold a live (positive)
    pid. *)
Definition live_pids (ps : list Z) : nat :=
  length (filter (fun p => 0 < p) (pipeline ps)).

Definition total_live (jobs : list job_t) : nat :=
  sum_list (map (fun job => live_pids (procs job)) jobs).

(** What [process_children] may change in a job: nothing but the sign of
    slots and the disposition. *)
Definition same_job (j j' : job_t) : Prop :=
  state j' = state j /\ printer j' = printer j /\
  map Z.abs (procs j') = map Z.abs (procs j).

(** A job the reaper has marked the slot of [pid] in: the disposition is
    kept when it was negative, and a live pid leaves the pipeline. *)
Definition reaped_job (pid : Z) (j j' : job_t) : Prop :=
  same_job j j' /\
  (status j < 0 -> status j' = status j) /\
  (0 < pid -> S (live_pids (procs j')) = live_pids (procs j)).

(** A client idle since time 700, and a scheduler that has only this
    client, with a Timeout of 300 seconds. *)
Definition idle_client : client_t :=
  {| http_used := 0; http_activity := 700; http_state := 0;
     http_keep_alive := 1 |}.

Definition one_idle_client : globals :=
  {| Clients := [idle_client]; NumClients := 1; Jobs := []; Printers := [];
     Listening := true; NeedReload := 0; ReloadTime := 0; ReloadTimeout := 0;
     Timeout := 300; Browsing := 0; BrowseLocalProtocols := 0;
     BrowseRemoteProtocols := 0; BrowseSLPRefresh := 0; BrowseTimeout := 0;
     BrowseInterval := 0; LogLevel := 0; mallinfo_time := 0;
     RootCertDuration := 0; RootCertTime := 0; NotifyPost := 0 |}.

(** A Processing job whose pipeline holds [pid]. *)
Definition holds_pid `{Headers} (pid : Z) (j : job_t) : bool :=
  is_processing j && existsb (Z.eqb pid) (pipeline (procs j)).

End SchedExt.

Module SchedStrings.

(** *** String variables ([SetString], [SetStringf], [ClearString]) *)

(** The heap: the live blocks, each with the characters of the
    NUL-terminated string it holds.  A [char *] is NULL ([None]) or a
    block and an offset into it. *)
Definition char_ptr := option (nat * nat).

(** The string a non-null pointer points to; [None] when the block is not
    live or the offset lies past the terminator, where the read is
    undefined. *)
Definition string_at (h : gmap nat (list Z)) (p : nat * nat) : option (list Z) :=
  match h !! fst p with
  | Some content =>
      if (snd p <=? length content)%nat then Some (drop (snd p) content)
      else None
  | None => None
  end.

(** [free(p)], defined for the start of a live block only. *)
Definition free (h : gmap nat (list Z)) (p : nat * nat)
    : option (gmap nat (list Z)) :=
  match h !! fst p with
  | Some _ => if (snd p =? 0)%nat then Some (delete (fst p) h) else None
  | None => None
  end.

(** [malloc] of a block for [content], taken to succeed. *)
Definition alloc (h : gmap nat (list Z)) (content : list Z) : gmap nat (list Z) * (nat * nat) :=
  let b := fresh (dom h) in (<[b := content]> h, (b, 0%nat)).

(** [strdup(v)] *)
Definition strdup (h : gmap nat (list Z)) (v : nat * nat) : option (gmap nat (list Z) * (nat * nat)) :=
  match string_at h v with
  | Some content => Some (alloc h content)
  | None => None
  end.

(** [SetString(s, v)], where [s] is [None] for a null [s] and otherwise
    holds [*s]: the heap and [*s] afterwards, [None] when the call reads
    or frees memory it must not. *)
Definition SetString (h : gmap nat (list Z)) (s : option char_ptr) (v : char_ptr)
    : option (gmap nat (list Z) * option char_ptr) :=
  match s with
  | None => Some (h, None)
  | Some cur =>
      if bool_decide (cur = v) then Some (h, s)
      else
        match (match cur with
               | Some p => free h p
               | None => Some h
               end) with
        | None => None
        | Some h1 =>
            match v with
            | Some q =>
                match strdup h1 q with
                | Some (h2, p) => Some (h2, Some (Some p))
                | None => None
                end
            | None => Some (h1, Some None)
            end
        end
  end.

(** [SetStringf(s, f, ...)]: [f] is [None] for a null format and otherwise
    gives the text that the format and its arguments produce when read in
    the heap, [None] when that reads memory it must not; the text is cut
    to the 1023 characters that fit [v]. *)
Definition SetStringf (h : gmap nat (list Z)) (s : option char_ptr)
    (f : option (gmap nat (list Z) -> option (list Z)))
    : option (gmap nat (list Z) * option char_ptr) :=
  match s with
  | None => Some (h, None)
  | Some olds =>
      match (match f with
             | Some text =>
                 match text h with
                 | Some v =>
                     let '(h1, p) := alloc h (take 1023 v) in
                     Some (h1, Some p)
                 | None => None
                 end
             | None => Some (h, None)
             end) with
      | None => None
      | Some (h1, new) =>
          match olds with
          | Some p =>
              match free h1 p with
              | Some h2 => Some (h2, Some new)
              | None => None
              end
          | None => Some (h1, Some new)
          end
      end
  end.

(** The format ["%s"] with the argument [v]. *)
Definition percent_s (v : nat * nat)
    : gmap nat (list Z) -> option (list Z) :=
  fun h => string_at h v.

(** [ClearString(s)] *)
Definition ClearString (h : gmap nat (list Z)) (s : option char_ptr)
    : option (gmap nat (list Z) * option char_ptr) :=
  match s with
  | Some (Some p) =>
      match free h p with
      | Some h1 => Some (h1, Some None)
      | None => None
      end
  | _ => Some (h, s)
  end.

(** A variable that is null or holds the start of a live block, and a
    pointer that does not point into the block the variable holds. *)
Definition owned (h : gmap nat (list Z)) (cur : char_ptr) : Prop :=
  match cur with
  | Some p => snd p = 0%nat /\ is_Some (h !! fst p)
  | None => True
  end.

Definition outside (q : nat * nat) (cur : char_ptr) : Prop :=
  match cur with
  | Some p => fst q <> fst p
  | None => True
  end.

(** Reference values: a heap whose block 0 holds "lp0" and whose block 1
    holds "/dev/lp0". *)
Definition two_strings : gmap nat (list Z) :=
  {[ 0%nat := [108; 112; 48];
     1%nat := [47; 100; 101; 118; 47; 108; 112; 48] ]}.

End SchedStrings.

Module UsbExt.
Import Usb.

(** *** Opening the device ([open_device]) *)

(** What the device answers to the calls of [open_device], and the fields
    of the configuration descriptor it reads; [current_configuration] is
    the byte the GET_CONFIGURATION transfer stores into [char current]. *)
Record open_answers := {
  libusb_open_rc : Z;
  get_configuration_rc : Z;
  current_configuration : Z;
  bConfigurationValue : Z;
  set_configuration_rc : Z;
  kernel_driver_active_rc : Z;
  detach_kernel_driver_rc : Z;
  bInterfaceNumber : Z;
  bAlternateSetting : Z;
  num_altsetting : Z;
  claim_interface_rc : Z;
  set_interface_alt_setting_rc : Z
}.

Definition set_usblp_attached (pr : usb_printer_t) (v : Z) : usb_printer_t :=
  {| device := device pr; conf := conf pr; iface := iface pr;
     altset := altset pr; write_endp := write_endp pr;
     read_endp := read_endp pr; protocol := protocol pr;
     usblp_attached := v; handle := handle pr |}.

(** The value of a [char] into which the byte [b] was stored; [char] is
    signed where the backend is built, so that the byte 200 reads as -56. *)
Definition char_value (b : Z) : Z :=
  if b mod 256 <? 128 then b mod 256 else b mod 256 - 256.

Definition state_message (verbose : Z) (on : bool) : list usb_call :=
  if truthy verbose then [StateConnecting on] else [].

(** The label [error:] of [open_device]. *)
Definition open_error (pr : usb_printer_t) (verbose : Z)
    (calls : list usb_call) : Z * usb_printer_t * list usb_call :=
  (-1, set_handle pr false,
   calls ++ state_message verbose false ++ [LibusbClose]).

(** The kernel-driver step of [open_device]: the printer, the calls so
    far, and whether the step ended in [goto error]. *)
Definition detach_usblp (pr : usb_printer_t) (calls : list usb_call)
    (a : open_answers) : usb_printer_t * list usb_call * bool :=
  let errcode := kernel_driver_active_rc a in
  let calls := calls ++ [KernelDriverActive (iface pr)] in
  if errcode =? 0 then (set_usblp_attached pr 0, calls, false)
  else if errcode =? 1 then
    let pr := set_usblp_attached pr 1 in
    (pr, calls ++ [DetachKernelDriver (iface pr)],
     detach_kernel_driver_rc a <? 0)
  else (set_usblp_attached pr 0, calls, true).

(** [open_device(printer, verbose)]: the result, the printer afterwards
    and the calls made. *)
Definition open_device (printer : usb_printer_t) (verbose : Z)
    (a : open_answers) : Z * usb_printer_t * list usb_call :=
  if handle printer then (0, printer, [])
  else if libusb_open_rc a <? 0
  then (-1, printer, [LibusbOpen (libusb_open_rc a)])
  else
    let pr := set_handle printer true in
    let calls :=
      [LibusbOpen (libusb_open_rc a)] ++ state_message verbose true in
    let current :=
      if get_configuration_rc a <? 0 then 0
      else char_value (current_configuration a) in
    let calls := calls ++ [GetConfiguration; GetConfigDescriptor] in
    let number1 := bConfigurationValue a in
    let calls :=
      if negb (number1 =? current)
      then calls ++ [SetConfiguration number1] else calls in
    let '(pr, calls, failed) := detach_usblp pr calls a in
    if failed then open_error pr verbose calls
    else
      let number1 := bInterfaceNumber a in
      let calls := calls ++ [ClaimInterface number1] in
      if claim_interface_rc a <? 0 then open_error pr verbose calls
      else
        let '(calls, failed) :=
          if num_altsetting a >? 1 then
            (calls ++ [SetInterfaceAltSetting (bInterfaceNumber a)
                                              (bAlternateSetting a)],
             set_interface_alt_setting_rc a <? 0)
          else (calls, false) in
        if failed then open_error pr verbose calls
        else (0, pr,
              calls ++ [FreeConfigDescriptor] ++ state_message verbose false).

(** The state messages of a trace. *)
Definition state_messages (calls : list usb_call) : list bool :=
  omap (fun c => match c with StateConnecting on => Some on | _ => None end)
       calls.

(** The handles a trace has opened and closed. *)
Definition opens_handle (c : usb_call) : bool :=
  match c with
  | LibusbOpen rc => 0 <=? rc
  | _ => false
  end.

Definition handles_opened (calls : list usb_call) : nat :=
  length (filter (fun c => opens_handle c = true) calls).

Definition handles_closed (calls : list usb_call) : nat :=
  count_call LibusbClose calls.

(** *** The loops of [find_device] *)

(** How the search stands: the callback accepted the printer and
    [find_device] returns it; the translation of the endpoint indexes read
    outside the descriptor arrays; or the search goes on with the static
    [printer] as given. *)
Inductive find_outcome :=
  | Accepted (pr : usb_printer_t)
  | OutOfBounds
  | GoOn (pr : usb_printer_t).

Definition and_then (r : find_outcome * list usb_call)
    (k : usb_printer_t -> find_outcome * list usb_call)
    : find_outcome * list usb_call :=
  match r with
  | (GoOn pr, calls) => let '(o, calls') := k pr in (o, calls ++ calls')
  | _ => r
  end.

Section FindDevice.
Context `{Headers}.

(** [data != NULL], what the device at a given device, configuration and
    interface answers to [open_device], and whether the callback [cb]
    accepts the printer found there. *)
Variable verbose : Z.
Variable device_answers : nat -> Z -> Z -> open_answers.
Variable cb : nat -> Z -> Z -> bool.

(** The block [if (protocol > 0)] once the static [printer] is filled in:
    open the device, ask the callback, and close the device again unless
    the callback accepts it. *)
Definition try_candidate (pr : usb_printer_t)
    (confptr : libusb_config_descriptor)
    : find_outcome * list usb_call :=
  let a := device_answers (device pr) (conf pr) (iface pr) in
  let '(rc, pr1, calls) := open_device pr verbose a in
  if rc =? 0 then
    if cb (device pr) (conf pr) (iface pr) then
      match accept_printer pr1 confptr with
      | Some pr2 => (Accepted pr2, calls)
      | None => (OutOfBounds, calls)
      end
    else
      let '(_, pr2, calls2) := close_device pr1 (bInterfaceNumber a) in
      (GoOn pr2, calls ++ calls2)
  else (GoOn pr1, calls).

(** The interface loop from interface [iface_] on. *)
Fixpoint scan_interfaces (ifcs : list libusb_interface) (iface_ : nat)
    (device_ : nat) (conf_ : Z) (confptr : libusb_config_descriptor)
    (pr : usb_printer_t) : find_outcome * list usb_call :=
  match ifcs with
  | [] => (GoOn pr, [])
  | ifc :: rest =>
      let '(pr1, matched) :=
        probe_interface pr device_ conf_ (Z.of_nat iface_) ifc in
      and_then (if matched then try_candidate pr1 confptr
                else (GoOn pr1, []))
               (scan_interfaces rest (S iface_) device_ conf_ confptr)
  end.

(** The configuration loop from configuration [conf_] on; a configuration
    whose descriptor cannot be read is passed over. *)
Fixpoint scan_configurations
    (confs : list (option libusb_config_descriptor)) (conf_ : nat)
    (device_ : nat) (pr : usb_printer_t) : find_outcome * list usb_call :=
  match confs with
  | [] => (GoOn pr, [])
  | None :: rest => scan_configurations rest (S conf_) device_ pr
  | Some confptr :: rest =>
      and_then (scan_interfaces (interface confptr) 0 device_
                  (Z.of_nat conf_) confptr pr)
               (scan_configurations rest (S conf_) device_)
  end.

(** The device loop from device [i] on. *)
Fixpoint scan_devices (devices : list libusb_device) (i : nat)
    (pr : usb_printer_t) : find_outcome * list usb_call :=
  match devices with
  | [] => (GoOn pr, [])
  | dev :: rest =>
      if (length (configurations dev) =? 0)%nat ||
         negb (truthy (idVendor dev)) || negb (truthy (idProduct dev))
      then scan_devices rest (S i) pr
      else and_then (scan_configurations (configurations dev) 0 i pr)
                    (scan_devices rest (S i))
  end.

(** [find_device(cb, data)] on the devices [libusb_get_device_list]
    reports, with the static [printer] as the last call left it:
    [Accepted] with the printer returned, [GoOn] when NULL is returned,
    and the calls made by [open_device] and [close_device] on the way. *)
Definition find_device (devices : list libusb_device) (pr : usb_printer_t)
    : find_outcome * list usb_call :=
  scan_devices devices 0 pr.

End FindDevice.

(** The handles a search holds open when it ends, and the law that every
    handle opened is either closed or held by the outcome. *)
Definition held (o : find_outcome) : nat :=
  match o with
  | GoOn _ => 0
  | _ => 1
  end.

Definition balanced (r : find_outcome * list usb_call) : Prop :=
  handles_opened (snd r) = (handles_closed (snd r) + held (fst r))%nat /\
  forall pr, fst r = Accepted pr -> handle pr = true.



(** *** Accounting of the writer loop *)



(** The writer seeing the globals as another thread left them. *)
Definition set_g (w : writer) (g' : usb_globals_t) : writer :=
  {| g := g'; total_bytes := total_bytes w; print_ptr := print_ptr w;
     status := status w; bulk_calls := bulk_calls w;
     drain_replies := drain_replies w |}.

(** The answers of a run without incident: each chunk is read in one pass
    and written whole by the first transfer, then [read] reports the end of
    the file. *)
Definition clean_script (chunks : list Z) : list answers :=
  map (fun n => pass_answers n (LIBUSB_SUCCESS, n) (LIBUSB_SUCCESS, 0))
      chunks
  ++ [pass_answers 0 (LIBUSB_SUCCESS, 0) (LIBUSB_SUCCESS, 0)].

(** Reference values: a printer that is not open yet, and a device whose
    interface 1 is bound to the "usblp" kernel driver and has two
    alternate settings. *)
Definition closed_printer : usb_printer_t := set_handle open_printer false.

Definition usblp_bound : open_answers :=
  {| libusb_open_rc := 0; get_configuration_rc := 1;
     current_configuration := 0; bConfigurationValue := 1;
     set_configuration_rc := 0; kernel_driver_active_rc := 1;
     detach_kernel_driver_rc := 0; bInterfaceNumber := 1;
     bAlternateSetting := 0; num_altsetting := 2;
     claim_interface_rc := 0; set_interface_alt_setting_rc := 0 |}.

End UsbExt.

Module UsbUri.
Import Stdlib.Strings.Ascii stdpp.strings.

(** *** Matching the queue's URI against a detected printer ([print_cb]) *)

(** A C string is the list of its characters before the terminator. *)
Definition lit (s : string) : list ascii := String.list_ascii_of_string s.

(** [strncmp(hay, needle, strlen(needle)) == 0] *)
Fixpoint starts_with (needle hay : list ascii) : bool :=
  match needle, hay with
  | [], _ => true
  | c :: needle', d :: hay' => Ascii.eqb c d && starts_with needle' hay'
  | _ :: _, [] => false
  end.

(** [strstr(hay, needle)]: the offset of the first occurrence, [None] for
    NULL. *)
Fixpoint strstr (hay needle : list ascii) : option nat :=
  if starts_with needle hay then Some 0%nat
  else match hay with
       | [] => None
       | _ :: hay' => option_map S (strstr hay' needle)
       end.

(** [strlcpy(dst, src, size)]: at most [size - 1] characters are copied. *)
Definition strlcpy (src : list ascii) (size : nat) : list ascii :=
  take (size - 1) src.

(** [!strcmp(a, b)] *)
Definition same_string (a b : list ascii) : Z :=
  if bool_decide (a = b) then 1%Z else 0%Z.

(** The search for "?interface=" and then for "&interface=". *)
Definition find_interface (uri : list ascii) : option nat :=
  match strstr uri (lit "?interface=") with
  | Some p => Some p
  | None => strstr uri (lit "&interface=")
  end.

(** [print_cb(printer, device_uri, device_id, data)]; writing a NUL at a
    pointer cuts the string there. *)
Definition print_cb (device_uri data : list ascii) : Z :=
  if bool_decide (data = device_uri) then 1%Z
  else
    let requested_uri := strlcpy data 1024 in
    let detected_uri := strlcpy device_uri 1024 in
    let requested_ptr := find_interface requested_uri in
    let detected_ptr := find_interface detected_uri in
    let '(requested_uri, detected_uri) :=
      match requested_ptr, detected_ptr with
      | None, Some d => (requested_uri, take d detected_uri)
      | Some r, None => (take r requested_uri, detected_uri)
      | _, _ => (requested_uri, detected_uri)
      end in
    let requested_uri :=
      match strstr requested_uri (lit "?serial=?") with
      | Some r => take r requested_uri
      | None => requested_uri
      end in
    match strstr requested_uri (lit "?serial=") with
    | None =>
        match strstr detected_uri (lit "?serial=") with
        | Some d => same_string requested_uri (take d detected_uri)
        | None => same_string requested_uri detected_uri
        end
    | Some r =>
        (* [detected_ptr] is still what the search for the interface
           specification left in it *)
        match detected_ptr with
        | None => same_string (take r requested_uri) detected_uri
        | Some _ => same_string requested_uri detected_uri
        end
    end.

Definition has_char (c : ascii) (s : list ascii) : bool :=
  existsb (Ascii.eqb c) s.

(** A URI part without any of the characters that start an option. *)
Definition plain (s : list ascii) : bool :=
  negb (has_char "?" s) && negb (has_char "&" s).

(** Reference values: the URI of a queue without options, a serial number
    and an interface number. *)
Definition queue_base : list ascii := lit "usb://HP/LaserJet%201020".

Definition serial_abc : list ascii := lit "ABC123".

Definition serial_xyz : list ascii := lit "XYZ789".

Definition interface_1 : list ascii := lit "1".

End UsbUri.

(** ** Part II: properties *)

Module SchedProps.
Import Sched.

(** *** Signal hold / release *)

Lemma holdcount_HoldSignals s : holdcount (HoldSignals s) = holdcount s + 1.
Proof. unfold HoldSignals. destruct (_ >? _); reflexivity. Qed.

Lemma holdcount_ReleaseSignals s :
  holdcount (ReleaseSignals s) = holdcount s - 1.
Proof. unfold ReleaseSignals. destruct (_ >? _); reflexivity. Qed.

Lemma sig_trace_nonneg calls : forall s,
  0 <= holdcount s ->
  well_nested (holdcount s) calls = true ->
  Forall (fun s' => 0 <= holdcount s') (sig_trace s calls).
Proof.
  induction calls as [|c rest IH]; intros s Hs Hw; simpl.
  - constructor.
  - destruct c; simpl in *.
    + constructor.
      * rewrite holdcount_HoldSignals. lia.
      * apply IH; rewrite holdcount_HoldSignals; [lia | exact Hw].
    + apply andb_prop in Hw as [Hd Hw]. apply Z.leb_le in Hd.
      constructor.
      * rewrite holdcount_ReleaseSignals. lia.
      * apply IH; rewrite holdcount_ReleaseSignals; [lia | exact Hw].
Qed.

Lemma sig_trace_nonneg_inv calls : forall s,
  Forall (fun s' => 0 <= holdcount s') (sig_trace s calls) ->
  well_nested (holdcount s) calls = true.
Proof.
  induction calls as [|c rest IH]; intros s Hall; simpl; [reflexivity|].
  simpl in Hall. inversion Hall as [|? ? Hhd Htl]; subst.
  destruct c; simpl in *.
  - rewrite <- holdcount_HoldSignals. apply IH. exact Htl.
  - rewrite holdcount_ReleaseSignals in Hhd.
    apply andb_true_intro. split; [apply Z.leb_le; lia|].
    rewrite <- holdcount_ReleaseSignals. apply IH. exact Htl.
Qed.

(** C9, as stated, fails: a [ReleaseSignals] that no [HoldSignals] precedes
    takes the count to -1, so it is not true that the count stays
    non-negative after every sequence of calls. *)
Lemma holdcount_negative_after_release :
  holdcount (ReleaseSignals sig_init) = -1 /\
  ~ (forall calls,
       Forall (fun s => 0 <= holdcount s) (sig_trace sig_init calls)).
Proof.
  split; [reflexivity|].
  intros Hall. specialize (Hall [Release]). simpl in Hall.
  inversion Hall as [|? ? Hhd _]; subst.
  rewrite holdcount_ReleaseSignals in Hhd. simpl in Hhd. lia.
Qed.

(** C9 (amended): for every sequence of HoldSignals and ReleaseSignals
    calls in which each release is preceded by a hold it matches (no prefix
    holds more releases than holds), the nesting count is greater than or
    equal to 0 after every call. *)
Theorem holdcount_nonneg_when_nested (calls : list sigcall) :
  well_nested 0 calls = true ->
  Forall (fun s => 0 <= holdcount s) (sig_trace sig_init calls).
Proof.
  intros Hw. apply sig_trace_nonneg; simpl; [lia | exact Hw].
Qed.

Lemma holdcount_nonneg_when_nested_witness :
  well_nested 0 [Hold; Hold; Release; Hold; Release; Release] = true /\
  Forall (fun s => 0 <= holdcount s)
         (sig_trace sig_init [Hold; Hold; Release; Hold; Release; Release]).
Proof.
  split; [reflexivity|].
  apply (holdcount_nonneg_when_nested
           [Hold; Hold; Release; Hold; Release; Release]).
  reflexivity.
Defined.

(** The condition of the amended C9 is also necessary. *)
Lemma holdcount_nonneg_only_when_nested (calls : list sigcall) :
  Forall (fun s => 0 <= holdcount s) (sig_trace sig_init calls) ->
  well_nested 0 calls = true.
Proof. intros Hall. apply (sig_trace_nonneg_inv calls sig_init Hall). Qed.

(** *** Child reaper *)

Lemma pipeline_lookup_nonzero ps : forall k p,
  pipeline ps !! k = Some p -> p <> 0 /\ ps !! k = Some p.
Proof.
  induction ps as [|q rest IH]; intros k p Hk; simpl in Hk; [discriminate|].
  destruct (q =? 0) eqn:Hq; [discriminate|]. apply Z.eqb_neq in Hq.
  destruct k as [|k]; simpl in *.
  - injection Hk as <-. split; [exact Hq | reflexivity].
  - apply IH. exact Hk.
Qed.

Lemma find_proc_first ps pid : forall k i0,
  pipeline ps !! k = Some pid ->
  (forall j, (j < k)%nat -> pipeline ps !! j <> Some pid) ->
  find_proc pid ps i0 = (i0 + k)%nat.
Proof.
  induction ps as [|q rest IH]; intros k i0 Hk Hfirst; simpl in *;
    [discriminate|].
  destruct (q =? 0) eqn:Hq; [discriminate|].
  destruct k as [|k]; simpl in *.
  - injection Hk as ->. rewrite Z.eqb_refl. lia.
  - destruct (q =? pid) eqn:Hqp.
    + apply Z.eqb_eq in Hqp. subst q.
      exfalso. apply (Hfirst 0%nat); [lia | reflexivity].
    + rewrite (IH k (S i0) Hk); [lia|].
      intros j Hj. apply (Hfirst (S j)). lia.
Qed.

Lemma find_proc_absent ps pid : forall i0,
  ~ In pid (pipeline ps) ->
  proc_at ps (find_proc pid ps i0 - i0) = 0.
Proof.
  induction ps as [|q rest IH]; intros i0 Hnot; simpl in *.
  - rewrite Nat.sub_diag. reflexivity.
  - destruct (q =? 0) eqn:Hq.
    + rewrite Nat.sub_diag. apply Z.eqb_eq in Hq. subst q. reflexivity.
    + destruct (q =? pid) eqn:Hqp.
      * apply Z.eqb_eq in Hqp. exfalso. apply Hnot. left. exact Hqp.
      * assert (Hge : forall l i, (i <= find_proc pid l i)%nat).
        { clear. induction l as [|a l IHl]; intros i; simpl; [lia|].
          destruct (a =? 0); [lia|]. destruct (a =? pid); [lia|].
          specialize (IHl (S i)). lia. }
        specialize (IH (S i0)). specialize (Hge rest (S i0)).
        replace (find_proc pid rest (S i0) - i0)%nat
          with (S (find_proc pid rest (S i0) - S i0)) by lia.
        unfold proc_at in *. simpl. apply IH.
        intros Hin. apply Hnot. right. exact Hin.
Qed.

Lemma proc_at_after_pipeline ps : forall k p,
  pipeline ps !! k = Some p ->
  (proc_at ps (S k) =? 0) = (length (pipeline ps) =? S k)%nat.
Proof.
  induction ps as [|q rest IH]; intros k p Hk; simpl in Hk; [discriminate|].
  destruct (q =? 0) eqn:Hq; [discriminate|].
  simpl. rewrite Hq. simpl length.
  destruct k as [|k]; simpl in Hk.
  - unfold proc_at. simpl. destruct rest as [|r rest']; simpl; [reflexivity|].
    destruct (r =? 0); reflexivity.
  - unfold proc_at in *. simpl. rewrite (IH k p Hk). reflexivity.
Qed.

Section ReaperProps.
Context `{Headers}.

Lemma reap_in_job_absent pid st job :
  ~ In pid (pipeline (procs job)) -> reap_in_job pid st job = None.
Proof.
  intros Hnot. unfold reap_in_job.
  pose proof (find_proc_absent (procs job) pid 0 Hnot) as Hz.
  rewrite Nat.sub_0_r in Hz. rewrite Hz. reflexivity.
Qed.

Lemma reap_in_job_slot pid st job i :
  pipeline (procs job) !! i = Some pid ->
  (forall j, (j < i)%nat -> pipeline (procs job) !! j <> Some pid) ->
  exists job' note,
    reap_in_job pid st job = Some (job', note) /\
    state job' = state job /\ printer job' = printer job /\
    procs job' = <[i := - pid]> (procs job) /\
    status job' =
      (if truthy st && (status job >=? 0)
       then if (length (pipeline (procs job)) =? S i)%nat then - st else st
       else status job).
Proof.
  intros Hi Hfirst. unfold reap_in_job.
  rewrite (find_proc_first _ _ i 0%nat Hi Hfirst). simpl Nat.add.
  destruct (pipeline_lookup_nonzero _ _ _ Hi) as [Hpid Hraw].
  unfold proc_at at 1. rewrite Hraw. simpl.
  unfold truthy at 1. apply Z.eqb_neq in Hpid. rewrite Hpid. simpl.
  assert (Hnext : proc_at (<[i := - pid]> (procs job)) (S i)
                  = proc_at (procs job) (S i)).
  { unfold proc_at. rewrite list_lookup_insert_ne by lia. reflexivity. }
  rewrite Hnext.
  destruct (truthy st && (status job >=? 0)) eqn:Hguard.
  - eexists _, _. split; [reflexivity|]. simpl.
    repeat split; try reflexivity.
    unfold truthy. rewrite negb_involutive.
    rewrite (proc_at_after_pipeline _ _ _ Hi). reflexivity.
  - eexists _, _. split; [reflexivity|]. simpl. repeat split; reflexivity.
Qed.

Lemma reap_in_jobs_first pid st pre job post job' note :
  Forall (fun j => is_processing j = true ->
                   ~ In pid (pipeline (procs j))) pre ->
  is_processing job = true ->
  reap_in_job pid st job = Some (job', note) ->
  fst (reap_in_jobs pid st (pre ++ job :: post)) = pre ++ job' :: post.
Proof.
  intros Hpre Hproc Hjob.
  induction pre as [|j pre IH]; simpl.
  - rewrite Hproc, Hjob. reflexivity.
  - inversion Hpre as [|? ? Hj Hrest]; subst.
    specialize (IH Hrest).
    destruct (reap_in_jobs pid st (pre ++ job :: post)) as [rest' n] eqn:Hr.
    simpl in IH. subst rest'.
    destruct (is_processing j) eqn:Hpj; [|reflexivity].
    rewrite (reap_in_job_absent pid st j (Hj eq_refl)). reflexivity.
Qed.

End ReaperProps.

Section ReaperClaims.
Context `{Headers}.

Lemma Jobs_reap_child g pid st :
  Jobs (reap_child g pid st)
  = fst (reap_in_jobs pid (adjust_status st) (Jobs g)).
Proof.
  unfold reap_child.
  destruct (reap_in_jobs pid (adjust_status st) (Jobs g)) as [js n].
  reflexivity.
Qed.

(** C4 (amended): for every child reaped with a status that is neither 0
    nor SIGTERM and whose pid occupies slot [i] of the pipeline of the first
    Processing job holding it, the slot is replaced by -pid; if the job's
    disposition is not negative (unset, or an earlier filter failure) the
    reaper records -status when the slot is the last one of the pipeline
    and +status otherwise; if the disposition is negative (a backend
    failure is already recorded) it is left unchanged. *)
Theorem reaper_records_disposition g pid st pre job post i :
  Jobs g = pre ++ job :: post ->
  Forall (fun j => is_processing j = true ->
                   ~ In pid (pipeline (procs j))) pre ->
  is_processing job = true ->
  pipeline (procs job) !! i = Some pid ->
  (forall j, (j < i)%nat -> pipeline (procs job) !! j <> Some pid) ->
  st <> 0 -> st <> SIGTERM ->
  exists job',
    Jobs (reap_child g pid st) = pre ++ job' :: post /\
    procs job' = <[i := - pid]> (procs job) /\
    status job' =
      (if status job <? 0 then status job
       else if (length (pipeline (procs job)) =? S i)%nat then - st
            else st).
Proof.
  intros HJ Hpre Hproc Hi Hfirst Hst Hterm.
  assert (Hadj : adjust_status st = st).
  { unfold adjust_status. apply Z.eqb_neq in Hterm. rewrite Hterm.
    reflexivity. }
  destruct (reap_in_job_slot pid st job i Hi Hfirst)
    as (job' & note & Hjob & _ & _ & Hprocs & Hstatus).
  exists job'. rewrite Jobs_reap_child, Hadj, HJ.
  rewrite (reap_in_jobs_first pid st pre job post job' note Hpre Hproc Hjob).
  split; [reflexivity|]. split; [exact Hprocs|].
  rewrite Hstatus. unfold truthy.
  apply Z.eqb_neq in Hst. rewrite Hst. simpl.
  destruct (status job <? 0) eqn:Hneg.
  - apply Z.ltb_lt in Hneg.
    destruct (status job >=? 0) eqn:Hge; [|reflexivity].
    apply Z.geb_le in Hge. lia.
  - apply Z.ltb_ge in Hneg.
    destruct (status job >=? 0) eqn:Hge; [reflexivity|].
    rewrite Z.geb_leb in Hge. apply Z.leb_gt in Hge. lia.
Qed.

(** A child that ended on SIGTERM leaves the disposition as it was. *)
Lemma reaper_ignores_sigterm g pid pre job post i :
  Jobs g = pre ++ job :: post ->
  Forall (fun j => is_processing j = true ->
                   ~ In pid (pipeline (procs j))) pre ->
  is_processing job = true ->
  pipeline (procs job) !! i = Some pid ->
  (forall j, (j < i)%nat -> pipeline (procs job) !! j <> Some pid) ->
  exists job',
    Jobs (reap_child g pid SIGTERM) = pre ++ job' :: post /\
    status job' = status job.
Proof.
  intros HJ Hpre Hproc Hi Hfirst.
  assert (Hadj : adjust_status SIGTERM = 0).
  { unfold adjust_status. rewrite Z.eqb_refl. reflexivity. }
  destruct (reap_in_job_slot pid 0 job i Hi Hfirst)
    as (job' & note & Hjob & _ & _ & _ & Hstatus).
  exists job'. rewrite Jobs_reap_child, Hadj, HJ.
  rewrite (reap_in_jobs_first pid 0 pre job post job' note Hpre Hproc Hjob).
  split; [reflexivity | exact Hstatus].
Qed.

End ReaperClaims.

(** C4, as stated, fails: the disposition of the job is already set (768,
    from a failed filter) when the backend, pid 12 in the last slot, is
    reaped with wait status 512 (exit code 2); the reaper overwrites the
    disposition with -512 instead of leaving it unchanged. *)
Lemma reaper_overwrites_filter_failure :
  status job_after_filter_failure <> 0 /\
  Jobs (@reap_child posix_headers
          (set_jobs_printers quiet [job_after_filter_failure] [blank_printer])
          12 512)
  = [ {| state := Some 5; procs := [10; -11; -12; 0]; status := -512;
         printer := 0%nat |} ] /\
  -512 <> status job_after_filter_failure.
Proof. split; [discriminate|]. split; [reflexivity | discriminate]. Qed.

Lemma reaper_records_disposition_witness :
  exists job',
    Jobs (@reap_child posix_headers
            (set_jobs_printers quiet [job_after_filter_failure]
                               [blank_printer]) 12 512)
    = [] ++ job' :: [] /\
    procs job' = <[2%nat := - 12]> (procs job_after_filter_failure) /\
    status job' = -512.
Proof.
  apply (@reaper_records_disposition posix_headers
           (set_jobs_printers quiet [job_after_filter_failure]
                              [blank_printer])
           12 512 [] job_after_filter_failure [] 2%nat).
  - reflexivity.
  - constructor.
  - reflexivity.
  - reflexivity.
  - intros j Hj.
    destruct j as [|[|j]]; simpl; [discriminate | discriminate | lia].
  - discriminate.
  - discriminate.
Defined.

(** *** Reload gate *)

Lemma scan_jobs_total test jobs :
  Forall (fun job => state job <> None) jobs ->
  scan_jobs test jobs
  = Some (existsb (fun job => match state job with
                              | Some v => test v
                              | None => false
                              end) jobs).
Proof.
  induction 1 as [|job rest Hjob _ IH]; simpl; [reflexivity|].
  destruct (state job) as [v|]; [|congruence].
  destruct (test v); [reflexivity | exact IH].
Qed.

Section ReloadProps.
Context `{Headers}.

Lemma close_idle_clients_keeps g :
  Jobs (close_idle_clients g) = Jobs g /\
  NeedReload (close_idle_clients g) = NeedReload g /\
  ReloadTime (close_idle_clients g) = ReloadTime g /\
  ReloadTimeout (close_idle_clients g) = ReloadTimeout g.
Proof.
  unfold close_idle_clients. destruct (NumClients g >? 0); [|tauto].
  destruct (close_waiting (Clients g) (NumClients g)) as [kept n].
  simpl. tauto.
Qed.

(** C5 (amended): while the reload flag is set (and every job has a state),
    the scheduler, after closing the waiting clients, reloads the
    configuration exactly when either (no clients remain AND (no job is in
    the Processing state OR the pending reload is not of kind RELOAD_ALL))
    or at least ReloadTimeout seconds have elapsed since the flag was set;
    with clients remaining and the timeout not yet elapsed, no reload
    occurs. *)
Theorem reload_gate_decision g now :
  NeedReload g <> 0 ->
  jobs_have_state g ->
  let g1 := close_idle_clients g in
  let processing := existsb is_processing (Jobs g) in
  (reload_gate g now = ReadConfiguration g1 \/
   reload_gate g now = KeepWaiting g1) /\
  (reload_gate g now = ReadConfiguration g1 <->
   (NumClients g1 = 0 /\
    (processing = false \/ NeedReload g <> RELOAD_ALL)) \/
   ReloadTimeout g <= now - ReloadTime g) /\
  (NumClients g1 <> 0 -> now - ReloadTime g < ReloadTimeout g ->
   reload_gate g now = KeepWaiting g1).
Proof.
  intros Hneed Hstate g1 processing.
  destruct (close_idle_clients_keeps g) as (HJ & HN & HT & HTo).
  fold g1 in HJ, HN, HT, HTo.
  assert (Hgate : reload_gate g now
                  = if restart_test g1 processing now
                    then ReadConfiguration g1 else KeepWaiting g1).
  { unfold reload_gate, truthy. apply Z.eqb_neq in Hneed. rewrite Hneed.
    simpl. fold g1. rewrite HJ.
    rewrite (scan_jobs_total _ _ Hstate). reflexivity. }
  assert (Htest : restart_test g1 processing now = true <->
                  (NumClients g1 = 0 /\
                   (processing = false \/ NeedReload g <> RELOAD_ALL)) \/
                  ReloadTimeout g <= now - ReloadTime g).
  { unfold restart_test. rewrite HN, HT, HTo.
    rewrite orb_true_iff, andb_true_iff, orb_true_iff, !negb_true_iff.
    rewrite Z.eqb_eq, Z.eqb_neq, Z.geb_le. tauto. }
  rewrite Hgate.
  destruct (restart_test g1 processing now) eqn:Hr.
  - split; [left; reflexivity|]. split.
    + split; [intros _; apply Htest; reflexivity | reflexivity].
    + intros Hc Ht. apply proj1 in Htest. specialize (Htest eq_refl). lia.
  - split; [right; reflexivity|]. split.
    + split; [discriminate|]. intros Hc. apply Htest in Hc. discriminate.
    + reflexivity.
Qed.

End ReloadProps.

(** C5, as stated, fails: ten seconds after the flag was set, with no
    client left but a job still Processing, the condition of the claim is
    false, yet the configuration is reloaded, because the pending reload is
    not of kind RELOAD_ALL. *)
Lemma reload_despite_processing_job :
  truthy (NeedReload partial_reload_pending) = true /\
  existsb (@is_processing posix_headers) (Jobs partial_reload_pending)
  = true /\
  1010 - ReloadTime partial_reload_pending
  < ReloadTimeout partial_reload_pending /\
  spec_reload_condition partial_reload_pending true 1010 = false /\
  @reload_gate posix_headers partial_reload_pending 1010
  = ReadConfiguration partial_reload_pending.
Proof. repeat split. Qed.

Lemma reload_gate_decision_witness :
  @reload_gate posix_headers partial_reload_pending 1010
  = ReadConfiguration partial_reload_pending.
Proof.
  assert (Hneed : NeedReload partial_reload_pending <> 0) by discriminate.
  assert (Hstate : jobs_have_state partial_reload_pending).
  { repeat constructor. discriminate. }
  destruct (@reload_gate_decision posix_headers partial_reload_pending 1010
              Hneed Hstate) as (_ & Hiff & _).
  apply Hiff. left. split; [reflexivity|]. right. discriminate.
Defined.

(** *** Adaptive timeout *)

(** Lowering a deadline [t] by the candidates of a list. *)
Lemma fold_min_le t l : fold_right Z.min t l <= t.
Proof. induction l as [|a l IH]; simpl; lia. Qed.

Lemma fold_min_min a t l :
  fold_right Z.min (Z.min a t) l = Z.min a (fold_right Z.min t l).
Proof. induction l as [|b l IH]; simpl; [reflexivity|]. rewrite IH. lia. Qed.

Lemma fold_min_app t l1 l2 :
  fold_right Z.min t (l1 ++ l2)
  = fold_right Z.min (fold_right Z.min t l1) l2.
Proof.
  induction l1 as [|a l1 IH]; simpl; [reflexivity|].
  rewrite IH, fold_min_min. reflexivity.
Qed.

Lemma lower_if (c : bool) x t :
  (if c && (x <? t) then x else t)
  = fold_right Z.min t (if c then [x] else []).
Proof.
  destruct c; simpl; [|reflexivity].
  destruct (x <? t) eqn:Hlt;
    [apply Z.ltb_lt in Hlt | apply Z.ltb_ge in Hlt]; lia.
Qed.

Section SelectTimeoutProps.
Context `{Headers}.

Lemma client_deadlines_min cons tmo : forall t,
  client_deadlines cons tmo t
  = fold_right Z.min t (map (fun con => http_activity con + tmo) cons).
Proof.
  induction cons as [|con rest IH]; intros t; simpl; [reflexivity|].
  destruct (http_activity con + tmo <? t) eqn:Hlt; rewrite IH.
  - apply Z.ltb_lt in Hlt. rewrite <- fold_min_min. f_equal. lia.
  - apply Z.ltb_ge in Hlt. rewrite <- fold_min_min. f_equal. lia.
Qed.

Lemma printer_deadlines_min g ps : forall t,
  printer_deadlines g ps t
  = fold_right Z.min t (concat (map (printer_event g) ps)).
Proof.
  induction ps as [|p rest IH]; intros t; simpl; [reflexivity|].
  rewrite IH, fold_min_app. f_equal.
  unfold printer_event.
  destruct (truthy (Z.land (p_type p) CUPS_PRINTER_REMOTE)).
  - apply lower_if.
  - destruct (truthy (Z.land (p_type p) CUPS_PRINTER_IMPLICIT)); simpl.
    + reflexivity.
    + apply lower_if.
Qed.

Lemma job_deadline_min g now t :
  jobs_have_state g ->
  job_deadline g now t
  = Some (fold_right Z.min t
            (if existsb job_active (Jobs g) then [now + 10] else [])).
Proof.
  intros Hstate. unfold job_deadline.
  rewrite (scan_jobs_total _ _ Hstate).
  fold job_active.
  change (existsb _ (Jobs g)) with (existsb job_active (Jobs g)).
  destruct (t >? now + 10) eqn:Hgt.
  - destruct (existsb job_active (Jobs g)); simpl; [|reflexivity].
    f_equal. rewrite Z.gtb_ltb in Hgt. apply Z.ltb_lt in Hgt. lia.
  - rewrite Z.gtb_ltb in Hgt. apply Z.ltb_ge in Hgt.
    destruct (existsb job_active (Jobs g)); simpl; [|reflexivity].
    f_equal. lia.
Qed.

(** The absolute deadline [select_timeout] arrives at is the earliest
    scheduled event. *)
Lemma deadline_is_earliest g now :
  jobs_have_state g ->
  option_map (rootcert_deadline g)
    (option_map (mallinfo_deadline g)
       (job_deadline g now
          (browse_deadlines g
             (client_deadlines (Clients g) (Timeout g) (now + 86400)))))
  = Some (earliest_event g now).
Proof.
  intros Hstate. rewrite (job_deadline_min g now _ Hstate). simpl.
  f_equal. unfold earliest_event, scheduled_events.
  rewrite !fold_min_app.
  unfold rootcert_deadline. rewrite lower_if. f_equal.
  unfold mallinfo_deadline. rewrite lower_if. f_equal. f_equal.
  rewrite client_deadlines_min.
  unfold browse_deadlines.
  destruct (truthy (Browsing g) &&
            (truthy (BrowseLocalProtocols g)
             || truthy (BrowseRemoteProtocols g))); [|reflexivity].
  rewrite fold_min_app.
  rewrite !lower_if.
  destruct (truthy (Z.land (Z.lor (BrowseLocalProtocols g)
                                  (BrowseRemoteProtocols g)) BROWSE_CUPS)).
  - rewrite printer_deadlines_min. reflexivity.
  - reflexivity.
Qed.

Lemma clamp_timeout_spec t now :
  clamp_timeout t now = Z.max 1 (Z.min 86400 (t - now + 1)).
Proof.
  unfold clamp_timeout.
  destruct (t - now + 1 <? 1) eqn:H1;
    [apply Z.ltb_lt in H1 | apply Z.ltb_ge in H1]; [lia|].
  destruct (t - now + 1 >? 86400) eqn:H2; rewrite Z.gtb_ltb in H2;
    [apply Z.ltb_lt in H2 | apply Z.ltb_ge in H2]; lia.
Qed.

Lemma earliest_event_le g now : earliest_event g now <= now + 86400.
Proof. apply fold_min_le. Qed.

(** C1 (amended): for every call to select_timeout (every job having a
    state), whatever the client list, job list, printer list and timer
    state are, the returned value is between 0 and 86400 seconds; it is 0
    exactly when some client has buffered unread data and at least 1
    otherwise; it is at most max(1, earliest scheduled event time - now +
    1); and when no client has buffered data, the previous select returned
    no ready descriptor, at most 50 clients are connected and no
    notification is pending, it equals
    max(1, min(86400, earliest scheduled event time - now + 1)). *)
Theorem select_timeout_range g fds now :
  jobs_have_state g ->
  exists t,
    select_timeout g fds now = Some t /\
    0 <= t <= 86400 /\
    (t = 0 <-> pending_data (Clients g) = true) /\
    t <= Z.max 1 (earliest_event g now - now + 1) /\
    (pending_data (Clients g) = false -> fds = 0 -> NumClients g <= 50 ->
     HAVE_NOTIFY_POST && truthy (NotifyPost g) = false ->
     t = Z.max 1 (Z.min 86400 (earliest_event g now - now + 1))).
Proof.
  intros Hstate. unfold select_timeout.
  destruct (pending_data (Clients g)) eqn:Hpend.
  { exists 0. repeat split; try lia; discriminate. }
  destruct (truthy fds || (NumClients g >? 50)) eqn:Hbusy.
  { exists 1. repeat split; try lia; try discriminate.
    intros _ Hfds Hnum _. exfalso.
    apply orb_prop in Hbusy as [Hb|Hb].
    - subst fds. discriminate.
    - rewrite Z.gtb_ltb in Hb. apply Z.ltb_lt in Hb. lia. }
  destruct (HAVE_NOTIFY_POST && truthy (NotifyPost g)) eqn:Hnote.
  { exists 1. repeat split; try lia; discriminate. }
  pose proof (deadline_is_earliest g now Hstate) as Hd.
  destruct (job_deadline g now _) as [t|]; simpl in Hd; [|discriminate].
  injection Hd as Hd. rewrite Hd.
  pose proof (earliest_event_le g now) as Hle.
  exists (clamp_timeout (earliest_event g now) now).
  rewrite clamp_timeout_spec.
  repeat split; try lia; try discriminate.
Qed.

End SelectTimeoutProps.

(** C1, as stated, fails twice: with unread client data the function
    returns 0, which is below 1; and with an event that is overdue (here by
    700 seconds) the returned 1 exceeds (event time - now + 1). *)
Lemma select_timeout_below_one :
  @select_timeout posix_headers client_with_pending_data 0 1000 = Some 0 /\
  ~ (1 <= 0) /\
  @select_timeout posix_headers overdue_certificate 0 1000 = Some 1 /\
  @earliest_event posix_headers overdue_certificate 1000 = 300 /\
  ~ (1 <= 300 - 1000 + 1).
Proof. repeat split; lia. Qed.

Lemma select_timeout_range_witness :
  jobs_have_state overdue_certificate /\
  exists t,
    @select_timeout posix_headers overdue_certificate 0 1000 = Some t /\
    0 <= t <= 86400.
Proof.
  assert (Hstate : jobs_have_state overdue_certificate) by constructor.
  split; [exact Hstate|].
  destruct (@select_timeout_range posix_headers overdue_certificate 0 1000
              Hstate) as (t & Ht & Hrange & _).
  exists t. split; [exact Ht | exact Hrange].
Defined.

End SchedProps.

Module UsbProps.
Import Usb.

(** *** IEEE-1284 device ID *)

(** The two-byte prefix read with the bit operations of the code is the
    base-256 number of its two bytes. *)
Lemma prefix_value a b :
  Z.lor (Z.shiftl (Z.land a 255) 8) (Z.land b 255)
  = 256 * (a mod 256) + b mod 256.
Proof.
  change 255 with (Z.ones 8). rewrite !Z.land_ones by lia.
  rewrite Z.shiftl_mul_pow2 by lia.
  assert (Hdisj : Z.land (a mod 2 ^ 8 * 2 ^ 8) (b mod 2 ^ 8) = 0).
  { apply Z.bits_inj'. intros n Hn. rewrite Z.land_spec, Z.bits_0.
    destruct (Z.lt_ge_cases n 8) as [Hlt|Hge].
    - rewrite Z.mul_pow2_bits_low by lia. reflexivity.
    - rewrite (Z.mod_pow2_bits_high b 8 n) by lia. apply andb_false_r. }
  rewrite <- Z.lxor_lor by exact Hdisj.
  rewrite <- Z.add_nocarry_lxor by exact Hdisj.
  change (2 ^ 8) with 256. lia.
Qed.

Lemma c_string_app_nul l r :
  c_string (l ++ 0 :: r) = c_string l.
Proof.
  induction l as [|c l IH]; simpl; [reflexivity|].
  destruct (c =? 0); [reflexivity|]. rewrite IH. reflexivity.
Qed.

Lemma c_string_nonzero l :
  Forall (fun c => c <> 0) l -> c_string l = l.
Proof.
  induction 1 as [|c l Hc _ IH]; simpl; [reflexivity|].
  apply Z.eqb_neq in Hc. rewrite Hc, IH. reflexivity.
Qed.

Lemma c_string_cleared buffer : c_string (<[0%nat := 0]> buffer) = [].
Proof. destruct buffer; reflexivity. Qed.

(** The buffer after the [memmove] and the terminator: the payload, a NUL,
    and the old bytes behind it. *)
Lemma device_id_layout (buffer : list Z) (n : nat) :
  (n + 2 <= length buffer)%nat ->
  <[n := 0]> (memmove_2 buffer n)
  = take n (drop 2 buffer) ++ 0 :: drop (S n) buffer.
Proof.
  intros Hn. unfold memmove_2.
  assert (Hlen : length (take n (drop 2 buffer)) = n).
  { rewrite length_take, length_drop. lia. }
  rewrite insert_app_r_alt by lia. rewrite Hlen, Nat.sub_diag.
  f_equal.
  destruct (drop n buffer) as [|c rest] eqn:Hd.
  - apply (f_equal length) in Hd. rewrite length_drop in Hd. simpl in Hd. lia.
  - simpl. f_equal.
    replace (S n) with (n + 1)%nat by lia.
    rewrite <- drop_drop, Hd. reflexivity.
Qed.

(** The code, with its bit operations and its three assignments to
    [length], computes [decoded_length]. *)
Lemma get_device_id_unfold rc buffer bufsize :
  get_device_id rc buffer bufsize
  = if rc <? 0 then (-1, <[0%nat := 0]> buffer)
    else if decoded_length buffer bufsize <? 14
         then (-1, <[0%nat := 0]> buffer)
         else (0, <[Z.to_nat (decoded_length buffer bufsize - 2) := 0]>
                    (memmove_2 buffer
                       (Z.to_nat (decoded_length buffer bufsize - 2)))).
Proof.
  unfold get_device_id, decoded_length, big_endian, little_endian.
  rewrite !prefix_value.
  destruct (rc <? 0); [reflexivity|].
  set (be := 256 * (char_at buffer 0 mod 256) + char_at buffer 1 mod 256).
  set (le := 256 * (char_at buffer 1 mod 256) + char_at buffer 0 mod 256).
  rewrite (Z.gtb_ltb be bufsize).
  set (len := if (bufsize <? be) || (be <? 14) then le else be).
  rewrite (Z.gtb_ltb len bufsize).
  destruct (bufsize <? len) eqn:Hc;
    [apply Z.ltb_lt in Hc; rewrite (Z.min_r len bufsize) by lia
    |apply Z.ltb_ge in Hc; rewrite (Z.min_l len bufsize) by lia];
    reflexivity.
Qed.

(** C6: for every buffer returned by a successful device-ID control
    transfer, get_device_id decodes the first two bytes as a big-endian
    length; if that length exceeds the buffer size or is less than 14 it
    re-decodes the same two bytes as little-endian; the result is clamped to
    the buffer size ([decoded_length]); if the final length is still less
    than 14 the function stores an empty string and reports failure (-1);
    otherwise it removes the two length bytes, keeps the length-2 payload
    bytes, NUL-terminates them, and reports success (0). *)
Theorem get_device_id_decodes rc (buffer : list Z) bufsize :
  0 <= rc ->
  Z.of_nat (length buffer) = bufsize ->
  let len := decoded_length buffer bufsize in
  let payload := take (Z.to_nat (len - 2)) (drop 2 buffer) in
  (len < 14 ->
   get_device_id rc buffer bufsize = (-1, <[0%nat := 0]> buffer) /\
   c_string (snd (get_device_id rc buffer bufsize)) = []) /\
  (14 <= len ->
   exists out,
     get_device_id rc buffer bufsize = (0, out) /\
     length out = length buffer /\
     length payload = Z.to_nat (len - 2) /\
     take (Z.to_nat (len - 2)) out = payload /\
     out !! Z.to_nat (len - 2) = Some 0 /\
     c_string out = c_string payload).
Proof.
  intros Hrc Hsize len payload.
  rewrite get_device_id_unfold. fold len.
  assert (Hnofail : (rc <? 0) = false) by (apply Z.ltb_ge; lia).
  rewrite Hnofail.
  assert (Hclamp : len <= bufsize) by (apply Z.le_min_r).
  split.
  - intros Hshort. apply Z.ltb_lt in Hshort. rewrite Hshort. simpl.
    split; [reflexivity | apply c_string_cleared].
  - intros Hlong. apply Z.ltb_ge in Hlong. rewrite Hlong.
    rewrite device_id_layout by lia.
    assert (Hpay : length payload = Z.to_nat (len - 2)).
    { unfold payload. rewrite length_take, length_drop. lia. }
    fold payload.
    eexists. split; [reflexivity|].
    split.
    { rewrite length_app, Hpay. simpl. rewrite length_drop. lia. }
    split; [exact Hpay|].
    split.
    { rewrite <- Hpay. apply take_app_length. }
    split.
    { rewrite <- Hpay. apply list_lookup_middle. reflexivity. }
    apply c_string_app_nul.
Qed.

Lemma get_device_id_decodes_witness :
  let buffer := [0; 14; 77; 70; 71; 58; 120; 59; 77; 68; 76; 58; 121; 59;
                 7; 7] in
  exists out,
    get_device_id 14 buffer 16 = (0, out) /\
    c_string out = [77; 70; 71; 58; 120; 59; 77; 68; 76; 58; 121; 59].
Proof.
  intros buffer.
  destruct (get_device_id_decodes 14 buffer 16) as [_ Hok].
  - lia.
  - reflexivity.
  - destruct Hok as (out & Hout & _ & _ & _ & _ & Hstr).
    + vm_compute. discriminate.
    + exists out. split; [exact Hout | exact Hstr].
Defined.

(** *** Round trip of the length prefix *)

Lemma build_device_id_length order P fill bufsize :
  let n := Z.of_nat (length P) + 2 in
  14 <= n -> n <= bufsize -> n < 65536 ->
  (order = LsbFirst ->
   let swapped := big_endian (n mod 256) (n / 256) in
   bufsize < swapped \/ swapped < 14 \/ swapped = n) ->
  decoded_length (build_device_id order P fill) bufsize = n.
Proof.
  intros n Hmin Hmax H16 Hswap.
  assert (Hhi : Z.land (Z.shiftr n 8) 255 = n / 256).
  { change 255 with (Z.ones 8).
    rewrite Z.land_ones, Z.shiftr_div_pow2 by lia.
    change (2 ^ 8) with 256. apply Z.mod_small.
    split; [apply Z.div_pos; lia | apply Z.div_lt_upper_bound; lia]. }
  assert (Hlo : Z.land n 255 = n mod 256)
    by (change 255 with (Z.ones 8); rewrite Z.land_ones by lia; reflexivity).
  assert (Hhi_small : (n / 256) mod 256 = n / 256).
  { apply Z.mod_small. split; [apply Z.div_pos; lia|].
    apply Z.div_lt_upper_bound; lia. }
  assert (Hlo_small : (n mod 256) mod 256 = n mod 256)
    by (apply Z.mod_mod; lia).
  assert (Hn : 256 * (n / 256) + n mod 256 = n)
    by (symmetry; apply Z.div_mod; lia).
  unfold decoded_length, build_device_id. fold n. rewrite Hhi, Hlo.
  destruct order; unfold char_at; simpl;
    unfold big_endian, little_endian; rewrite Hhi_small, Hlo_small.
  - rewrite Hn.
    replace (bufsize <? n) with false by (symmetry; apply Z.ltb_ge; lia).
    replace (n <? 14) with false by (symmetry; apply Z.ltb_ge; lia).
    simpl. lia.
  - specialize (Hswap eq_refl). simpl in Hswap.
    unfold big_endian in Hswap. rewrite Hhi_small, Hlo_small in Hswap.
    set (swapped := 256 * (n mod 256) + n / 256) in *.
    destruct ((bufsize <? swapped) || (swapped <? 14)) eqn:Hc.
    + rewrite Hn. lia.
    + apply orb_false_elim in Hc as [Hc1 Hc2].
      apply Z.ltb_ge in Hc1. apply Z.ltb_ge in Hc2. lia.
Qed.

(** C7 (amended): for every payload P of at least 12 bytes with |P|+2 not
    exceeding the buffer size (nor 65535), decoding a wire buffer built from
    P with a two-byte length prefix leaves exactly P in front of the
    terminator when the prefix was encoded big-endian; when it was encoded
    little-endian the same holds provided the prefix, read big-endian, is
    larger than the buffer, smaller than 14, or the same number.  A payload
    without NUL bytes is then recovered exactly as a C string. *)
Theorem device_id_round_trip order (P fill : list Z) bufsize rc :
  let n := Z.of_nat (length P) + 2 in
  0 <= rc ->
  14 <= n -> n <= bufsize -> n < 65536 ->
  (order = LsbFirst ->
   let swapped := big_endian (n mod 256) (n / 256) in
   bufsize < swapped \/ swapped < 14 \/ swapped = n) ->
  get_device_id rc (build_device_id order P fill) bufsize
  = (0, P ++ 0 :: drop (S (length P)) (build_device_id order P fill)) /\
  (Forall (fun c => c <> 0) P ->
   parse_device_id (build_device_id order P fill) bufsize = Some P).
Proof.
  intros n Hrc Hmin Hmax H16 Hswap.
  pose proof (build_device_id_length order P fill bufsize Hmin Hmax H16 Hswap)
    as Hlen. fold n in Hlen.
  assert (Hgen : forall rc', 0 <= rc' ->
            get_device_id rc' (build_device_id order P fill) bufsize
            = (0, P ++ 0 :: drop (S (length P))
                               (build_device_id order P fill))).
  { intros rc' Hrc'. rewrite get_device_id_unfold, Hlen.
    replace (rc' <? 0) with false by (symmetry; apply Z.ltb_ge; lia).
    replace (n <? 14) with false by (symmetry; apply Z.ltb_ge; lia).
    replace (Z.to_nat (n - 2)) with (length P) by lia.
    rewrite device_id_layout.
    - f_equal. f_equal.
      destruct order; simpl; apply take_app_length.
    - destruct order; simpl; rewrite length_app; lia. }
  split; [apply Hgen; exact Hrc|].
  intros Hnul. unfold parse_device_id. rewrite Hgen by lia. simpl.
  rewrite c_string_app_nul, (c_string_nonzero P Hnul). reflexivity.
Qed.

(** C7, as stated, fails: a payload of 511 bytes in a 1024-byte buffer has
    the prefix 513 = 0x0201; sent least significant byte first it reads 258
    as a big-endian number, which is in range, so the decoder keeps only 256
    bytes of the payload. *)
Lemma little_endian_prefix_misread :
  Z.of_nat (length (replicate 511 65)) + 2 <= 1024 /\
  parse_device_id
    (build_device_id LsbFirst (replicate 511 65) (replicate 511 0)) 1024
  = Some (replicate 256 65) /\
  Some (replicate 256 65) <> Some (replicate 511 65).
Proof.
  split; [vm_compute; discriminate|].
  split; [vm_compute; reflexivity|].
  intros Heq. injection Heq as Heq.
  apply (f_equal length) in Heq. vm_compute in Heq. discriminate.
Qed.

(** A payload below 12 bytes is not recovered either. *)
Lemma short_payload_rejected :
  parse_device_id (build_device_id MsbFirst [77; 70; 71; 58; 120; 59] []) 8
  = None.
Proof. reflexivity. Qed.

Lemma device_id_round_trip_witness :
  let P := [77; 70; 71; 58; 120; 59; 77; 68; 76; 58; 121; 59] in
  parse_device_id (build_device_id LsbFirst P [7; 7]) 16 = Some P.
Proof.
  intros P.
  apply (device_id_round_trip LsbFirst P [7; 7] 16 0).
  - lia.
  - vm_compute. discriminate.
  - vm_compute. discriminate.
  - reflexivity.
  - intros _. left. reflexivity.
  - repeat constructor; discriminate.
Defined.

(** *** Side-channel responder *)

Section SideChannelProps.
Context `{Headers}.

(** When the fetch succeeds the reply carries status OK and the device-ID
    string. *)
Lemma device_id_reply_on_success g status rc buffer data :
  get_device_id rc buffer 2048 = (0, data) ->
  res_replies (sidechannel_command g CUPS_SC_CMD_GET_DEVICE_ID status
                 rc buffer)
  = [ {| r_command := CUPS_SC_CMD_GET_DEVICE_ID;
         r_status := CUPS_SC_STATUS_OK;
         r_data := take (length (c_string data)) data |} ].
Proof.
  intros Hget. unfold sidechannel_command. rewrite Hget. simpl.
  unfold strlen. rewrite Nat2Z.id. reflexivity.
Qed.

(** When the fetch fails the local [status] becomes IO_ERROR, but the reply
    is written with status OK and no data. *)
Lemma device_id_reply_on_failure g status rc buffer data :
  get_device_id rc buffer 2048 = (-1, data) ->
  sidechannel_command g CUPS_SC_CMD_GET_DEVICE_ID status rc buffer
  = {| res_globals := g;
       res_replies := [ {| r_command := CUPS_SC_CMD_GET_DEVICE_ID;
                           r_status := CUPS_SC_STATUS_OK;
                           r_data := [] |} ];
       res_resets := 0;
       res_status := CUPS_SC_STATUS_IO_ERROR |}.
Proof.
  intros Hget. unfold sidechannel_command. rewrite Hget. reflexivity.
Qed.

End SideChannelProps.

(** C2 (the code departs from it): a GET_DEVICE_ID command whose control
    transfer fails with -1 is answered with status OK and zero data bytes;
    IO_ERROR only reaches the local variable [status]. *)
Theorem device_id_failure_answered_ok :
  @sidechannel_command libusb_headers idle_side_channel
     CUPS_SC_CMD_GET_DEVICE_ID CUPS_SC_STATUS_NONE (-1) (replicate 2048 0)
  = {| res_globals := idle_side_channel;
       res_replies := [ {| r_command := CUPS_SC_CMD_GET_DEVICE_ID;
                           r_status := CUPS_SC_STATUS_OK;
                           r_data := [] |} ];
       res_resets := 0;
       res_status := CUPS_SC_STATUS_IO_ERROR |}.
Proof. vm_compute. reflexivity. Qed.

(** *** Device finder *)

Lemma uint8_small x : 0 <= x < 256 -> uint8 x = x.
Proof. intros Hx. unfold uint8. apply Z.mod_small. exact Hx. Qed.

Lemma uint8_range x : 0 <= uint8 x < 256.
Proof. unfold uint8. apply Z.mod_pos_bound. lia. Qed.

Section FinderProps.
Context `{Headers}.

(** Without a bulk endpoint of a direction the variable of that direction
    keeps its value. *)
Lemma scan_endpoints_none eps : forall endp r w,
  (forall ep, In ep eps -> bulk_dir true ep = false) ->
  fst (scan_endpoints eps endp r w) = r.
Proof.
  induction eps as [|ep rest IH]; intros endp r w Hnone; simpl;
    [reflexivity|].
  assert (Hep : bulk_dir true ep = false) by (apply Hnone; left; reflexivity).
  assert (Hrest : forall ep', In ep' rest -> bulk_dir true ep' = false)
    by (intros ep' Hin; apply Hnone; right; exact Hin).
  unfold bulk_dir in Hep.
  destruct (is_bulk ep); [|apply IH; exact Hrest].
  destruct (is_in ep); [discriminate|]. apply IH. exact Hrest.
Qed.

Lemma scan_endpoints_none_out eps : forall endp r w,
  (forall ep, In ep eps -> bulk_dir false ep = false) ->
  snd (scan_endpoints eps endp r w) = w.
Proof.
  induction eps as [|ep rest IH]; intros endp r w Hnone; simpl;
    [reflexivity|].
  assert (Hep : bulk_dir false ep = false)
    by (apply Hnone; left; reflexivity).
  assert (Hrest : forall ep', In ep' rest -> bulk_dir false ep' = false)
    by (intros ep' Hin; apply Hnone; right; exact Hin).
  unfold bulk_dir in Hep.
  destruct (is_bulk ep); [|apply IH; exact Hrest].
  destruct (is_in ep); [|discriminate]. apply IH. exact Hrest.
Qed.

Lemma later_none (dir_in : bool) (eps : list libusb_endpoint_descriptor)
    ep0 i :
  (forall j ep', (S i < j)%nat -> (ep0 :: eps) !! j = Some ep' ->
                 bulk_dir dir_in ep' = false) ->
  forall j ep', (i < j)%nat -> eps !! j = Some ep' ->
                bulk_dir dir_in ep' = false.
Proof. intros Hlast j ep' Hj Hlook. apply (Hlast (S j)); [lia | exact Hlook]. Qed.

Lemma all_later_none (dir_in : bool)
    (eps : list libusb_endpoint_descriptor) ep0 :
  (forall j ep', (0 < j)%nat -> (ep0 :: eps) !! j = Some ep' ->
                 bulk_dir dir_in ep' = false) ->
  forall ep', In ep' eps -> bulk_dir dir_in ep' = false.
Proof.
  intros Hlast ep' Hin. apply list_elem_of_In in Hin.
  apply list_elem_of_lookup in Hin as [j Hj].
  apply (Hlast (S j)); [lia | exact Hj].
Qed.

(** The variable of a direction ends up holding the index of the last bulk
    endpoint of that direction. *)
Lemma scan_endpoints_last_in eps : forall endp r w i ep,
  eps !! i = Some ep ->
  bulk_dir true ep = true ->
  (forall j ep', (i < j)%nat -> eps !! j = Some ep' ->
                 bulk_dir true ep' = false) ->
  fst (scan_endpoints eps endp r w) = uint8 (Z.of_nat (endp + i)).
Proof.
  induction eps as [|ep0 rest IH]; intros endp r w i ep Hi Hep Hlast;
    [discriminate|].
  destruct i as [|i]; simpl in Hi.
  - injection Hi as ->. simpl.
    unfold bulk_dir in Hep. apply andb_prop in Hep as [Hb Hd].
    rewrite Hb. destruct (is_in ep); [|discriminate].
    rewrite scan_endpoints_none by (apply (all_later_none true rest ep Hlast)).
    rewrite Nat.add_0_r. reflexivity.
  - pose proof (later_none true rest ep0 i Hlast) as Hlast'.
    simpl.
    replace (endp + S i)%nat with (S endp + i)%nat by lia.
    destruct (is_bulk ep0); [destruct (is_in ep0)|];
      apply (IH _ _ _ i ep Hi Hep Hlast').
Qed.

Lemma scan_endpoints_last_out eps : forall endp r w i ep,
  eps !! i = Some ep ->
  bulk_dir false ep = true ->
  (forall j ep', (i < j)%nat -> eps !! j = Some ep' ->
                 bulk_dir false ep' = false) ->
  snd (scan_endpoints eps endp r w) = uint8 (Z.of_nat (endp + i)).
Proof.
  induction eps as [|ep0 rest IH]; intros endp r w i ep Hi Hep Hlast;
    [discriminate|].
  destruct i as [|i]; simpl in Hi.
  - injection Hi as ->. simpl.
    unfold bulk_dir in Hep. apply andb_prop in Hep as [Hb Hd].
    rewrite Hb. destruct (is_in ep); [discriminate|].
    rewrite scan_endpoints_none_out
      by (apply (all_later_none false rest ep Hlast)).
    rewrite Nat.add_0_r. reflexivity.
  - pose proof (later_none false rest ep0 i Hlast) as Hlast'.
    simpl.
    replace (endp + S i)%nat with (S endp + i)%nat by lia.
    destruct (is_bulk ep0); [destruct (is_in ep0)|];
      apply (IH _ _ _ i ep Hi Hep Hlast').
Qed.

Lemma skip_altsetting_class alt p :
  skip_altsetting alt p
  = negb (printer_class alt) || (bInterfaceProtocol alt <? p).
Proof.
  unfold skip_altsetting, printer_class.
  destruct (bInterfaceClass alt =? LIBUSB_CLASS_PRINTER),
           (bInterfaceSubClass alt =? 1),
           (bInterfaceProtocol alt =? 1),
           (bInterfaceProtocol alt =? 2); reflexivity.
Qed.

Lemma printer_class_protocol alt :
  printer_class alt = true ->
  bInterfaceProtocol alt = 1 \/ bInterfaceProtocol alt = 2.
Proof.
  unfold printer_class. intros Hc.
  apply andb_prop in Hc as [_ Hc]. apply orb_prop in Hc as [Hc|Hc];
    apply Z.eqb_eq in Hc; [left | right]; exact Hc.
Qed.

Lemma scan_endpoints_write_nonneg eps : forall endp r w,
  0 <= w -> 0 <= snd (scan_endpoints eps endp r w).
Proof.
  induction eps as [|ep rest IH]; intros endp r w Hw; simpl; [exact Hw|].
  destruct (is_bulk ep); [destruct (is_in ep)|]; apply IH;
    try exact Hw. apply uint8_range.
Qed.

(** Alternate settings that are not of the printer class, or whose protocol
    is below the best one so far, change nothing. *)
Lemma scan_altsettings_skipped alts : forall a p pr,
  (forall alt, In alt alts -> printer_class alt = true ->
               bInterfaceProtocol alt < p) ->
  scan_altsettings alts a p pr = (p, pr).
Proof.
  induction alts as [|alt rest IH]; intros a p pr Hlow; simpl;
    [reflexivity|].
  rewrite skip_altsetting_class.
  assert (Hskip : negb (printer_class alt) || (bInterfaceProtocol alt <? p)
                  = true).
  { destruct (printer_class alt) eqn:Hc; [|reflexivity]. simpl.
    apply Z.ltb_lt. apply Hlow; [left; reflexivity | exact Hc]. }
  rewrite Hskip. apply IH.
  intros alt' Hin. apply Hlow. right. exact Hin.
Qed.

(** The alternate setting that is kept: the one of the printer class with
    the highest protocol, the later one on ties. *)
Lemma scan_altsettings_pick alts : forall a p pr k alt,
  alts !! k = Some alt ->
  printer_class alt = true ->
  p <= bInterfaceProtocol alt ->
  (forall j alt', alts !! j = Some alt' -> printer_class alt' = true ->
     bInterfaceProtocol alt' < bInterfaceProtocol alt \/
     (bInterfaceProtocol alt' = bInterfaceProtocol alt /\ (j <= k)%nat)) ->
  scan_altsettings alts a p pr
  = (bInterfaceProtocol alt,
     save_match pr (uint8 (Z.of_nat (a + k)))
       (snd (scan_endpoints (endpoint alt) 0 (uint8 (-1)) (uint8 (-1))))
       (fst (scan_endpoints (endpoint alt) 0 (uint8 (-1)) (uint8 (-1))))).
Proof.
  induction alts as [|alt0 rest IH]; intros a p pr k alt Hk Hc Hp Hpref;
    [discriminate|].
  simpl. rewrite skip_altsetting_class.
  destruct k as [|k]; simpl in Hk.
  - injection Hk as ->. rewrite Hc. simpl.
    replace (bInterfaceProtocol alt <? p) with false
      by (symmetry; apply Z.ltb_ge; exact Hp).
    destruct (scan_endpoints (endpoint alt) 0 (uint8 (-1)) (uint8 (-1)))
      as [r w] eqn:Hscan.
    assert (Hw : 0 <= w).
    { change w with (snd (r, w)). rewrite <- Hscan.
      apply scan_endpoints_write_nonneg. apply uint8_range. }
    replace (w >=? 0) with true by (symmetry; apply Z.geb_le; exact Hw).
    rewrite uint8_small
      by (destruct (printer_class_protocol alt Hc) as [-> | ->]; lia).
    rewrite Nat.add_0_r. apply scan_altsettings_skipped.
    intros alt' Hin Hc'. apply list_elem_of_In in Hin.
    apply list_elem_of_lookup in Hin as [j Hj].
    destruct (Hpref (S j) alt' Hj Hc') as [Hlt | [_ Hle]]; [exact Hlt | lia].
  - assert (Hpref' : forall j alt', rest !! j = Some alt' ->
              printer_class alt' = true ->
              bInterfaceProtocol alt' < bInterfaceProtocol alt \/
              (bInterfaceProtocol alt' = bInterfaceProtocol alt /\
               (j <= k)%nat)).
    { intros j alt' Hj Hc'.
      destruct (Hpref (S j) alt' Hj Hc') as [Hlt | [Heq Hle]];
        [left; exact Hlt | right; split; [exact Heq | lia]]. }
    replace (a + S k)%nat with (S a + k)%nat by lia.
    destruct (negb (printer_class alt0) || (bInterfaceProtocol alt0 <? p))
      eqn:Hskip.
    + apply (IH (S a) p pr k alt Hk Hc Hp Hpref').
    + apply orb_false_elim in Hskip as [Hc0 Hp0].
      apply negb_false_iff in Hc0. apply Z.ltb_ge in Hp0.
      destruct (scan_endpoints (endpoint alt0) 0 (uint8 (-1)) (uint8 (-1)))
        as [r0 w0] eqn:Hscan0.
      assert (Hw0 : 0 <= w0).
      { change w0 with (snd (r0, w0)). rewrite <- Hscan0.
        apply scan_endpoints_write_nonneg. apply uint8_range. }
      replace (w0 >=? 0) with true by (symmetry; apply Z.geb_le; exact Hw0).
      rewrite uint8_small
        by (destruct (printer_class_protocol alt0 Hc0) as [-> | ->]; lia).
      rewrite (IH (S a) (bInterfaceProtocol alt0) _ k alt Hk Hc); try assumption.
      * reflexivity.
      * destruct (Hpref 0%nat alt0 eq_refl Hc0) as [Hlt | [Heq _]]; lia.
Qed.

(** C3 (amended): for every alternate setting examined by the device
    finder, the endpoint recorded as read_endp is the last bulk endpoint
    with device-to-host direction listed in that alt-setting, the endpoint
    recorded as write_endp is the last bulk host-to-device endpoint listed
    in it, and among the printer-class alt-settings of one interface (each
    with a bulk host-to-device endpoint) the one with the highest protocol
    value is preferred, the later one when two have the same protocol; the
    interface has at most 255 alternate settings, the number up to which
    the alt-setting loop of the finder comes to an end. *)
Theorem finder_keeps_last_endpoints_highest_protocol
    (eps : list libusb_endpoint_descriptor)
    (alts : list libusb_interface_descriptor) (pr : usb_printer_t)
    (k : nat) (alt : libusb_interface_descriptor) :
  (length eps <= 255)%nat ->
  (length alts <= 255)%nat ->
  (forall alt', In alt' alts -> printer_class alt' = true ->
     exists ep, In ep (endpoint alt') /\ bulk_dir false ep = true) ->
  alts !! k = Some alt ->
  printer_class alt = true ->
  (forall j alt', alts !! j = Some alt' -> printer_class alt' = true ->
     bInterfaceProtocol alt' < bInterfaceProtocol alt \/
     (bInterfaceProtocol alt' = bInterfaceProtocol alt /\ (j <= k)%nat)) ->
  (forall dir_in i ep,
     eps !! i = Some ep ->
     bulk_dir dir_in ep = true ->
     (forall j ep', (i < j)%nat -> eps !! j = Some ep' ->
                    bulk_dir dir_in ep' = false) ->
     (if dir_in
      then fst (scan_endpoints eps 0 (uint8 (-1)) (uint8 (-1)))
      else snd (scan_endpoints eps 0 (uint8 (-1)) (uint8 (-1))))
     = Z.of_nat i) /\
  scan_altsettings alts 0 0 pr
  = (bInterfaceProtocol alt,
     save_match pr (Z.of_nat k)
       (snd (scan_endpoints (endpoint alt) 0 (uint8 (-1)) (uint8 (-1))))
       (fst (scan_endpoints (endpoint alt) 0 (uint8 (-1)) (uint8 (-1))))).
Proof.
  intros Heps Halts _ Hk Hc Hpref. split.
  - intros dir_in i ep Hi Hep Hlast.
    assert (Hlt : (i < length eps)%nat)
      by (apply lookup_lt_is_Some; eexists; exact Hi).
    destruct dir_in.
    + rewrite (scan_endpoints_last_in eps 0 _ _ i ep Hi Hep Hlast).
      apply uint8_small. simpl. lia.
    + rewrite (scan_endpoints_last_out eps 0 _ _ i ep Hi Hep Hlast).
      apply uint8_small. simpl. lia.
  - assert (Hlt : (k < length alts)%nat)
      by (apply lookup_lt_is_Some; eexists; exact Hk).
    rewrite (scan_altsettings_pick alts 0 0 pr k alt Hk Hc); try assumption.
    + simpl. rewrite uint8_small by lia. reflexivity.
    + destruct (printer_class_protocol alt Hc) as [-> | ->]; lia.
Qed.

End FinderProps.

(** C3, as stated, fails: with bulk IN endpoints at indexes 0 and 2 the
    finder records index 2 as read_endp, not the first one. *)
Lemma finder_records_last_bulk_in :
  @scan_endpoints libusb_headers two_in_endpoints 0 (uint8 (-1)) (uint8 (-1))
  = (2, 1) /\
  @first_bulk libusb_headers true two_in_endpoints 0 = Some 0%nat /\
  2 <> Z.of_nat 0.
Proof. repeat split. discriminate. Qed.

(** An alternate setting without any bulk host-to-device endpoint is
    accepted all the same: [write_endp] is a [uint8_t], so the -1 it is
    initialised with is 255 and passes the test [write_endp >= 0]. *)
Lemma altsetting_without_bulk_out_accepted :
  @probe_interface libusb_headers open_printer 0 0 0
     {| altsetting := [no_bulk_out] |}
  = ({| device := 0; conf := 0; iface := 0; altset := 0; write_endp := 255;
        read_endp := 255; protocol := 1; usblp_attached := 0;
        handle := false |}, true).
Proof. reflexivity. Qed.

Lemma finder_keeps_last_endpoints_highest_protocol_witness :
  @scan_endpoints libusb_headers two_in_endpoints 0 (uint8 (-1)) (uint8 (-1))
  = (2, 1) /\
  @scan_altsettings libusb_headers uni_then_bidi 0 0 open_printer
  = (2, @save_match open_printer 1 1 2).
Proof.
  destruct (@finder_keeps_last_endpoints_highest_protocol libusb_headers
              two_in_endpoints uni_then_bidi open_printer 1%nat
              {| bInterfaceClass := 7; bInterfaceSubClass := 1;
                 bInterfaceProtocol := 2; endpoint := two_in_endpoints |})
    as [Hends Halt].
  - simpl. lia.
  - simpl. lia.
  - intros alt' Hin _. simpl in Hin.
    destruct Hin as [<- | [<- | []]].
    + eexists. split; [left; reflexivity | reflexivity].
    + eexists. split; [right; left; reflexivity | reflexivity].
  - reflexivity.
  - reflexivity.
  - intros j alt' Hj _. destruct j as [|[|j]]; simpl in Hj.
    + injection Hj as <-. left. reflexivity.
    + injection Hj as <-. right. split; [reflexivity | lia].
    + discriminate.
  - split; [reflexivity | exact Halt].
Defined.

(** *** Writer loop *)

Lemma is_status_true s t : is_status s t = true <-> s = t.
Proof. unfold is_status. apply bool_decide_eq_true. Qed.

Lemma is_status_false s t : is_status s t = false <-> s <> t.
Proof. unfold is_status. apply bool_decide_eq_false. Qed.

Lemma copy_loop_break w a rest w' :
  status w = CUPS_BACKEND_OK ->
  writer_pass w a = BreakLoop w' ->
  copy_loop w (a :: rest) = CopyEnded w' rest.
Proof. intros Hok Hpass. simpl. rewrite Hok, Hpass. reflexivity. Qed.

(** Once [status] is FAILED no further copy is sent and [print_device]
    returns FAILED. *)
Lemma print_copies_failed copies w script :
  status w = CUPS_BACKEND_FAILED ->
  print_copies copies w script = Some (CUPS_BACKEND_FAILED, w).
Proof. intros Hf. destruct copies; simpl; rewrite Hf; reflexivity. Qed.

Lemma write_phase_residue w a :
  print_bytes (g w) <> 0 -> write_phase w a = bulk_write w a.
Proof.
  intros Hres. unfold write_phase, truthy.
  apply Z.eqb_neq in Hres. rewrite Hres. reflexivity.
Qed.

(** A pass whose [select] succeeded and whose [read] delivered data hands
    that data to the bulk transfer. *)
Lemma writer_pass_reads_then_writes w a :
  0 <= nfds a -> print_bytes (g w) = 0 -> fd_ready a = true -> 0 < read_ret a ->
  writer_pass w a
  = bulk_write (with_print_bytes (drain_phase w a) (read_ret a) 0) a.
Proof.
  intros Hsel Hempty Hready Hread. unfold writer_pass.
  replace (nfds a <? 0) with false by (symmetry; apply Z.ltb_ge; lia).
  simpl. rewrite Hempty, Hready. simpl. unfold read_phase.
  replace (read_ret a <? 0) with false by (symmetry; apply Z.ltb_ge; lia).
  replace (read_ret a =? 0) with false by (symmetry; apply Z.eqb_neq; lia).
  apply write_phase_residue. simpl. lia.
Qed.

Lemma writer_pass_residue w a :
  0 <= nfds a -> print_bytes (g w) <> 0 -> writer_pass w a = write_phase w a.
Proof.
  intros Hsel Hres. unfold writer_pass, drain_phase, truthy.
  replace (nfds a <? 0) with false by (symmetry; apply Z.ltb_ge; lia).
  apply Z.eqb_neq in Hres. rewrite Hres. simpl.
  rewrite !andb_false_r. reflexivity.
Qed.

(** C8 (amended): in the writer loop of print_device, for the bulk-out
    transfer issued in a pass (when [g.print_bytes] is not 0): a TIMEOUT
    result is treated as success with the reported byte count kept; a PIPE
    (stall) result causes exactly one retry of the transfer, and so does an
    INTERRUPTED result; the result of the retry is final, success when it
    is 0 and failure for any non-zero result, TIMEOUT, PIPE and INTERRUPTED
    included; any other non-zero result of the first transfer sets the job
    status to FAILED and ends the copy; and a zero-byte read from the job
    input fd (EOF) terminates the per-copy loop. *)
Theorem writer_transfer_outcomes w a rest :
  status w = CUPS_BACKEND_OK ->
  print_bytes (g w) <> 0 ->
  (fst (first_transfer a) = LIBUSB_ERROR_TIMEOUT ->
   write_phase w a
   = NextPass (count_transfer w 1 (snd (first_transfer a)))) /\
  (fst (first_transfer a) = LIBUSB_ERROR_PIPE \/
   fst (first_transfer a) = LIBUSB_ERROR_INTERRUPTED ->
   snd (transfer_with_retry a) = 2%nat /\
   write_phase w a
   = if is_status (fst (retry_transfer a)) LIBUSB_SUCCESS
     then NextPass (count_transfer w 2 (snd (retry_transfer a)))
     else BreakLoop (fail_transfer w 2)) /\
  (fst (first_transfer a) <> LIBUSB_SUCCESS ->
   fst (first_transfer a) <> LIBUSB_ERROR_TIMEOUT ->
   fst (first_transfer a) <> LIBUSB_ERROR_PIPE ->
   fst (first_transfer a) <> LIBUSB_ERROR_INTERRUPTED ->
   write_phase w a = BreakLoop (fail_transfer w 1) /\
   status (fail_transfer w 1) = CUPS_BACKEND_FAILED /\
   (0 <= nfds a ->
    copy_loop w (a :: rest) = CopyEnded (fail_transfer w 1) rest /\
    forall copies,
      print_copies (S copies) w (a :: rest)
      = Some (CUPS_BACKEND_FAILED, fail_transfer w 1))) /\
  (read_ret a = 0 ->
   forall w0,
     read_phase w0 a true
     = BreakLoop (with_print_bytes w0 0 (print_ptr w0)) /\
     (status w0 = CUPS_BACKEND_OK -> print_bytes (g w0) = 0 ->
      0 <= nfds a -> fd_ready a = true ->
      copy_loop w0 (a :: rest)
      = CopyEnded (with_print_bytes (drain_phase w0 a) 0
                     (print_ptr (drain_phase w0 a))) rest)).
Proof.
  intros Hok Hres. rewrite (write_phase_residue w a Hres).
  assert (Hother :
            fst (first_transfer a) <> LIBUSB_SUCCESS ->
            fst (first_transfer a) <> LIBUSB_ERROR_TIMEOUT ->
            fst (first_transfer a) <> LIBUSB_ERROR_PIPE ->
            fst (first_transfer a) <> LIBUSB_ERROR_INTERRUPTED ->
            bulk_write w a = BreakLoop (fail_transfer w 1)).
  { unfold bulk_write, transfer_with_retry.
    destruct (first_transfer a) as [iostatus n]. simpl fst.
    intros H0 H1 H2 H3.
    apply is_status_false in H0, H1, H2, H3.
    rewrite H1, H2, H3, H0. reflexivity. }
  split; [|split; [|split]].
  - unfold bulk_write, transfer_with_retry.
    destruct (first_transfer a) as [iostatus n]. simpl fst. simpl snd.
    intros ->. reflexivity.
  - unfold bulk_write, transfer_with_retry.
    destruct (first_transfer a) as [iostatus n]. simpl fst.
    intros [-> | ->]; (split; [reflexivity|]); simpl;
      destruct (is_status (fst (retry_transfer a)) LIBUSB_SUCCESS);
      reflexivity.
  - intros H0 H1 H2 H3. specialize (Hother H0 H1 H2 H3).
    split; [exact Hother|]. split; [reflexivity|].
    intros Hsel.
    pose proof (writer_pass_residue w a Hsel Hres) as Hpass.
    rewrite (write_phase_residue w a Hres) in Hpass.
    assert (Hloop : copy_loop w (a :: rest)
                    = CopyEnded (fail_transfer w 1) rest).
    { apply copy_loop_break; [exact Hok|].
      rewrite Hpass. exact Hother. }
    split; [exact Hloop|].
    intros copies. cbn [print_copies]. rewrite Hok. cbn [backend_ok].
    rewrite Hloop. apply print_copies_failed. reflexivity.
  - intros Heof w0. split.
    + unfold read_phase. rewrite Heof. reflexivity.
    + intros Hok0 Hempty Hsel Hready.
      apply copy_loop_break; [exact Hok0|].
      unfold writer_pass.
      replace (nfds a <? 0) with false by (symmetry; apply Z.ltb_ge; lia).
      simpl. rewrite Hempty, Hready. simpl.
      unfold read_phase. rewrite Heof. reflexivity.
Qed.

Lemma writer_transfer_outcomes_witness :
  write_phase writer_with_residue
    (residue_answers (LIBUSB_ERROR_PIPE, 0) (LIBUSB_SUCCESS, 100))
  = NextPass
      {| g := globals_init open_printer 3; total_bytes := 100;
         print_ptr := 100; status := CUPS_BACKEND_OK; bulk_calls := 2;
         drain_replies := 0 |}.
Proof.
  destruct (writer_transfer_outcomes writer_with_residue
              (residue_answers (LIBUSB_ERROR_PIPE, 0) (LIBUSB_SUCCESS, 100))
              []) as (_ & Hretry & _).
  - reflexivity.
  - discriminate.
  - destruct Hretry as [_ Hphase]; [left; reflexivity | exact Hphase].
Defined.

(** C8, as stated, fails: not every bulk-out transfer that ends in TIMEOUT
    is treated as success.  The writer reads 100 bytes, the transfer stalls
    (PIPE) and is retried, and the retry ends in TIMEOUT having moved the
    100 bytes: the job status becomes FAILED and print_device returns
    FAILED with no byte counted. *)
Lemma retry_timeout_fails :
  let a := pass_answers 100 (LIBUSB_ERROR_PIPE, 0)
                        (LIBUSB_ERROR_TIMEOUT, 100) in
  fst (retry_transfer a) = LIBUSB_ERROR_TIMEOUT /\
  writer_pass (writer_init open_printer 3) a
  = BreakLoop
      {| g := set_print_bytes (globals_init open_printer 3) 100;
         total_bytes := 0; print_ptr := 0; status := CUPS_BACKEND_FAILED;
         bulk_calls := 2; drain_replies := 0 |} /\
  option_map fst (print_copies 1 (writer_init open_printer 3) [a])
  = Some CUPS_BACKEND_FAILED.
Proof. repeat split. Qed.

(** What [close_device] always achieves: it returns 0, leaves the handle
    cleared and has closed the handle once if it was open. *)
Lemma close_device_closes pr number :
  fst (fst (close_device pr number)) = 0 /\
  handle (snd (fst (close_device pr number))) = false /\
  count_call LibusbClose (snd (close_device pr number))
  = if handle pr then 1%nat else 0%nat.
Proof.
  unfold close_device. destruct (handle pr) eqn:Hh.
  - destruct (negb (number =? 0)), (usblp_attached pr =? 1); cbn;
      repeat split.
  - cbn. repeat split. exact Hh.
Qed.

(** C10: if the writer's select on the job input fd fails with EINTR before
    any bytes have been written to the device (total bytes written equals
    0), print_device closes the device and returns the success status
    CUPS_BACKEND_OK rather than a failure or stop status: the pass calls
    close_device on the printer of the globals, which returns 0, leaves
    the handle cleared and has closed an open handle exactly once, and
    the pass, the copy loop and print_device return CUPS_BACKEND_OK with
    the printer so closed. *)
Theorem interrupted_before_first_byte w a rest copies :
  status w = CUPS_BACKEND_OK ->
  nfds a < 0 ->
  select_errno a = EINTR ->
  total_bytes w = 0 ->
  exists w' calls,
    close_device (printer (g w)) (interface_number a)
      = (0, printer (g w'), calls) /\
    handle (printer (g w')) = false /\
    count_call LibusbClose calls
      = (if handle (printer (g w)) then 1%nat else 0%nat) /\
    writer_pass w a = CloseAndReturn CUPS_BACKEND_OK w' calls /\
    copy_loop w (a :: rest) = Returned CUPS_BACKEND_OK w' calls /\
    print_copies (S copies) w (a :: rest) = Some (CUPS_BACKEND_OK, w').
Proof.
  intros Hok Hsel Herr Hzero.
  assert (Hpass : writer_pass w a = close_and_return w a CUPS_BACKEND_OK).
  { unfold writer_pass. rewrite Herr, Hzero.
    replace (nfds a <? 0) with true by (symmetry; apply Z.ltb_lt; lia).
    reflexivity. }
  destruct (close_device_closes (printer (g w)) (interface_number a))
    as (Hrc & Hhandle & Hcount).
  unfold close_and_return in Hpass. cbv zeta in Hpass.
  assert (Hb : backend_ok (status w) = true) by now rewrite Hok.
  eexists _, _. split; [|split; [|split; [|split; [exact Hpass|split]]]].
  - cbn [g printer set_printer].
    destruct (close_device (printer (g w)) (interface_number a))
      as [[rc pr'] calls]. cbn in Hrc |- *. now rewrite Hrc.
  - exact Hhandle.
  - exact Hcount.
  - cbn [copy_loop]. rewrite Hb, Hpass. reflexivity.
  - cbn [print_copies copy_loop]. rewrite Hb, Hpass. reflexivity.
Qed.

Lemma interrupted_before_first_byte_witness :
  exists w' calls,
    close_device (printer (g (writer_init open_printer 3)))
                 (interface_number interrupted_select)
      = (0, printer (g w'), calls) /\
    handle (printer (g w')) = false /\
    count_call LibusbClose calls
      = (if handle (printer (g (writer_init open_printer 3)))
         then 1%nat else 0%nat) /\
    writer_pass (writer_init open_printer 3) interrupted_select
      = CloseAndReturn CUPS_BACKEND_OK w' calls /\
    copy_loop (writer_init open_printer 3) [interrupted_select]
      = Returned CUPS_BACKEND_OK w' calls /\
    print_copies 1 (writer_init open_printer 3) [interrupted_select]
      = Some (CUPS_BACKEND_OK, w').
Proof.
  apply (interrupted_before_first_byte (writer_init open_printer 3)
           interrupted_select [] 0%nat); reflexivity.
Defined.

(** With bytes already written the same interrupt does not end the job. *)
Lemma interrupted_after_first_byte :
  writer_pass writer_after_ten interrupted_select = NextPass writer_after_ten.
Proof. reflexivity. Qed.

End UsbProps.

Module SchedExtProps.
Import Sched SchedExt.

(** *** Signal hold / release: the mask *)

Lemma held_tracks_count calls : forall s,
  0 <= holdcount s ->
  held s = (0 <? holdcount s) ->
  well_nested (holdcount s) calls = true ->
  Forall (fun s' => held s' = (0 <? holdcount s')) (sig_trace s calls).
Proof.
  induction calls as [|c rest IH]; intros s Hs Hheld Hw; simpl;
    [constructor|].
  assert (Hstep : 0 <= holdcount (sig_step s c) /\
                  held (sig_step s c) = (0 <? holdcount (sig_step s c)) /\
                  well_nested (holdcount (sig_step s c)) rest = true).
  { destruct c; simpl in *.
    - unfold HoldSignals.
      destruct (holdcount s + 1 >? 1) eqn:Hgt; simpl.
      + rewrite Z.gtb_ltb in Hgt. apply Z.ltb_lt in Hgt.
        split; [lia|]. split; [|exact Hw].
        rewrite Hheld. transitivity true; [apply Z.ltb_lt; lia|].
        symmetry. apply Z.ltb_lt. lia.
      + split; [lia|]. split; [|exact Hw].
        symmetry. apply Z.ltb_lt. lia.
    - apply andb_prop in Hw as [Hd Hw]. apply Z.leb_le in Hd.
      unfold ReleaseSignals.
      destruct (holdcount s - 1 >? 0) eqn:Hgt; simpl.
      + rewrite Z.gtb_ltb in Hgt. apply Z.ltb_lt in Hgt.
        split; [lia|]. split; [|exact Hw].
        rewrite Hheld. transitivity true; [apply Z.ltb_lt; lia|].
        symmetry. apply Z.ltb_lt. lia.
      + rewrite Z.gtb_ltb in Hgt. apply Z.ltb_ge in Hgt.
        split; [lia|]. split; [|exact Hw].
        symmetry. apply Z.ltb_ge. lia. }
  destruct Hstep as (H0 & H1 & H2).
  constructor; [exact H1|]. apply IH; assumption.
Qed.

(** X1: along every well-nested sequence of HoldSignals and ReleaseSignals
    calls, SIGTERM and SIGCHLD are held after a call exactly when the
    nesting count is positive: an inner release never unblocks the signals
    and the outermost release always does. *)
Theorem signals_held_while_nested (calls : list sigcall) :
  well_nested 0 calls = true ->
  Forall (fun s => held s = (0 <? holdcount s)) (sig_trace sig_init calls).
Proof.
  intros Hw. apply held_tracks_count; simpl; [lia | reflexivity | exact Hw].
Qed.

Lemma signals_held_while_nested_witness :
  Forall (fun s => held s = (0 <? holdcount s))
         (sig_trace sig_init [Hold; Hold; Release; Release; Hold]).
Proof.
  apply (signals_held_while_nested [Hold; Hold; Release; Release; Hold]).
  reflexivity.
Defined.

(** *** Child reaper: invariants *)

Lemma first_occurrence (x : Z) (l : list Z) :
  In x l ->
  exists i, l !! i = Some x /\ forall j, (j < i)%nat -> l !! j <> Some x.
Proof.
  induction l as [|a l IH]; intros Hin; [destruct Hin|].
  destruct (Z.eq_dec a x) as [->|Hne].
  - exists 0%nat. split; [reflexivity|]. intros j Hj. lia.
  - destruct Hin as [Heq|Hin]; [congruence|].
    destruct (IH Hin) as (i & Hi & Hfirst).
    exists (S i). split; [exact Hi|].
    intros [|j] Hj; simpl; [congruence|]. apply Hfirst. lia.
Qed.

Lemma pipeline_insert_nonzero ps : forall i x y,
  pipeline ps !! i = Some x -> y <> 0 ->
  pipeline (<[i := y]> ps) = <[i := y]> (pipeline ps).
Proof.
  induction ps as [|p rest IH]; intros i x y Hi Hy; simpl in Hi;
    [discriminate|].
  destruct (p =? 0) eqn:Hp; [discriminate|].
  destruct i as [|i]; simpl.
  - apply Z.eqb_neq in Hy. rewrite Hy, Hp. reflexivity.
  - rewrite Hp. simpl in Hi. rewrite (IH i x y Hi Hy). reflexivity.
Qed.

Lemma live_after_negation (l : list Z) : forall i pid,
  l !! i = Some pid -> 0 < pid ->
  S (length (filter (fun p => 0 < p) (<[i := - pid]> l)))
  = length (filter (fun p => 0 < p) l).
Proof.
  induction l as [|a l IH]; intros i pid Hi Hpos; [discriminate|].
  destruct i as [|i]; simpl in Hi.
  - injection Hi as ->. simpl.
    rewrite filter_cons_False by lia. rewrite filter_cons_True by lia.
    reflexivity.
  - simpl. rewrite !filter_cons.
    destruct (decide (0 < a)); simpl; rewrite (IH i pid Hi Hpos);
      reflexivity.
Qed.

Lemma abs_after_negation (l : list Z) : forall i pid,
  l !! i = Some pid ->
  map Z.abs (<[i := - pid]> l) = map Z.abs l.
Proof.
  induction l as [|a l IH]; intros i pid Hi; [discriminate|].
  destruct i as [|i]; simpl in *.
  - injection Hi as ->. rewrite Z.abs_opp. reflexivity.
  - rewrite (IH i pid Hi). reflexivity.
Qed.

Section ReaperInvariants.
Context `{Headers}.

Lemma reap_in_job_cases pid st job :
  reap_in_job pid st job = None /\ ~ In pid (pipeline (procs job)) \/
  exists job' note,
    reap_in_job pid st job = Some (job', note) /\
    In pid (pipeline (procs job)) /\
    reaped_job pid job job'.
Proof.
  destruct (In_dec Z.eq_dec pid (pipeline (procs job))) as [Hin|Hnot].
  - right.
    destruct (first_occurrence pid _ Hin) as (i & Hi & Hfirst).
    destruct (SchedProps.reap_in_job_slot pid st job i Hi Hfirst)
      as (job' & note & Hjob & Hstate & Hprinter & Hprocs & Hstatus).
    exists job', note. split; [exact Hjob|]. split; [exact Hin|].
    destruct (SchedProps.pipeline_lookup_nonzero _ _ _ Hi) as [Hnz Hraw].
    split; [|split].
    + split; [exact Hstate|]. split; [exact Hprinter|].
      rewrite Hprocs. apply (abs_after_negation _ _ _ Hraw).
    + intros Hneg. rewrite Hstatus.
      replace (status job >=? 0) with false
        by (symmetry; rewrite Z.geb_leb; apply Z.leb_gt; exact Hneg).
      rewrite andb_false_r. reflexivity.
    + intros Hpos. unfold live_pids. rewrite Hprocs.
      rewrite (pipeline_insert_nonzero _ _ _ (- pid) Hi) by lia.
      apply (live_after_negation _ _ _ Hi Hpos).
  - left. split; [|exact Hnot].
    apply SchedProps.reap_in_job_absent. exact Hnot.
Qed.

Lemma existsb_eqb_In pid (l : list Z) :
  existsb (Z.eqb pid) l = true <-> In pid l.
Proof.
  rewrite existsb_exists. split.
  - intros (x & Hin & Heq). apply Z.eqb_eq in Heq. subst x. exact Hin.
  - intros Hin. exists pid. split; [exact Hin | apply Z.eqb_refl].
Qed.

Lemma same_job_refl j : same_job j j.
Proof. repeat split. Qed.

Lemma same_job_trans j1 j2 j3 :
  same_job j1 j2 -> same_job j2 j3 -> same_job j1 j3.
Proof.
  intros (A1 & A2 & A3) (B1 & B2 & B3).
  repeat split; congruence.
Qed.

Lemma reap_in_jobs_spec pid st jobs :
  (existsb (holds_pid pid) jobs = false ->
   reap_in_jobs pid st jobs = (jobs, None)) /\
  Forall2 (fun j j' => j' = j \/ reaped_job pid j j')
          jobs (fst (reap_in_jobs pid st jobs)) /\
  (0 < pid ->
   (total_live (fst (reap_in_jobs pid st jobs))
    + (if existsb (holds_pid pid) jobs then 1 else 0))%nat
   = total_live jobs).
Proof.
  induction jobs as [|job rest (IHnone & IHall & IHlive)].
  { simpl. split; [reflexivity|]. split; [constructor | reflexivity]. }
  assert (Hsame : Forall2 (fun j j' => j' = j \/ reaped_job pid j j')
                          rest rest).
  { clear. induction rest; constructor; [left; reflexivity | assumption]. }
  cbn [reap_in_jobs existsb].
  change (holds_pid pid job)
    with (is_processing job && existsb (Z.eqb pid) (pipeline (procs job))).
  destruct (is_processing job) eqn:Hproc; simpl.
  - destruct (reap_in_job_cases pid st job)
      as [[Hnone Hnot] | (job' & note & Hjob & Hin & Hreaped)].
    + rewrite Hnone.
      replace (existsb (Z.eqb pid) (pipeline (procs job))) with false
        by (symmetry; apply not_true_iff_false;
            rewrite existsb_eqb_In; exact Hnot).
      simpl.
      destruct (reap_in_jobs pid st rest) as [rest' n] eqn:Hrest. simpl in *.
      split; [intros Hno; specialize (IHnone Hno); congruence|].
      split; [constructor; [left; reflexivity | exact IHall]|].
      intros Hpos. specialize (IHlive Hpos).
      unfold total_live in *. simpl. lia.
    + rewrite Hjob.
      replace (existsb (Z.eqb pid) (pipeline (procs job))) with true
        by (symmetry; apply existsb_eqb_In; exact Hin).
      simpl.
      split; [discriminate|].
      split; [constructor; [right; exact Hreaped | exact Hsame]|].
      intros Hpos. destruct Hreaped as (_ & _ & Hlive).
      specialize (Hlive Hpos). unfold total_live. simpl. lia.
  - destruct (reap_in_jobs pid st rest) as [rest' n] eqn:Hrest. simpl in *.
    split; [intros Hno; specialize (IHnone Hno); congruence|].
    split; [constructor; [left; reflexivity | exact IHall]|].
    intros Hpos. specialize (IHlive Hpos).
    unfold total_live in *. simpl. lia.
Qed.

Lemma set_jobs_printers_same g :
  set_jobs_printers g (Jobs g) (Printers g) = g.
Proof. destruct g. reflexivity. Qed.

(** X2: a reaped child whose pid is in the pipeline of no Processing job
    (an unknown pid, or the pid of a job in another state) changes nothing:
    jobs, dispositions and printers are left exactly as they were. *)
Theorem reap_unknown_pid_is_noop g pid st :
  existsb (holds_pid pid) (Jobs g) = false ->
  reap_child g pid st = g.
Proof.
  intros Hno. unfold reap_child.
  destruct (reap_in_jobs_spec pid (adjust_status st) (Jobs g))
    as (Hnone & _ & _).
  rewrite (Hnone Hno). apply set_jobs_printers_same.
Qed.

(** X3: a live pid leaves the pipelines each time a child of a Processing
    job is reaped: for a positive pid, the number of slots holding a live
    pid drops by exactly one when a Processing job holds the pid and stays
    the same otherwise. *)
Theorem reap_child_live_pids g pid st :
  0 < pid ->
  (total_live (Jobs (reap_child g pid st))
   + (if existsb (holds_pid pid) (Jobs g) then 1 else 0))%nat
  = total_live (Jobs g).
Proof.
  intros Hpos. rewrite SchedProps.Jobs_reap_child.
  apply (reap_in_jobs_spec pid (adjust_status st) (Jobs g)). exact Hpos.
Qed.

Lemma reap_child_jobs g pid st :
  Forall2 (fun j j' => j' = j \/ reaped_job pid j j')
          (Jobs g) (Jobs (reap_child g pid st)).
Proof.
  rewrite SchedProps.Jobs_reap_child.
  apply (reap_in_jobs_spec pid (adjust_status st) (Jobs g)).
Qed.

Lemma Forall2_step {A} (R : A -> A -> Prop) (l1 l2 l3 : list A) :
  (forall x y z, R x y -> R y z -> R x z) ->
  Forall2 R l1 l2 -> Forall2 R l2 l3 -> Forall2 R l1 l3.
Proof.
  intros Htrans H12. revert l3.
  induction H12 as [|x y l1 l2 Hxy _ IH]; intros l3 H23;
    inversion H23; subst; constructor; eauto.
Qed.

Lemma Forall2_same {A} (R : A -> A -> Prop) (l : list A) :
  (forall x, R x x) -> Forall2 R l l.
Proof. intros Hrefl. induction l; constructor; auto. Qed.

(** X4: over a whole run of process_children, whatever children are
    reaped, a job whose disposition is negative (a backend failure is
    recorded) keeps exactly that disposition. *)
Theorem backend_failure_is_kept reaped : forall g,
  Forall2 (fun j j' => status j < 0 -> status j' = status j)
          (Jobs g) (Jobs (process_children g reaped)).
Proof.
  induction reaped as [|[pid st] rest IH]; intros g; simpl.
  - apply Forall2_same. auto.
  - destruct (pid >? 0); [|apply Forall2_same; auto].
    apply (Forall2_step _ _ (Jobs (reap_child g pid st))).
    + intros x y z Hxy Hyz Hneg. specialize (Hxy Hneg).
      rewrite Hyz by (rewrite Hxy; exact Hneg). exact Hxy.
    + eapply Forall2_impl; [apply reap_child_jobs|].
      intros j j' [-> | (_ & Hkeep & _)]; auto.
    + apply IH.
Qed.

(** [process_children] never adds, removes or reorders jobs and never
    touches a job's state or printer; in the pid arrays it only changes the
    sign of slots. *)
Lemma process_children_keeps_jobs reaped : forall g,
  Forall2 same_job (Jobs g) (Jobs (process_children g reaped)).
Proof.
  induction reaped as [|[pid st] rest IH]; intros g; simpl.
  - apply Forall2_same. apply same_job_refl.
  - destruct (pid >? 0); [|apply Forall2_same; apply same_job_refl].
    apply (Forall2_step _ _ (Jobs (reap_child g pid st))).
    + apply same_job_trans.
    + eapply Forall2_impl; [apply reap_child_jobs|].
      intros j j' [-> | (Hsame & _)]; [apply same_job_refl | exact Hsame].
    + apply IH.
Qed.

End ReaperInvariants.

Lemma reap_unknown_pid_is_noop_witness :
  @reap_child posix_headers
     (set_jobs_printers quiet [job_after_filter_failure] [blank_printer])
     99 512
  = set_jobs_printers quiet [job_after_filter_failure] [blank_printer].
Proof.
  apply (@reap_unknown_pid_is_noop posix_headers
           (set_jobs_printers quiet [job_after_filter_failure]
                              [blank_printer]) 99 512).
  reflexivity.
Defined.

Lemma reap_child_live_pids_witness :
  (total_live (Jobs (@reap_child posix_headers
      (set_jobs_printers quiet [job_after_filter_failure] [blank_printer])
      12 512)) + 1)%nat
  = total_live [job_after_filter_failure].
Proof.
  apply (@reap_child_live_pids posix_headers
           (set_jobs_printers quiet [job_after_filter_failure]
                              [blank_printer]) 12 512).
  lia.
Defined.

(** *** SIGHUP and the reload gate *)

Section SighupProps.
Context `{Headers}.

(** X5: after a SIGHUP caught at time [t] (every job having a state), the
    next pass of the main loop re-reads the configuration exactly when no
    client remains once the waiting ones are closed and no job is
    Processing, or when at least ReloadTimeout seconds have passed since
    the signal; otherwise it keeps waiting. *)
Theorem sighup_reload_waits_for_jobs g t now :
  RELOAD_ALL <> 0 ->
  jobs_have_state g ->
  let g1 := close_idle_clients (sighup_handler g t) in
  (reload_gate (sighup_handler g t) now = ReadConfiguration g1 <->
   (NumClients g1 = 0 /\ existsb is_processing (Jobs g) = false) \/
   ReloadTimeout g <= now - t) /\
  (reload_gate (sighup_handler g t) now = ReadConfiguration g1 \/
   reload_gate (sighup_handler g t) now = KeepWaiting g1).
Proof.
  intros Hall Hstate g1.
  destruct (SchedProps.close_idle_clients_keeps (sighup_handler g t))
    as (HJ & HN & HT & HTo).
  fold g1 in HJ, HN, HT, HTo. simpl in HJ, HN, HT, HTo.
  assert (Hgate : reload_gate (sighup_handler g t) now
                  = if restart_test g1 (existsb is_processing (Jobs g)) now
                    then ReadConfiguration g1 else KeepWaiting g1).
  { unfold reload_gate. cbn [NeedReload sighup_handler].
    unfold truthy. apply Z.eqb_neq in Hall. rewrite Hall. simpl.
    fold g1. rewrite HJ.
    rewrite (SchedProps.scan_jobs_total _ _ Hstate). reflexivity. }
  rewrite Hgate. unfold restart_test. rewrite HN, HT, HTo.
  rewrite Z.eqb_refl. simpl. rewrite orb_false_r.
  destruct ((NumClients g1 =? 0) && negb (existsb is_processing (Jobs g))
            || (now - t >=? ReloadTimeout g)) eqn:Hc.
  - split; [|left; reflexivity]. split; [intros _|reflexivity].
    apply orb_prop in Hc as [Hc|Hc].
    + apply andb_prop in Hc as [Hn Hp]. left.
      split; [apply Z.eqb_eq; exact Hn | apply negb_true_iff; exact Hp].
    + right. apply Z.geb_le. exact Hc.
  - split; [|right; reflexivity]. split; [discriminate|].
    apply orb_false_elim in Hc as [Hc1 Hc2].
    intros [[Hn Hp] | Hto].
    + apply Z.eqb_eq in Hn. rewrite Hn, Hp in Hc1. discriminate.
    + apply Z.geb_le in Hto. congruence.
Qed.

End SighupProps.

Lemma sighup_reload_waits_for_jobs_witness :
  @reload_gate posix_headers
     (@sighup_handler posix_headers partial_reload_pending 1000) 1010
  = KeepWaiting (@sighup_handler posix_headers partial_reload_pending 1000).
Proof.
  assert (Hall : @RELOAD_ALL posix_headers <> 0) by discriminate.
  assert (Hstate : jobs_have_state partial_reload_pending).
  { repeat constructor. discriminate. }
  destruct (@sighup_reload_waits_for_jobs posix_headers
              partial_reload_pending 1000 1010 Hall Hstate)
    as [Hiff [Hread | Hwait]].
  - apply Hiff in Hread. simpl in Hread.
    destruct Hread as [[_ Hp] | Hto]; [discriminate | lia].
  - exact Hwait.
Defined.

(** *** Waking up for the periodic work of [main] *)

Lemma fold_min_le_elem d (l : list Z) x :
  In x l -> fold_right Z.min d l <= x.
Proof.
  induction l as [|a l IH]; intros Hin; [destruct Hin|].
  simpl. destruct Hin as [-> | Hin]; [lia|]. specialize (IH Hin). lia.
Qed.

Section WakeProps.
Context `{Headers}.

(** Without a shortcut the timeout is computed from the earliest event. *)
Lemma select_timeout_unhurried g now :
  jobs_have_state g ->
  pending_data (Clients g) = false ->
  NumClients g <= 50 ->
  HAVE_NOTIFY_POST && truthy (NotifyPost g) = false ->
  select_timeout g 0 now
  = Some (Z.max 1 (Z.min 86400 (earliest_event g now - now + 1))).
Proof.
  intros Hstate Hpend Hnum Hnote. unfold select_timeout.
  rewrite Hpend, Hnote.
  replace (NumClients g >? 50) with false
    by (symmetry; rewrite Z.gtb_ltb; apply Z.ltb_ge; lia).
  simpl.
  pose proof (SchedProps.deadline_is_earliest g now Hstate) as Hd.
  destruct (job_deadline g now _) as [t|]; simpl in Hd; [|discriminate].
  injection Hd as Hd. rewrite Hd, SchedProps.clamp_timeout_spec.
  reflexivity.
Qed.

(** X6: when the idle deadline of a client (last activity + Timeout) is the
    earliest scheduled event, lies less than a day ahead, and no shortcut
    applies, then at the time the loop wakes from the select timeout the
    inactivity test of the client loop holds for that client (it has no
    pipe): the client is closed on that very pass. *)
Theorem wake_closes_idle_client g now con :
  jobs_have_state g ->
  pending_data (Clients g) = false ->
  NumClients g <= 50 ->
  HAVE_NOTIFY_POST && truthy (NotifyPost g) = false ->
  In con (Clients g) ->
  earliest_event g now = http_activity con + Timeout g ->
  http_activity con + Timeout g < now + 86400 ->
  exists t,
    select_timeout g 0 now = Some t /\
    idle_close_due g con 0 (now + t) = true.
Proof.
  intros Hstate Hpend Hnum Hnote _ Hearliest Hday.
  eexists. split;
    [apply (select_timeout_unhurried g now Hstate Hpend Hnum Hnote)|].
  unfold idle_close_due. rewrite Hearliest. simpl.
  rewrite andb_true_r. apply Z.ltb_lt. lia.
Qed.

(** X7: when the rotation time of the root certificate (RootCertTime +
    RootCertDuration, with a non-zero duration) is the earliest scheduled
    event and no shortcut applies, the rotation test of the main loop holds
    at the time the loop wakes from the select timeout. *)
Theorem wake_rotates_root_certificate g now :
  jobs_have_state g ->
  pending_data (Clients g) = false ->
  NumClients g <= 50 ->
  HAVE_NOTIFY_POST && truthy (NotifyPost g) = false ->
  RootCertDuration g <> 0 ->
  earliest_event g now = RootCertTime g + RootCertDuration g ->
  exists t,
    select_timeout g 0 now = Some t /\
    rootcert_due g (now + t) = true.
Proof.
  intros Hstate Hpend Hnum Hnote Hdur Hearliest.
  pose proof (SchedProps.earliest_event_le g now) as Hle.
  eexists. split;
    [apply (select_timeout_unhurried g now Hstate Hpend Hnum Hnote)|].
  unfold rootcert_due, truthy. rewrite Hearliest in *.
  apply Z.eqb_neq in Hdur. rewrite Hdur. simpl. rewrite andb_true_r.
  apply Z.geb_le. lia.
Qed.

(** X8: while a job is pending, held or processing (every job having a
    state), select_timeout never returns more than 11 seconds, whatever
    else is scheduled. *)
Theorem active_job_bounds_timeout g fds now t :
  jobs_have_state g ->
  existsb job_active (Jobs g) = true ->
  select_timeout g fds now = Some t ->
  t <= 11.
Proof.
  intros Hstate Hactive. unfold select_timeout.
  destruct (pending_data (Clients g)); [intros [= <-]; lia|].
  destruct (truthy fds || (NumClients g >? 50)); [intros [= <-]; lia|].
  destruct (HAVE_NOTIFY_POST && truthy (NotifyPost g));
    [intros [= <-]; lia|].
  pose proof (SchedProps.deadline_is_earliest g now Hstate) as Hd.
  destruct (job_deadline g now _) as [t'|]; simpl in Hd; [|discriminate].
  injection Hd as Hd. rewrite Hd, SchedProps.clamp_timeout_spec.
  intros [= <-].
  assert (Hten : earliest_event g now <= now + 10).
  { apply fold_min_le_elem. unfold scheduled_events.
    rewrite Hactive. rewrite !in_app_iff. right. right. left. left.
    reflexivity. }
  lia.
Qed.

End WakeProps.

Lemma wake_closes_idle_client_witness :
  exists t,
    @select_timeout posix_headers one_idle_client 0 995 = Some t /\
    idle_close_due one_idle_client idle_client 0 (995 + t) = true.
Proof.
  apply (@wake_closes_idle_client posix_headers one_idle_client 995
           idle_client).
  - constructor.
  - reflexivity.
  - vm_compute. discriminate.
  - reflexivity.
  - left. reflexivity.
  - reflexivity.
  - reflexivity.
Defined.

Lemma wake_rotates_root_certificate_witness :
  exists t,
    @select_timeout posix_headers overdue_certificate 0 250 = Some t /\
    rootcert_due overdue_certificate (250 + t) = true.
Proof.
  apply (@wake_rotates_root_certificate posix_headers overdue_certificate
           250).
  - constructor.
  - reflexivity.
  - vm_compute. discriminate.
  - reflexivity.
  - discriminate.
  - reflexivity.
Defined.

Lemma active_job_bounds_timeout_witness :
  @select_timeout posix_headers partial_reload_pending 0 1010 = Some 11 /\
  11 <= 11.
Proof.
  split; [reflexivity|].
  apply (@active_job_bounds_timeout posix_headers partial_reload_pending
           0 1010 11).
  - repeat constructor. discriminate.
  - reflexivity.
  - reflexivity.
Defined.

(** *** Descriptor limits *)

(** X9: for non-negative limits, MaxFDs is the smaller of the hard limit
    and CUPS_MAX_FDS, and the select sets allocated with SetSize bytes have
    a bit for every descriptor below MaxFDs, with at least 32 bits to
    spare, and are never smaller than an fd_set. *)
Theorem fd_sets_hold_MaxFDs rlim_max CUPS_MAX_FDS sizeof_fd_set :
  0 <= rlim_max ->
  0 <= CUPS_MAX_FDS ->
  let m := MaxFDs rlim_max CUPS_MAX_FDS in
  m = Z.min rlim_max CUPS_MAX_FDS /\
  m + 32 <= 8 * SetSize m sizeof_fd_set /\
  sizeof_fd_set <= SetSize m sizeof_fd_set.
Proof.
  intros Hr Hc m.
  assert (Hm : m = Z.min rlim_max CUPS_MAX_FDS).
  { unfold m, MaxFDs. destruct (rlim_max >? CUPS_MAX_FDS) eqn:Hgt;
      rewrite Z.gtb_ltb in Hgt;
      [apply Z.ltb_lt in Hgt | apply Z.ltb_ge in Hgt]; lia. }
  split; [exact Hm|].
  assert (Hm0 : 0 <= m) by lia.
  unfold SetSize. rewrite Z.quot_div_nonneg by lia.
  pose proof (Z.div_mod (m + 31) 8 ltac:(lia)) as Hdiv.
  pose proof (Z.mod_pos_bound (m + 31) 8 ltac:(lia)) as Hmod.
  destruct ((m + 31) / 8 + 4 <? sizeof_fd_set) eqn:Hlt;
    [apply Z.ltb_lt in Hlt | apply Z.ltb_ge in Hlt]; lia.
Qed.

Lemma fd_sets_hold_MaxFDs_witness :
  MaxFDs 1024 100000 = 1024 /\ SetSize 1024 128 = 135.
Proof.
  destruct (fd_sets_hold_MaxFDs 1024 100000 128) as (Hm & _ & _);
    [lia | lia |].
  split; [exact Hm | reflexivity].
Defined.

(** *** Pipes *)

(** [cupsdClosePipe] closes exactly the non-negative entries of the
    array, each once, and leaves both entries negative; a second call on
    the same array closes nothing. *)
Lemma cupsdClosePipe_closes_once fds :
  let '(fds', closed) := cupsdClosePipe fds in
  closed = filter (fun fd => 0 <= fd) [fst fds; snd fds] /\
  fst fds' < 0 /\ snd fds' < 0 /\
  cupsdClosePipe fds' = (fds', []).
Proof.
  destruct fds as [fd0 fd1]. unfold cupsdClosePipe. simpl.
  destruct (fd0 >=? 0) eqn:H0; destruct (fd1 >=? 0) eqn:H1;
    rewrite Z.geb_leb in H0, H1;
    try apply Z.leb_le in H0; try apply Z.leb_gt in H0;
    try apply Z.leb_le in H1; try apply Z.leb_gt in H1;
    simpl;
    repeat (rewrite filter_cons_True by lia);
    repeat (rewrite filter_cons_False by lia);
    repeat (rewrite filter_cons_True by lia);
    (split; [reflexivity|]); (split; [lia|]); (split; [lia|]);
    try reflexivity.
  - replace (fd1 >=? 0) with false
      by (symmetry; rewrite Z.geb_leb; apply Z.leb_gt; lia). reflexivity.
  - replace (fd0 >=? 0) with false
      by (symmetry; rewrite Z.geb_leb; apply Z.leb_gt; lia). reflexivity.
  - replace (fd0 >=? 0) with false
      by (symmetry; rewrite Z.geb_leb; apply Z.leb_gt; lia).
    replace (fd1 >=? 0) with false
      by (symmetry; rewrite Z.geb_leb; apply Z.leb_gt; lia). reflexivity.
Qed.

(** [cupsdOpenPipe] returns 0 or -1.  When it returns 0 the two
    descriptors made by pipe() are in the array, both marked close-on-exec,
    and nothing was closed; when it returns -1 every descriptor pipe() made
    has been closed again, so none leaks. *)
Lemma cupsdOpenPipe_no_leak fds a :
  let r := cupsdOpenPipe fds a in
  let made := if truthy (pipe_rc a)
              then [] else [fst (pipe_fds a); snd (pipe_fds a)] in
  (open_rc r = 0 /\ open_fds r = pipe_fds a /\ open_closed r = [] /\
   open_cloexec r = made /\ pipe_rc a = 0) \/
  (open_rc r = -1 /\ open_closed r = made).
Proof.
  unfold cupsdOpenPipe.
  destruct (truthy (pipe_rc a)) eqn:Hp; [right; split; reflexivity|].
  destruct (truthy (setfd0_rc a)); [right; split; reflexivity|].
  destruct (truthy (setfd1_rc a)); [right; split; reflexivity|].
  left. repeat split.
  unfold truthy in Hp. apply negb_false_iff in Hp.
  apply Z.eqb_eq in Hp. exact Hp.
Qed.

(** X10: when cupsdOpenPipe fails in fcntl, it has closed both descriptors
    but leaves their numbers in the array, so a cupsdClosePipe on that
    array hands the same two descriptors to close() a second time. *)
Theorem failed_open_then_close_closes_twice fds a :
  pipe_rc a = 0 ->
  0 <= fst (pipe_fds a) -> 0 <= snd (pipe_fds a) ->
  open_rc (cupsdOpenPipe fds a) = -1 ->
  open_closed (cupsdOpenPipe fds a) = [fst (pipe_fds a); snd (pipe_fds a)] /\
  snd (cupsdClosePipe (open_fds (cupsdOpenPipe fds a)))
  = [fst (pipe_fds a); snd (pipe_fds a)].
Proof.
  intros Hp H0 H1. unfold cupsdOpenPipe, truthy. rewrite Hp. simpl.
  assert (Hclose : snd (cupsdClosePipe (pipe_fds a))
                   = [fst (pipe_fds a); snd (pipe_fds a)]).
  { unfold cupsdClosePipe.
    replace (fst (pipe_fds a) >=? 0) with true
      by (symmetry; apply Z.geb_le; lia).
    replace (snd (pipe_fds a) >=? 0) with true
      by (symmetry; apply Z.geb_le; lia).
    reflexivity. }
  destruct (negb (setfd0_rc a =? 0)); [intros _; split; [reflexivity | exact Hclose]|].
  destruct (negb (setfd1_rc a =? 0)); [intros _; split; [reflexivity | exact Hclose]|].
  simpl. discriminate.
Qed.

Lemma failed_open_then_close_closes_twice_witness :
  let a := {| pipe_rc := 0; pipe_fds := (5, 6); setfd0_rc := 0;
              setfd1_rc := -1 |} in
  open_closed (cupsdOpenPipe (-1, -1) a) = [5; 6] /\
  snd (cupsdClosePipe (open_fds (cupsdOpenPipe (-1, -1) a))) = [5; 6].
Proof.
  intros a.
  apply (failed_open_then_close_closes_twice (-1, -1) a);
    [reflexivity | simpl; lia | simpl; lia | reflexivity].
Defined.

(** *** Status pipes *)

Lemma update_jobs_index pipes : forall i input x,
  In x (fst (update_jobs pipes i input)) -> (i <= x)%nat.
Proof.
  induction pipes as [|q rest IH]; intros i input x Hin; simpl in Hin;
    [destruct Hin|].
  destruct ((q >=? 0) && bool_decide (q ∈ input)).
  - destruct (update_jobs rest (S i) (input ∖ {[q]})) as [u inp] eqn:Hu.
    simpl in Hin. destruct Hin as [<- | Hin]; [lia|].
    specialize (IH (S i) (input ∖ {[q]}) x). rewrite Hu in IH.
    specialize (IH Hin). lia.
  - specialize (IH (S i) input x Hin). lia.
Qed.

Lemma update_jobs_serviced pipes : forall i (input : gset Z) k p,
  pipes !! k = Some p ->
  In (i + k)%nat (fst (update_jobs pipes i input)) <->
  0 <= p /\ p ∈ input /\ forall j, (j < k)%nat -> pipes !! j <> Some p.
Proof.
  induction pipes as [|q rest IH]; intros i input k p Hk; [discriminate|].
  simpl.
  destruct ((q >=? 0) && bool_decide (q ∈ input)) eqn:Hq.
  - apply andb_prop in Hq as [Hq0 Hqin].
    apply Z.geb_le in Hq0. apply bool_decide_eq_true in Hqin.
    destruct (update_jobs rest (S i) (input ∖ {[q]})) as [u inp] eqn:Hu.
    simpl. destruct k as [|k]; simpl in Hk.
    + injection Hk as ->. rewrite Nat.add_0_r. split.
      * intros _. split; [exact Hq0|]. split; [exact Hqin|]. intros j Hj. lia.
      * intros _. left. reflexivity.
    + specialize (IH (S i) (input ∖ {[q]}) k p Hk). rewrite Hu in IH.
      simpl in IH. replace (i + S k)%nat with (S i + k)%nat by lia. split.
      * intros [Heq | Hin]; [lia|]. apply IH in Hin as (Hp0 & Hpin & Hfirst).
        apply elem_of_difference in Hpin as [Hpin Hne].
        rewrite elem_of_singleton in Hne.
        split; [exact Hp0|]. split; [exact Hpin|].
        intros [|j] Hj; simpl.
        -- intros [= ->]. apply Hne. reflexivity.
        -- apply Hfirst. lia.
      * intros (Hp0 & Hpin & Hfirst). right. apply IH.
        split; [exact Hp0|]. split.
        -- apply elem_of_difference. split; [exact Hpin|].
           rewrite elem_of_singleton. intros ->.
           apply (Hfirst 0%nat); [lia | reflexivity].
        -- intros j Hj. apply (Hfirst (S j)). lia.
  - destruct k as [|k]; simpl in Hk.
    + injection Hk as ->. rewrite Nat.add_0_r. split.
      * intros Hin. apply update_jobs_index in Hin. lia.
      * intros (Hp0 & Hpin & _). exfalso.
        apply andb_false_iff in Hq as [Hq | Hq].
        -- rewrite Z.geb_leb in Hq. apply Z.leb_gt in Hq. lia.
        -- apply bool_decide_eq_false in Hq. contradiction.
    + specialize (IH (S i) input k p Hk).
      replace (i + S k)%nat with (S i + k)%nat by lia. split.
      * intros Hin. apply IH in Hin as (Hp0 & Hpin & Hfirst).
        split; [exact Hp0|]. split; [exact Hpin|].
        intros [|j] Hj; simpl.
        -- intros [= ->].
           apply andb_false_iff in Hq as [Hq | Hq].
           ++ rewrite Z.geb_leb in Hq. apply Z.leb_gt in Hq. lia.
           ++ apply bool_decide_eq_false in Hq. contradiction.
        -- apply Hfirst. lia.
      * intros (Hp0 & Hpin & Hfirst). apply IH.
        split; [exact Hp0|]. split; [exact Hpin|].
        intros j Hj. apply (Hfirst (S j)). lia.
Qed.

(** X11: in one pass of the job loop of main, the job at position [k] is
    handed to UpdateJob exactly when its status pipe is a valid descriptor
    that select reported readable and no earlier job has the same
    descriptor: a descriptor shared by several jobs is serviced once, for
    the first of them. *)
Theorem status_pipe_serviced_once pipes (input : gset Z) k p :
  pipes !! k = Some p ->
  In k (fst (update_jobs pipes 0 input)) <->
  0 <= p /\ p ∈ input /\ forall j, (j < k)%nat -> pipes !! j <> Some p.
Proof. intros Hk. apply (update_jobs_serviced pipes 0 input k p Hk). Qed.

Lemma status_pipe_serviced_once_witness :
  fst (update_jobs [7; -1; 7; 9] 0 {[7; 9]}) = [0%nat; 3%nat] /\
  ~ In 2%nat (fst (update_jobs [7; -1; 7; 9] 0 {[7; 9]})).
Proof.
  split; [vm_compute; reflexivity|].
  intros Hin.
  apply (status_pipe_serviced_once [7; -1; 7; 9] {[7; 9]} 2 7) in Hin;
    [|reflexivity].
  destruct Hin as (_ & _ & Hfirst).
  apply (Hfirst 0%nat); [lia | reflexivity].
Defined.

End SchedExtProps.

Module UsbExtProps.
Import Usb UsbExt.

(** *** Opening and closing the device *)

Lemma count_call_app c l1 l2 :
  count_call c (l1 ++ l2) = (count_call c l1 + count_call c l2)%nat.
Proof. unfold count_call. now rewrite filter_app, length_app. Qed.

Ltac open_cases :=
  unfold open_device, detach_usblp, open_error, state_message;
  repeat match goal with
         | |- context [if ?b then _ else _] => destruct b eqn:?
         end.

(** X14: [open_device] either succeeds, returning 0 with the handle open
    and without having closed it, or fails, returning -1 with the handle
    cleared; when it fails after [libusb_open] succeeded it has closed the
    handle exactly once, so no open handle is ever left behind a failure. *)
Theorem open_device_all_or_nothing pr verbose a :
  let '(rc, pr', calls) := open_device pr verbose a in
  (rc = 0 /\ handle pr' = true /\ count_call LibusbClose calls = 0%nat) \/
  (rc = -1 /\ handle pr' = false /\
   count_call LibusbClose calls =
     if libusb_open_rc a <? 0 then 0%nat else 1%nat).
Proof.
  open_cases; cbn; try (left; split; [reflexivity|split; [assumption || reflexivity|reflexivity]]);
    try (right; split; [reflexivity|split; [assumption || reflexivity|reflexivity]]).
Qed.

(** X15: whenever [open_device] announces "+connecting-to-device" it also
    withdraws it before returning, on the success path and on every error
    path alike; it writes the pair exactly when it was asked to be verbose
    and [libusb_open] succeeded on a printer that was not yet open. *)
Theorem connecting_state_is_withdrawn pr verbose a :
  state_messages (snd (open_device pr verbose a)) =
    if negb (handle pr) && (0 <=? libusb_open_rc a) && truthy verbose
    then [true; false] else [].
Proof.
  open_cases; cbn; try reflexivity; exfalso; lia.
Qed.

(** X16: the configuration descriptor that [open_device] obtains is freed
    exactly once when it succeeds, and is not freed at all on the error
    path taken after [libusb_open] succeeded. *)
Theorem config_descriptor_freed_on_success_only pr verbose a :
  handle pr = false -> 0 <= libusb_open_rc a ->
  let '(rc, _, calls) := open_device pr verbose a in
  count_call GetConfigDescriptor calls = 1%nat /\
  count_call FreeConfigDescriptor calls = if rc =? 0 then 1%nat else 0%nat.
Proof.
  intros Hh Ho. open_cases; cbn; try (split; reflexivity);
    try discriminate; exfalso; lia.
Qed.

Lemma config_descriptor_freed_on_success_only_witness :
  let '(rc, _, calls) := open_device closed_printer 1 usblp_bound in
  count_call GetConfigDescriptor calls = 1%nat /\
  count_call FreeConfigDescriptor calls = if rc =? 0 then 1%nat else 0%nat.
Proof.
  apply (config_descriptor_freed_on_success_only closed_printer 1
           usblp_bound); [reflexivity | vm_compute; discriminate].
Defined.

(** Closing is safe to repeat: [close_device] always returns 0 and
    leaves the handle cleared, and a second call on the result makes no
    call on the device at all, so the handle is never closed twice. *)
Lemma close_device_idempotent pr number number' :
  let '(rc, pr1, calls) := close_device pr number in
  rc = 0 /\ handle pr1 = false /\
  count_call LibusbClose calls = (if handle pr then 1%nat else 0%nat) /\
  close_device pr1 number' = (0, pr1, []).
Proof.
  unfold close_device.
  destruct (handle pr) eqn:Hh.
  - destruct (negb (number =? 0)), (usblp_attached pr =? 1); cbn;
      repeat split.
  - cbn. rewrite Hh. repeat split.
Qed.

Lemma count_call_cons c x l :
  count_call c (x :: l) =
  ((if decide (x = c) then 1 else 0) + count_call c l)%nat.
Proof.
  unfold count_call. rewrite filter_cons.
  destruct (decide (x = c)); reflexivity.
Qed.

Ltac count_calls :=
  rewrite ?count_call_app, ?count_call_cons;
  change (count_call _ []) with 0%nat;
  repeat (case_decide; try discriminate; try congruence);
  try reflexivity.

(** What a successful [open_device] has done. *)
Lemma open_device_success pr verbose a pr1 calls1 :
  handle pr = false ->
  open_device pr verbose a = (0, pr1, calls1) ->
  pr1 = set_usblp_attached (set_handle pr true)
          (if kernel_driver_active_rc a =? 0 then 0 else 1) /\
  In (ClaimInterface (bInterfaceNumber a)) calls1 /\
  count_call (DetachKernelDriver (iface pr)) calls1 =
    (if kernel_driver_active_rc a =? 0 then 0%nat else 1%nat) /\
  count_call LibusbClose calls1 = 0%nat.
Proof.
  intros Hh. open_cases; intros E; inversion E; subst; clear E;
    try discriminate.
  all: split; [reflexivity|].
  all: split; [rewrite ?in_app_iff; cbn; auto 20|].
  all: split; cbn [iface set_handle set_usblp_attached]; count_calls.
Qed.

(** X17: a successful [open_device] followed by [close_device] undoes what
    was done: the interface that was claimed is released, the "usblp"
    kernel driver is re-attached exactly when opening detached it, and the
    handle is closed once. *)
Theorem open_then_close_restores pr verbose a pr1 calls1 :
  handle pr = false ->
  open_device pr verbose a = (0, pr1, calls1) ->
  let '(rc, pr2, calls2) := close_device pr1 (bInterfaceNumber a) in
  rc = 0 /\ handle pr2 = false /\
  In (ClaimInterface (bInterfaceNumber a)) calls1 /\
  In (ReleaseInterface (bInterfaceNumber a)) calls2 /\
  count_call (AttachKernelDriver (iface pr)) calls2 =
    count_call (DetachKernelDriver (iface pr)) calls1 /\
  count_call LibusbClose (calls1 ++ calls2) = 1%nat.
Proof.
  intros Hh Ho.
  destruct (open_device_success _ _ _ _ _ Hh Ho) as (-> & Hc & Hd & Hk).
  unfold close_device.
  cbn [handle set_handle set_usblp_attached usblp_attached iface].
  split; [reflexivity|]. split; [reflexivity|]. split; [exact Hc|].
  split; [cbn; auto|].
  split.
  - rewrite Hd.
    destruct (negb (bInterfaceNumber a =? 0)),
             (kernel_driver_active_rc a =? 0); cbn [Z.eqb Pos.eqb app];
      count_calls.
  - rewrite (count_call_app _ calls1), Hk.
    destruct (negb (bInterfaceNumber a =? 0)),
             (kernel_driver_active_rc a =? 0); cbn [Z.eqb Pos.eqb app];
      count_calls.
Qed.

Lemma open_then_close_restores_witness :
  let pr1 := snd (fst (open_device closed_printer 1 usblp_bound)) in
  let calls1 := snd (open_device closed_printer 1 usblp_bound) in
  let '(rc, pr2, calls2) := close_device pr1 (bInterfaceNumber usblp_bound) in
  rc = 0 /\ handle pr2 = false /\
  In (ClaimInterface (bInterfaceNumber usblp_bound)) calls1 /\
  In (ReleaseInterface (bInterfaceNumber usblp_bound)) calls2 /\
  count_call (AttachKernelDriver (iface closed_printer)) calls2 =
    count_call (DetachKernelDriver (iface closed_printer)) calls1 /\
  count_call LibusbClose (calls1 ++ calls2) = 1%nat.
Proof.
  apply (open_then_close_restores closed_printer 1 usblp_bound);
    vm_compute; reflexivity.
Defined.

(** *** Writer loop *)


(** A pass that ends the copy without failing it leaves nothing unsent. *)
Lemma writer_pass_break_ok w a w' :
  writer_pass w a = BreakLoop w' ->
  status w' = CUPS_BACKEND_FAILED \/
  (status w' = status w /\ print_bytes (g w') = 0).
Proof.
  unfold writer_pass.
  destruct (_ && _ && (total_bytes w =? 0)); [discriminate|].
  destruct ((nfds a <? 0) && _ && _); [discriminate|].
  assert (Hd : status (drain_phase w a) = status w).
  { unfold drain_phase. destruct (_ && _ && _); reflexivity. }
  revert Hd. generalize (drain_phase w a). intros d Hd.
  assert (Hw : forall v : writer,
             write_phase v a = BreakLoop w' ->
             status w' = CUPS_BACKEND_FAILED).
  { intros v. unfold write_phase, bulk_write.
    destruct (truthy (print_bytes (g v))); [|discriminate].
    destruct (transfer_with_retry a) as [[io bytes] calls].
    destruct (negb (is_status io LIBUSB_SUCCESS)); [|discriminate].
    intros E. inversion E. reflexivity. }
  unfold read_phase.
  destruct (_ && fd_ready a).
  - destruct (read_ret a <? 0).
    + destruct (_ && _); [discriminate|]. intros E. left. exact (Hw _ E).
    + destruct (read_ret a =? 0).
      * intros E. inversion E. right. cbn. auto.
      * intros E. left. exact (Hw _ E).
  - intros E. left. exact (Hw _ E).
Qed.

Lemma writer_pass_next_status w a w' :
  writer_pass w a = NextPass w' -> status w' = status w.
Proof.
  unfold writer_pass.
  destruct (_ && _ && (total_bytes w =? 0)); [discriminate|].
  destruct ((nfds a <? 0) && _ && _); [discriminate|].
  assert (Hd : status (drain_phase w a) = status w).
  { unfold drain_phase. destruct (_ && _ && _); reflexivity. }
  revert Hd. generalize (drain_phase w a). intros d Hd.
  assert (Hw : forall v : writer,
             write_phase v a = NextPass w' -> status w' = status v).
  { intros v. unfold write_phase, bulk_write.
    destruct (truthy (print_bytes (g v))).
    - destruct (transfer_with_retry a) as [[io bytes] calls].
      destruct (negb (is_status io LIBUSB_SUCCESS)); [discriminate|].
      intros E. inversion E. unfold count_transfer.
      destruct (bytes >? 0); reflexivity.
    - intros E. inversion E. reflexivity. }
  unfold read_phase.
  destruct (_ && fd_ready a).
  - destruct (read_ret a <? 0).
    + destruct (_ && _); [discriminate|]. intros E.
      rewrite (Hw _ E). exact Hd.
    + destruct (read_ret a =? 0); [discriminate|].
      intros E. rewrite (Hw _ E). exact Hd.
  - intros E. rewrite (Hw _ E). exact Hd.
Qed.

Lemma writer_pass_return_code w a code wc calls :
  writer_pass w a = CloseAndReturn code wc calls ->
  code = CUPS_BACKEND_OK \/ code = CUPS_BACKEND_FAILED.
Proof.
  unfold writer_pass, close_and_return.
  destruct (_ && _ && (total_bytes w =? 0)); [intros [= <-]; auto|].
  destruct ((nfds a <? 0) && _ && _); [intros [= <-]; auto|].
  generalize (drain_phase w a). intros d.
  assert (Hw : forall v : writer,
             write_phase v a <> CloseAndReturn code wc calls).
  { intros v. unfold write_phase, bulk_write.
    destruct (truthy (print_bytes (g v))); [|discriminate].
    destruct (transfer_with_retry a) as [[io bytes] n].
    destruct (negb (is_status io LIBUSB_SUCCESS)); discriminate. }
  unfold read_phase, close_and_return.
  destruct (_ && fd_ready a).
  - destruct (read_ret a <? 0).
    + destruct (_ && _); [intros [= <-]; auto|]. intros E. now apply Hw in E.
    + destruct (read_ret a =? 0); [discriminate|].
      intros E. now apply Hw in E.
  - intros E. now apply Hw in E.
Qed.




Lemma copy_loop_status script : forall w w1 rest,
  status w = CUPS_BACKEND_OK ->
  copy_loop w script = CopyEnded w1 rest ->
  status w1 = CUPS_BACKEND_OK \/ status w1 = CUPS_BACKEND_FAILED.
Proof.
  induction script as [|a script IH]; intros w w1 rest Hw; cbn;
    rewrite Hw; cbn; [discriminate|].
  destruct (writer_pass w a) as [w2|w2|code] eqn:Hp; [| |discriminate].
  - apply IH. now rewrite (writer_pass_next_status _ _ _ Hp).
  - intros [= <- <-].
    destruct (writer_pass_break_ok _ _ _ Hp) as [Hf|[Hs _]]; [auto|].
    left. congruence.
Qed.

Lemma copy_loop_returned script : forall w code wc calls,
  copy_loop w script = Returned code wc calls ->
  code = CUPS_BACKEND_OK \/ code = CUPS_BACKEND_FAILED.
Proof.
  induction script as [|a script IH]; intros w code wc calls; cbn;
    destruct (backend_ok (status w)); try discriminate.
  destruct (writer_pass w a) as [w2|w2|code' wc' calls'] eqn:Hp;
    [|discriminate|].
  - apply IH.
  - intros [= <- _ _]. exact (writer_pass_return_code _ _ _ _ _ Hp).
Qed.

(** X19: whatever the device, the job file and [select] answer, the
    sending loops of [print_device] end with the status OK or FAILED: they
    never ask the scheduler to stop the queue, hold or cancel the job or
    ask for authentication. *)
Theorem sending_ends_ok_or_failed copies : forall w script code w',
  status w = CUPS_BACKEND_OK ->
  print_copies copies w script = Some (code, w') ->
  code = CUPS_BACKEND_OK \/ code = CUPS_BACKEND_FAILED.
Proof.
  induction copies as [|copies IH]; intros w script code w' Hw; cbn;
    rewrite Hw; cbn.
  - intros [= <- _]. auto.
  - destruct (copy_loop w script) as [w1 rest|code' wc calls|w1] eqn:Hc;
      [| |discriminate].
    + destruct (copy_loop_status _ _ _ _ Hw Hc) as [Hs|Hs].
      * apply IH. exact Hs.
      * destruct copies; cbn; rewrite Hs; cbn; intros [= <- _]; auto.
    + intros [= <- _]. exact (copy_loop_returned _ _ _ _ _ Hc).
Qed.

Lemma sending_ends_ok_or_failed_witness :
  CUPS_BACKEND_FAILED = CUPS_BACKEND_OK \/
  CUPS_BACKEND_FAILED = CUPS_BACKEND_FAILED.
Proof.
  apply (sending_ends_ok_or_failed 1 (writer_init open_printer 3)
           [pass_answers 100 (LIBUSB_ERROR_PIPE, 0)
                         (LIBUSB_ERROR_TIMEOUT, 100)]
           CUPS_BACKEND_FAILED
           {| g := set_print_bytes (globals_init open_printer 3) 100;
              total_bytes := 0; print_ptr := 0;
              status := CUPS_BACKEND_FAILED;
              bulk_calls := 2; drain_replies := 0 |});
    vm_compute; reflexivity.
Defined.

Lemma drain_phase_idle w a :
  truthy (nfds a) = true -> drain_phase w a = w.
Proof.
  intros Hn. unfold drain_phase. rewrite Hn.
  now rewrite andb_false_r.
Qed.

Lemma clean_pass w n :
  print_bytes (g w) = 0 -> 0 < n ->
  writer_pass w (pass_answers n (LIBUSB_SUCCESS, n) (LIBUSB_SUCCESS, 0))
  = NextPass (count_transfer (with_print_bytes w n 0) 1 n).
Proof.
  intros Hz Hn.
  rewrite UsbProps.writer_pass_reads_then_writes; cbn; try lia; auto.
  now rewrite drain_phase_idle.
Qed.

Lemma end_of_file_pass w :
  print_bytes (g w) = 0 ->
  writer_pass w (pass_answers 0 (LIBUSB_SUCCESS, 0) (LIBUSB_SUCCESS, 0))
  = BreakLoop (with_print_bytes w 0 (print_ptr w)).
Proof.
  intros Hz. unfold writer_pass. cbn. rewrite drain_phase_idle by reflexivity.
  unfold truthy. rewrite Hz. reflexivity.
Qed.

Lemma clean_copy chunks : forall w,
  status w = CUPS_BACKEND_OK ->
  print_bytes (g w) = 0 ->
  Forall (fun n => 0 < n) chunks ->
  exists w',
    copy_loop w (clean_script chunks) = CopyEnded w' [] /\
    status w' = CUPS_BACKEND_OK /\
    total_bytes w' = total_bytes w + foldr Z.add 0 chunks /\
    bulk_calls w' = (length chunks + bulk_calls w)%nat /\
    drain_replies w' = drain_replies w /\
    print_bytes (g w') = 0.
Proof.
  induction chunks as [|n chunks IH]; intros w Hw Hz Hpos.
  - unfold clean_script. cbn [map app copy_loop]. rewrite Hw. cbn [backend_ok].
    rewrite end_of_file_pass by exact Hz.
    eexists. split; [reflexivity|]. cbn. repeat split; auto; lia.
  - inversion Hpos as [|? ? Hn Hrest]; subst.
    unfold clean_script. cbn [map app copy_loop]. rewrite Hw. cbn [backend_ok].
    rewrite clean_pass by assumption.
    destruct (IH (count_transfer (with_print_bytes w n 0) 1 n))
      as (w' & Hc & Hs & Ht & Hb & Hd & Hp).
    + unfold count_transfer. destruct (n >? 0); exact Hw.
    + unfold count_transfer. replace (n >? 0) with true by lia. cbn. lia.
    + exact Hrest.
    + exists w'. split; [exact Hc|].
      unfold count_transfer in Ht, Hb, Hd.
      replace (n >? 0) with true in Ht, Hb, Hd by lia.
      cbn in Ht, Hb, Hd. cbn [foldr length].
      repeat split; auto; lia.
Qed.

(** X20: a run without incident prints the whole file: when each chunk
    read from the job file is written whole by its bulk transfer and the
    file then ends, [print_device]'s loops end with status OK, the byte
    total is the sum of the chunks, one transfer was issued per chunk and
    nothing is left unsent. *)
Theorem clean_run_sends_everything pr fd chunks :
  Forall (fun n => 0 < n) chunks ->
  exists w',
    print_copies 1 (writer_init pr fd) (clean_script chunks)
      = Some (CUPS_BACKEND_OK, w') /\
    total_bytes w' = foldr Z.add 0 chunks /\
    bulk_calls w' = length chunks /\
    print_bytes (g w') = 0.
Proof.
  intros Hpos.
  destruct (clean_copy chunks (writer_init pr fd) eq_refl eq_refl Hpos)
    as (w' & Hc & Hs & Ht & Hb & _ & Hp).
  exists w'. cbn [print_copies writer_init status backend_ok].
  rewrite Hc, Hs. cbn [backend_ok].
  split; [reflexivity|]. cbn in Ht, Hb. repeat split; try lia; auto.
Qed.

Lemma clean_run_sends_everything_witness :
  exists w',
    print_copies 1 (writer_init open_printer 3) (clean_script [100; 50])
      = Some (CUPS_BACKEND_OK, w') /\
    total_bytes w' = foldr Z.add 0 [100; 50] /\
    bulk_calls w' = length [100; 50] /\
    print_bytes (g w') = 0.
Proof.
  apply (clean_run_sends_everything open_printer 3 [100; 50]).
  repeat constructor.
Defined.

(** *** Side channel *)

Section SideChannelExt.
Context `{Headers}.

(** X21: a DRAIN_OUTPUT request is not answered by the side-channel thread
    but by the writer.  Once the request has set [g.drain_output] the
    writer no longer blocks in [select]; a pass in which [select] reports
    nothing and no unsent bytes remain sends the one reply and clears the
    flag, and any other pass sends no reply and leaves the flag set. *)
Theorem drain_request_answered_exactly_when_idle w st rc buf a w2 :
  let r := sidechannel_command (g w) CUPS_SC_CMD_DRAIN_OUTPUT st rc buf in
  let w1 := set_g w (res_globals r) in
  writer_pass w1 a = NextPass w2 \/ writer_pass w1 a = BreakLoop w2 ->
  res_replies r = [] /\
  writer_select_timeout w1 <> None /\
  if (nfds a =? 0) && (print_bytes (g w) =? 0)
  then drain_replies w2 = S (drain_replies w) /\ drain_output (g w2) = 0
  else drain_replies w2 = drain_replies w /\ drain_output (g w2) = 1.
Proof.
  cbn. intros Hpass.
  split; [reflexivity|].
  split.
  { unfold writer_select_timeout. cbn.
    destruct (truthy (print_bytes (g w))); discriminate. }
  revert Hpass. unfold writer_pass.
  destruct (_ && _ && (total_bytes _ =? 0)); [intros [?|?]; discriminate|].
  destruct ((nfds a <? 0) && _ && _); [intros [?|?]; discriminate|].
  set (w1 := set_g w (set_drain_output (g w) 1)).
  assert (Hd : if (nfds a =? 0) && (print_bytes (g w) =? 0)
               then drain_replies (drain_phase w1 a) = S (drain_replies w) /\
                    drain_output (g (drain_phase w1 a)) = 0
               else drain_replies (drain_phase w1 a) = drain_replies w /\
                    drain_output (g (drain_phase w1 a)) = 1).
  { unfold drain_phase, truthy. cbn.
    destruct (nfds a =? 0), (print_bytes (g w) =? 0); cbn; auto. }
  revert Hd. generalize (drain_phase w1 a). intros d Hd.
  assert (Hw : forall v : writer,
             write_phase v a = NextPass w2 \/ write_phase v a = BreakLoop w2 ->
             drain_replies w2 = drain_replies v /\
             drain_output (g w2) = drain_output (g v)).
  { intros v. unfold write_phase, bulk_write.
    destruct (truthy (print_bytes (g v))).
    - destruct (transfer_with_retry a) as [[io bytes] calls].
      destruct (negb (is_status io LIBUSB_SUCCESS)).
      + intros [?|E]; [discriminate|]. inversion E. auto.
      + intros [E|?]; [|discriminate]. inversion E.
        unfold count_transfer. destruct (bytes >? 0); auto.
    - intros [E|?]; [|discriminate]. inversion E. auto. }
  assert (Hfin : drain_replies w2 = drain_replies d /\
                 drain_output (g w2) = drain_output (g d) ->
                 if (nfds a =? 0) && (print_bytes (g w) =? 0)
                 then drain_replies w2 = S (drain_replies w) /\
                      drain_output (g w2) = 0
                 else drain_replies w2 = drain_replies w /\
                      drain_output (g w2) = 1).
  { intros [E1 E2]. rewrite E1, E2. exact Hd. }
  unfold read_phase.
  destruct (_ && fd_ready a).
  - destruct (read_ret a <? 0).
    + destruct (negb (is_errno (read_errno a) EAGAIN) && _);
        [intros [?|?]; discriminate|].
      intros E. apply Hw in E. apply Hfin. exact E.
    + destruct (read_ret a =? 0).
      * intros [?|E]; [discriminate|]. injection E as E.
        apply Hfin. rewrite <- E. auto.
      * intros E. apply Hw in E. apply Hfin. exact E.
  - intros E. apply Hw in E. apply Hfin. exact E.
Qed.

Lemma strlen_le_terminator (data : list Z) n :
  data !! n = Some 0 -> (length (c_string data) <= n)%nat.
Proof.
  revert n. induction data as [|c data IH]; intros n Hn; [discriminate|].
  cbn. destruct (c =? 0) eqn:Hc; [cbn; lia|].
  destruct n as [|n]; cbn in Hn.
  - injection Hn as ->. discriminate.
  - cbn. apply IH in Hn. lia.
Qed.

Lemma device_id_reply_bound rc buffer :
  length buffer = 2048%nat ->
  let '(failed, data) := get_device_id rc buffer 2048 in
  truthy failed = false ->
  (length (c_string data) <= 2046)%nat.
Proof.
  intros Hlen. rewrite UsbProps.get_device_id_unfold.
  destruct (rc <? 0); [discriminate|].
  destruct (decoded_length buffer 2048 <? 14) eqn:Hd; [discriminate|].
  intros _.
  assert (decoded_length buffer 2048 <= 2048) as Hle.
  { unfold decoded_length. cbv zeta. apply Z.le_min_r. }
  set (n := Z.to_nat (decoded_length buffer 2048 - 2)).
  assert (n <= 2046)%nat by lia.
  assert (<[n := 0]> (memmove_2 buffer n) !! n = Some 0) as Ht.
  { apply list_lookup_insert_eq. unfold memmove_2.
    rewrite length_app, length_take, !length_drop. lia. }
  apply strlen_le_terminator in Ht. lia.
Qed.

(** X22: every command read from the side channel other than DRAIN_OUTPUT
    is answered exactly once, with the command echoed and the status OK
    or, for a command the backend does not handle, NOT_IMPLEMENTED; the
    reply never carries more than 2046 bytes, a device reset is issued for
    SOFT_RESET only, and the printer the globals point to is never
    changed.  DRAIN_OUTPUT gets no reply from this thread. *)
Theorem side_channel_reply_shape gl command st rc buffer :
  length buffer = 2048%nat ->
  let r := sidechannel_command gl command st rc buffer in
  printer (res_globals r) = printer gl /\
  (res_resets r = 1%nat <-> command = CUPS_SC_CMD_SOFT_RESET) /\
  (command = CUPS_SC_CMD_DRAIN_OUTPUT -> res_replies r = []) /\
  (command <> CUPS_SC_CMD_DRAIN_OUTPUT ->
   exists reply,
     res_replies r = [reply] /\
     r_command reply = command /\
     (r_status reply = CUPS_SC_STATUS_OK \/
      r_status reply = CUPS_SC_STATUS_NOT_IMPLEMENTED) /\
     (length (r_data reply) <= 2046)%nat).
Proof.
  intros Hlen.
  destruct command; cbn;
    try (split; [reflexivity|]; split; [split; congruence|];
         split; [congruence|]; intros _; eexists; split; [reflexivity|];
         split; [reflexivity|]; split; [auto|simpl; lia]).
  - split; [reflexivity|]. split; [split; congruence|].
    split; [reflexivity|]. congruence.
  - pose proof (device_id_reply_bound rc buffer Hlen) as Hb.
    destruct (get_device_id rc buffer 2048) as [failed data].
    destruct (truthy failed) eqn:Hf; cbn;
      (split; [reflexivity|]; split; [split; congruence|];
       split; [congruence|]; intros _; eexists; split; [reflexivity|];
       split; [reflexivity|]; split; [auto|]); simpl.
    + lia.
    + rewrite length_take. unfold strlen. specialize (Hb eq_refl). lia.
Qed.

End SideChannelExt.

Lemma drain_request_answered_exactly_when_idle_witness :
  let w1 := set_g writer_after_ten
              (set_drain_output (g writer_after_ten) 1) in
  let w2 := drain_phase w1
              (residue_answers (LIBUSB_SUCCESS, 0) (LIBUSB_SUCCESS, 0)) in
  drain_replies w2 = S (drain_replies writer_after_ten) /\
  drain_output (g w2) = 0.
Proof.
  exact (proj2 (proj2
    (@drain_request_answered_exactly_when_idle libusb_headers
       writer_after_ten CUPS_SC_STATUS_NONE 0 []
       (residue_answers (LIBUSB_SUCCESS, 0) (LIBUSB_SUCCESS, 0))
       _ (or_introl eq_refl)))).
Defined.

Lemma side_channel_reply_shape_witness :
  exists reply,
    res_replies
      (@sidechannel_command libusb_headers idle_side_channel
         CUPS_SC_CMD_GET_DEVICE_ID CUPS_SC_STATUS_NONE (-1)
         (replicate 2048 0)) = [reply] /\
    r_command reply = CUPS_SC_CMD_GET_DEVICE_ID /\
    (r_status reply = CUPS_SC_STATUS_OK \/
     r_status reply = CUPS_SC_STATUS_NOT_IMPLEMENTED) /\
    (length (r_data reply) <= 2046)%nat.
Proof.
  apply (@side_channel_reply_shape libusb_headers idle_side_channel
           CUPS_SC_CMD_GET_DEVICE_ID CUPS_SC_STATUS_NONE (-1)
           (replicate 2048 0)).
  - vm_compute. reflexivity.
  - discriminate.
Defined.

(** *** Device finder *)

Section FinderExt.
Context `{Headers}.

Lemma write_endp_test_passes eps :
  (snd (scan_endpoints eps 0 (uint8 (-1)) (uint8 (-1))) >=? 0) = true.
Proof.
  pose proof (UsbProps.scan_endpoints_write_nonneg eps 0 (uint8 (-1))
                (uint8 (-1))) as Hw.
  pose proof (UsbProps.uint8_range (-1)). lia.
Qed.

(** The protocol the alternate-setting loop ends with: the one it started
    with when no alternate setting of the printer class reaches it, and
    otherwise the highest protocol among those of the printer class. *)
Lemma scan_altsettings_protocol alts : forall a p pr,
  0 <= p <= 2 ->
  (scan_altsettings alts a p pr = (p, pr) /\
   forall alt, In alt alts -> printer_class alt = true ->
               bInterfaceProtocol alt < p) \/
  (p <= fst (scan_altsettings alts a p pr) /\
   (exists alt, In alt alts /\ printer_class alt = true /\
                bInterfaceProtocol alt = fst (scan_altsettings alts a p pr)) /\
   forall alt, In alt alts -> printer_class alt = true ->
               bInterfaceProtocol alt <= fst (scan_altsettings alts a p pr)).
Proof.
  induction alts as [|alt alts IH]; intros a p pr Hp.
  - left. split; [reflexivity|]. intros ? [].
  - cbn [scan_altsettings]. rewrite UsbProps.skip_altsetting_class.
    destruct (printer_class alt) eqn:Hc; cbn [negb orb].
    + destruct (bInterfaceProtocol alt <? p) eqn:Hlt.
      * destruct (IH (S a) p pr Hp) as [[E Hall]|(Hle & Hex & Hmax)].
        -- left. split; [exact E|].
           intros alt' [<-|Hin] Hc'; [lia|auto].
        -- right. split; [exact Hle|]. split.
           ++ destruct Hex as (alt' & Hin & Hc' & E).
              exists alt'. cbn. auto.
           ++ intros alt' [<-|Hin] Hc'; [lia|auto].
      * destruct (scan_endpoints (endpoint alt) 0 (uint8 (-1)) (uint8 (-1)))
          as [r wr] eqn:Hs.
        pose proof (write_endp_test_passes (endpoint alt)) as Hw.
        rewrite Hs in Hw. cbn in Hw. rewrite Hw.
        destruct (UsbProps.printer_class_protocol alt Hc) as [P|P].
        all: rewrite P; change (uint8 1) with 1; change (uint8 2) with 2.
        all: right.
        all: match goal with
             | |- context [scan_altsettings _ ?n ?q ?pr1] =>
                 destruct (IH n q pr1 ltac:(lia))
                   as [[E Hall]|(Hle & Hex & Hmax)]
             end.
        all: try (rewrite E; cbn [fst]; split; [lia|]; split;
                  [exists alt; cbn; auto|];
                  intros alt' [<-|Hin] Hc'; [lia|];
                  specialize (Hall alt' Hin Hc'); lia).
        all: split; [lia|]; split;
          [destruct Hex as (alt' & Hin & Hc' & E); exists alt'; cbn; auto|];
          intros alt' [<-|Hin] Hc'; [lia|auto].
    + destruct (IH (S a) p pr Hp) as [[E Hall]|(Hle & Hex & Hmax)].
      * left. split; [exact E|].
        intros alt' [<-|Hin] Hc'; [congruence|auto].
      * right. split; [exact Hle|]. split.
        -- destruct Hex as (alt' & Hin & Hc' & E).
           exists alt'. cbn. auto.
        -- intros alt' [<-|Hin] Hc'; [congruence|auto].
Qed.

(** X23: an interface with at most 255 alternate settings (for which the
    alt-setting loop comes to an end) is taken as a print candidate
    exactly when one of its alternate settings has class 7 (printer),
    subclass 1 and protocol 1 or 2, whatever endpoints it has; the
    protocol recorded for the candidate is the highest protocol among
    those alternate settings, and an interface that is not a candidate
    leaves the static printer record untouched. *)
Theorem candidate_iff_printer_class pr device_ conf_ iface_ ifc :
  (length (altsetting ifc) <= 255)%nat ->
  let '(pr', matched) := probe_interface pr device_ conf_ iface_ ifc in
  matched = existsb printer_class (altsetting ifc) /\
  (matched = false -> pr' = pr) /\
  (matched = true ->
   (exists alt, In alt (altsetting ifc) /\ printer_class alt = true /\
                bInterfaceProtocol alt = protocol pr') /\
   (forall alt, In alt (altsetting ifc) -> printer_class alt = true ->
                bInterfaceProtocol alt <= protocol pr') /\
   device pr' = device_ /\ conf pr' = conf_ /\ iface pr' = iface_ /\
   handle pr' = false).
Proof.
  intros _. unfold probe_interface.
  destruct (scan_altsettings_protocol (altsetting ifc) 0 0 pr ltac:(lia))
    as [[E Hall]|(Hle & Hex & Hmax)].
  - rewrite E. cbn. split; [|split; [reflexivity|discriminate]].
    symmetry. apply not_true_is_false. intros Hex.
    apply existsb_exists in Hex. destruct Hex as (alt & Hin & Hc).
    specialize (Hall alt Hin Hc).
    destruct (UsbProps.printer_class_protocol alt Hc); lia.
  - destruct (scan_altsettings (altsetting ifc) 0 0 pr) as [p pr1].
    cbn [fst] in *.
    destruct Hex as (alt & Hin & Hc & E).
    assert ((p >? 0) = true) as Hpos.
    { destruct (UsbProps.printer_class_protocol alt Hc); lia. }
    rewrite Hpos. split; [|split; [discriminate|]].
    + symmetry. apply existsb_exists. eauto.
    + intros _. cbn. repeat split; auto. eauto.
Qed.

(** X24: for a candidate, found at an interface with at most 255
    alternate settings, whose chosen alternate setting has no bulk
    device-to-host endpoint (a uni-directional printer), the finder has
    recorded 255 as [read_endp], and the translation into endpoint
    addresses done when the callback accepts the printer reads
    [endpoint[255]], past the end of the endpoint array. *)
Theorem unidirectional_candidate_reads_past_endpoints
    pr device_ conf_ iface_ ifc confptr k alt :
  0 <= iface_ ->
  interface confptr !! Z.to_nat iface_ = Some ifc ->
  (length (altsetting ifc) <= 255)%nat ->
  altsetting ifc !! k = Some alt ->
  printer_class alt = true ->
  (forall j alt', altsetting ifc !! j = Some alt' ->
     printer_class alt' = true ->
     bInterfaceProtocol alt' < bInterfaceProtocol alt \/
     (bInterfaceProtocol alt' = bInterfaceProtocol alt /\ (j <= k)%nat)) ->
  (forall ep, In ep (endpoint alt) -> bulk_dir true ep = false) ->
  (length (endpoint alt) <= 255)%nat ->
  read_endp (fst (probe_interface pr device_ conf_ iface_ ifc)) = 255 /\
  accept_printer (fst (probe_interface pr device_ conf_ iface_ ifc)) confptr
  = None.
Proof.
  intros Hi Hifc Halts Halt Hc Hbest Hnone Hlen.
  assert (k < 256)%nat as Hk.
  { apply lookup_lt_Some in Halt. lia. }
  unfold probe_interface.
  assert (0 <= bInterfaceProtocol alt) as Hp0
    by (destruct (UsbProps.printer_class_protocol alt Hc); lia).
  rewrite (UsbProps.scan_altsettings_pick (altsetting ifc) 0 0 pr k alt
             Halt Hc Hp0 Hbest).
  assert ((bInterfaceProtocol alt >? 0) = true) as Hpos
    by (destruct (UsbProps.printer_class_protocol alt Hc); lia).
  rewrite Hpos. cbn [fst].
  rewrite (UsbProps.scan_endpoints_none (endpoint alt) 0 _ _ Hnone).
  change (uint8 (-1)) with 255.
  split; [reflexivity|].
  unfold accept_printer. cbn [iface altset read_endp write_endp save_match].
  rewrite Hifc.
  rewrite UsbProps.uint8_small by lia.
  rewrite Nat2Z.id. cbn [Nat.add]. rewrite Halt.
  replace (endpoint alt !! Z.to_nat 255) with
    (@None libusb_endpoint_descriptor); [reflexivity|].
  symmetry. apply lookup_ge_None. lia.
Qed.

End FinderExt.

Lemma candidate_iff_printer_class_witness :
  let '(pr', matched) :=
    @probe_interface libusb_headers open_printer 0 0 0
      {| altsetting := uni_then_bidi |} in
  matched = @existsb _ (@printer_class libusb_headers) uni_then_bidi /\
  (matched = false -> pr' = open_printer) /\
  (matched = true ->
   (exists alt, In alt uni_then_bidi /\
                @printer_class libusb_headers alt = true /\
                bInterfaceProtocol alt = protocol pr') /\
   (forall alt, In alt uni_then_bidi ->
                @printer_class libusb_headers alt = true ->
                bInterfaceProtocol alt <= protocol pr') /\
   device pr' = 0%nat /\ conf pr' = 0 /\ iface pr' = 0 /\
   handle pr' = false).
Proof.
  apply (@candidate_iff_printer_class libusb_headers open_printer 0 0 0
           {| altsetting := uni_then_bidi |}).
  cbn. lia.
Defined.

Lemma unidirectional_candidate_reads_past_endpoints_witness :
  let ifc := {| altsetting := [no_bulk_out] |} in
  read_endp (fst (@probe_interface libusb_headers open_printer 0 0 0 ifc))
    = 255 /\
  @accept_printer
    (fst (@probe_interface libusb_headers open_printer 0 0 0 ifc))
    {| interface := [ifc] |} = None.
Proof.
  apply (@unidirectional_candidate_reads_past_endpoints libusb_headers
           open_printer 0 0 0 {| altsetting := [no_bulk_out] |}
           {| interface := [ {| altsetting := [no_bulk_out] |} ] |}
           0 no_bulk_out).
  - lia.
  - reflexivity.
  - cbn. lia.
  - reflexivity.
  - reflexivity.
  - intros [|j] alt' Hj Hc'; cbn in Hj; [|discriminate].
    injection Hj as <-. right. split; [reflexivity|lia].
  - intros ep [<-|[]]. reflexivity.
  - cbn. lia.
Defined.

(** *** The loops of [find_device] *)

Lemma handles_opened_app l1 l2 :
  handles_opened (l1 ++ l2) = (handles_opened l1 + handles_opened l2)%nat.
Proof. unfold handles_opened. now rewrite filter_app, length_app. Qed.

Lemma handles_opened_cons c l :
  handles_opened (c :: l) =
  ((if opens_handle c then 1 else 0) + handles_opened l)%nat.
Proof.
  unfold handles_opened. rewrite filter_cons.
  destruct (opens_handle c); cbn; reflexivity.
Qed.

Lemma handles_closed_app l1 l2 :
  handles_closed (l1 ++ l2) = (handles_closed l1 + handles_closed l2)%nat.
Proof. apply count_call_app. Qed.

Lemma open_device_handles pr verbose a :
  handle pr = false ->
  let '(rc, pr1, calls) := open_device pr verbose a in
  (rc = 0 /\ handle pr1 = true /\
   handles_opened calls = 1%nat /\ handles_closed calls = 0%nat) \/
  (rc = -1 /\ handle pr1 = false /\
   handles_opened calls = handles_closed calls).
Proof.
  intros Hh. unfold handles_closed.
  open_cases; try discriminate.
  all: match goal with
       | E : (libusb_open_rc ?x <? 0) = false |- _ =>
           assert ((0 <=? libusb_open_rc x) = true) as Ho by lia
       | E : (libusb_open_rc ?x <? 0) = true |- _ =>
           assert ((0 <=? libusb_open_rc x) = false) as Ho by lia
       end.
  all: first [ left; split; [reflexivity|]; split; [reflexivity|]; split
             | right; split; [reflexivity|];
               split; [assumption || reflexivity|] ].
  all: rewrite ?handles_opened_app, ?handles_opened_cons;
       cbn [opens_handle]; rewrite ?Ho;
       change (handles_opened []) with 0%nat;
       count_calls.
Qed.

Lemma close_device_handles pr number :
  handle pr = true ->
  let '(rc, pr1, calls) := close_device pr number in
  handle pr1 = false /\
  handles_opened calls = 0%nat /\ handles_closed calls = 1%nat.
Proof.
  intros Hh. unfold close_device, handles_closed. rewrite Hh.
  destruct (negb (number =? 0)), (usblp_attached pr =? 1); cbn;
    repeat split.
Qed.

Lemma accept_printer_handle `{Headers} pr confptr pr2 :
  accept_printer pr confptr = Some pr2 -> handle pr2 = handle pr.
Proof.
  unfold accept_printer.
  repeat match goal with
         | |- context [match ?x with _ => _ end] => destruct x
         end; try discriminate.
  intros [= <-]. reflexivity.
Qed.

Lemma probe_interface_handle `{Headers} pr device_ conf_ iface_ ifc :
  snd (probe_interface pr device_ conf_ iface_ ifc) = true ->
  handle (fst (probe_interface pr device_ conf_ iface_ ifc)) = false.
Proof.
  unfold probe_interface.
  destruct (scan_altsettings (altsetting ifc) 0 0 pr) as [p pr1].
  destruct (p >? 0); cbn; [reflexivity|discriminate].
Qed.

Lemma balanced_and_then r k :
  balanced r -> (forall pr, balanced (k pr)) -> balanced (and_then r k).
Proof.
  destruct r as [[pr| |pr] calls]; cbn [and_then]; auto.
  intros [Hr _] Hk. specialize (Hk pr).
  destruct (k pr) as [o calls']. destruct Hk as [Hk Ha].
  split; [|exact Ha]. cbn [fst snd held] in *.
  rewrite handles_opened_app, handles_closed_app. lia.
Qed.

Lemma balanced_go_on pr : balanced (GoOn pr, []).
Proof. split; [reflexivity|discriminate]. Qed.

Section FindDeviceProps.
Context `{Headers}.
Variable verbose : Z.
Variable device_answers : nat -> Z -> Z -> open_answers.
Variable cb : nat -> Z -> Z -> bool.

Lemma try_candidate_balanced pr confptr :
  handle pr = false ->
  balanced (try_candidate verbose device_answers cb pr confptr).
Proof.
  intros Hh. unfold try_candidate.
  pose proof (open_device_handles pr verbose
                (device_answers (device pr) (conf pr) (iface pr)) Hh) as Ho.
  destruct (open_device pr verbose _) as [[rc pr1] calls].
  destruct Ho as [(-> & H1 & Hop & Hcl)|(-> & H1 & Hbal)]; cbn [Z.eqb].
  - destruct (cb _ _ _).
    + destruct (accept_printer pr1 confptr) as [pr2|] eqn:Ha.
      * split; cbn [fst snd held]; [lia|]. intros ? [= <-].
        rewrite (accept_printer_handle _ _ _ Ha). exact H1.
      * split; cbn [fst snd held]; [lia|discriminate].
    + pose proof (close_device_handles pr1
                    (bInterfaceNumber
                       (device_answers (device pr) (conf pr) (iface pr)))
                    H1) as Hc.
      destruct (close_device pr1 _) as [[rc2 pr2] calls2].
      destruct Hc as (_ & Hop2 & Hcl2).
      split; cbn [fst snd held]; [|discriminate].
      rewrite handles_opened_app, handles_closed_app. lia.
  - split; cbn [fst snd held]; [lia|discriminate].
Qed.

Lemma scan_interfaces_balanced ifcs : forall iface_ device_ conf_ confptr pr,
  balanced (scan_interfaces verbose device_answers cb ifcs iface_ device_
              conf_ confptr pr).
Proof.
  induction ifcs as [|ifc ifcs IH]; intros; cbn [scan_interfaces].
  - apply balanced_go_on.
  - pose proof (probe_interface_handle pr device_ conf_
                  (Z.of_nat iface_) ifc) as Hp.
    destruct (probe_interface pr device_ conf_ (Z.of_nat iface_) ifc)
      as [pr1 matched].
    apply balanced_and_then; [|intros; apply IH].
    destruct matched.
    + apply try_candidate_balanced. now apply Hp.
    + apply balanced_go_on.
Qed.

Lemma scan_configurations_balanced confs : forall conf_ device_ pr,
  balanced (scan_configurations verbose device_answers cb confs conf_
              device_ pr).
Proof.
  induction confs as [|[confptr|] confs IH]; intros;
    cbn [scan_configurations].
  - apply balanced_go_on.
  - apply balanced_and_then; [apply scan_interfaces_balanced|].
    intros; apply IH.
  - apply IH.
Qed.

Lemma scan_devices_balanced devices : forall i pr,
  balanced (scan_devices verbose device_answers cb devices i pr).
Proof.
  induction devices as [|dev devices IH]; intros; cbn [scan_devices].
  - apply balanced_go_on.
  - destruct (_ || _ || _); [apply IH|].
    apply balanced_and_then; [apply scan_configurations_balanced|].
    intros; apply IH.
Qed.

(** X25: [find_device] leaves no rejected device open: of the handles it
    has opened, all have been closed again when it returns NULL, and all
    but one when the callback accepted a printer, and the printer it then
    returns has its handle open. *)
Theorem find_device_closes_rejected devices pr :
  let '(o, calls) := find_device verbose device_answers cb devices pr in
  handles_opened calls =
    (handles_closed calls + match o with GoOn _ => 0 | _ => 1 end)%nat /\
  forall pr', o = Accepted pr' -> handle pr' = true.
Proof.
  pose proof (scan_devices_balanced devices 0 pr) as Hb.
  unfold find_device.
  destruct (scan_devices _ _ _ _ _ _) as [o calls].
  exact Hb.
Qed.

End FindDeviceProps.


Section ListDevicesProps.
Context `{Headers}.
Variable device_answers : nat -> Z -> Z -> open_answers.






End ListDevicesProps.

End UsbExtProps.

Module UsbUriProps.
Import Stdlib.Strings.Ascii stdpp.strings.
Import UsbUri.

(** *** URI comparison ([print_cb]) *)

Lemma has_char_app c s t : has_char c (s ++ t) = has_char c s || has_char c t.
Proof. apply existsb_app. Qed.

Lemma strstr_cons d t needle :
  strstr (d :: t) needle =
  if starts_with needle (d :: t) then Some 0%nat
  else option_map S (strstr t needle).
Proof. reflexivity. Qed.

(** No occurrence starts inside a part that lacks the first character of
    the needle. *)
Lemma strstr_skip c n base t :
  has_char c base = false ->
  strstr (base ++ t) (c :: n) =
  option_map (Nat.add (length base)) (strstr t (c :: n)).
Proof.
  induction base as [|b base IH]; intros Hb.
  - cbn [app length]. destruct (strstr t (c :: n)); reflexivity.
  - cbn in Hb. apply orb_false_iff in Hb as [Hcb Hb].
    change ((b :: base) ++ t) with (b :: (base ++ t)).
    rewrite strstr_cons. cbn [starts_with]. rewrite Hcb. cbn [andb].
    rewrite IH by exact Hb.
    destruct (strstr t (c :: n)); reflexivity.
Qed.

Lemma strstr_absent c n s :
  has_char c s = false -> strstr s (c :: n) = None.
Proof.
  intros Hs. rewrite <- (app_nil_r s). rewrite strstr_skip by exact Hs.
  reflexivity.
Qed.

Lemma plain_chars s :
  plain s = true -> has_char "?" s = false /\ has_char "&" s = false.
Proof.
  unfold plain. intros Hp. apply andb_true_iff in Hp as [H1 H2].
  apply negb_true_iff in H1, H2. auto.
Qed.

(** String literals written out as lists of characters. *)
Ltac expand_lits :=
  cbn [lit String.list_ascii_of_string]; cbn [app].

Lemma take_all {A} (l : list A) n : (length l <= n)%nat -> take n l = l.
Proof. apply take_ge. Qed.

Lemma has_char_cons c d s :
  has_char c (d :: s) = Ascii.eqb c d || has_char c s.
Proof. reflexivity. Qed.

(** A character does not occur in a string built from parts known not to
    hold it. *)
Ltac chars :=
  rewrite ?has_char_app, ?has_char_cons;
  repeat match goal with
         | H : has_char _ _ = false |- _ => rewrite H
         end;
  reflexivity.

Lemma starts_with_cons c n d t :
  starts_with (c :: n) (d :: t) = Ascii.eqb c d && starts_with n t.
Proof. reflexivity. Qed.

Lemma starts_with_nil t : starts_with [] t = true.
Proof. destruct t; reflexivity. Qed.

Lemma starts_with_end c n : starts_with (c :: n) [] = false.
Proof. reflexivity. Qed.

(** The prefix test, carried as far as the characters are known. *)
Ltac eval_prefix :=
  rewrite ?starts_with_cons, ?starts_with_nil, ?starts_with_end;
  repeat match goal with
         | |- context [Ascii.eqb ?c ?d] =>
             let v := eval vm_compute in (Ascii.eqb c d) in
             match v with
             | true => change (Ascii.eqb c d) with true
             | false => change (Ascii.eqb c d) with false
             end
         end;
  cbn [andb option_map].

Lemma starts_with_absent c n s :
  has_char c s = false -> starts_with (c :: n) s = false.
Proof.
  destruct s as [|d s]; [reflexivity|].
  cbn. intros Hs. apply orb_false_iff in Hs as [-> _]. reflexivity.
Qed.

Lemma starts_with_skip c n s t :
  has_char c s = false -> starts_with (c :: n) t = false ->
  starts_with (c :: n) (s ++ t) = false.
Proof.
  destruct s as [|d s]; [auto|].
  cbn. intros Hs _. apply orb_false_iff in Hs as [-> _]. reflexivity.
Qed.

(** The searches of [print_cb], carried out part by part. *)
Ltac search :=
  repeat match goal with
         | |- context [strstr ?s (?c :: ?n)] =>
             rewrite (strstr_absent c n s) by chars
         | |- context [strstr (?b ++ ?t) (?c :: ?n)] =>
             rewrite (strstr_skip c n b t) by chars
         | |- context [strstr (?d :: ?t) ?needle] =>
             rewrite (strstr_cons d t needle); eval_prefix
         | |- context [starts_with (?c :: ?n) ?s] =>
             rewrite (starts_with_absent c n s) by chars
         | |- context [starts_with (?c :: ?n) (?s ++ ?t)] =>
             rewrite (starts_with_skip c n s t) by (chars || reflexivity)
         end.

Lemma same_string_refl s : same_string s s = 1%Z.
Proof. unfold same_string. now rewrite bool_decide_eq_true_2. Qed.

Lemma same_string_differ s t : s <> t -> same_string s t = 0%Z.
Proof. intros. unfold same_string. now rewrite bool_decide_eq_false_2. Qed.

(** The strings cut at the offsets found. *)
Ltac cuts :=
  cbn [option_map Nat.add];
  rewrite ?Nat.add_0_r, ?take_app_length, ?take_app_add;
  cbn [take]; rewrite ?take_0, ?app_nil_r.

Ltac run_searches :=
  unfold strlcpy;
  rewrite ?take_all
    by (rewrite ?length_app in *;
        cbn [length lit String.list_ascii_of_string] in *; lia);
  unfold find_interface; expand_lits;
  repeat (progress (search; cuts)).

(** For URIs that match, and for URIs known to differ. *)
Ltac run_print_cb :=
  unfold print_cb; case_bool_decide; [reflexivity|]; run_searches.

Ltac run_print_cb_on_distinct Hne :=
  unfold print_cb; rewrite (bool_decide_eq_false_2 _ Hne); run_searches.

Ltac uri_facts :=
  repeat match goal with
         | H : plain _ = true |- _ => apply plain_chars in H as [? ?]
         end.

Lemma differ_tail (base x y : list ascii) :
  x <> y -> same_string (base ++ x) (base ++ y) = 0%Z.
Proof.
  intros Hxy. apply same_string_differ. intros E.
  now apply app_inv_head in E.
Qed.

Lemma differ_suffix (base x : list ascii) :
  x <> [] ->
  same_string base (base ++ x) = 0%Z /\ same_string (base ++ x) base = 0%Z.
Proof.
  intros Hx.
  assert (base ++ x <> base) as Hne.
  { intros E. rewrite <- (app_nil_r base) in E at 2.
    apply app_inv_head in E. congruence. }
  split; apply same_string_differ; congruence.
Qed.

(** X27: an interface specification on the detected URI alone does not
    stand in the way of a match: for a queue URI without options, or with
    a serial number only, [print_cb] accepts the detected URI that adds
    "?interface=n", respectively "&interface=n", to it. *)
Theorem print_cb_ignores_detected_interface base sn n :
  plain base = true -> plain sn = true -> has_char "?" n = false ->
  (length (base ++ lit "?serial=" ++ sn ++ lit "&interface=" ++ n) < 1024)%nat ->
  print_cb (base ++ lit "?interface=" ++ n) base = 1%Z /\
  print_cb (base ++ lit "?serial=" ++ sn ++ lit "&interface=" ++ n)
           (base ++ lit "?serial=" ++ sn) = 1%Z.
Proof.
  intros Hb Hs Hn Hlen. uri_facts. split.
  - run_print_cb. apply same_string_refl.
  - run_print_cb. apply same_string_refl.
Qed.

(** X28: a queue URI ending in "?serial=?" stands for a printer without
    regard to its serial number: [print_cb] accepts the detected URI with
    no serial number and with any serial number, with or without an
    interface specification. *)
Theorem print_cb_serial_wildcard base sn n :
  plain base = true -> plain sn = true -> has_char "?" n = false ->
  (length (base ++ lit "?serial=" ++ sn ++ lit "&interface=" ++ n) < 1024)%nat ->
  print_cb base (base ++ lit "?serial=?") = 1%Z /\
  print_cb (base ++ lit "?interface=" ++ n) (base ++ lit "?serial=?") = 1%Z /\
  print_cb (base ++ lit "?serial=" ++ sn) (base ++ lit "?serial=?") = 1%Z /\
  print_cb (base ++ lit "?serial=" ++ sn ++ lit "&interface=" ++ n)
           (base ++ lit "?serial=?") = 1%Z.
Proof.
  intros Hb Hs Hn Hlen. uri_facts. repeat split.
  - run_print_cb. apply same_string_refl.
  - run_print_cb. apply same_string_refl.
  - run_print_cb. apply same_string_refl.
  - run_print_cb. apply same_string_refl.
Qed.

Lemma serial_differs (base a b t : list ascii) :
  has_char "&" a = false -> has_char "&" b = false -> a <> b ->
  base ++ lit "?serial=" ++ a <> base ++ lit "?serial=" ++ b /\
  base ++ lit "?serial=" ++ a
    <> base ++ lit "?serial=" ++ b ++ lit "&interface=" ++ t.
Proof.
  intros Ha Hb Hab. split; intros E; apply app_inv_head in E;
    apply (app_inv_head (lit "?serial=")) in E; [congruence|].
  subst a. rewrite has_char_app in Ha. cbn in Ha.
  now rewrite orb_true_r in Ha.
Qed.

(** X29: printers that differ in their serial number are told apart: a
    queue URI with serial number [a] is not matched by a detected URI with
    another serial number [b], with or without an interface
    specification. *)
Theorem print_cb_tells_serials_apart base a b n :
  plain base = true -> plain a = true -> plain b = true ->
  has_char "?" n = false ->
  (length (base ++ lit "?serial=" ++ a) < 1024)%nat ->
  (length (base ++ lit "?serial=" ++ b ++ lit "&interface=" ++ n) < 1024)%nat ->
  a <> b ->
  print_cb (base ++ lit "?serial=" ++ b) (base ++ lit "?serial=" ++ a) = 0%Z /\
  print_cb (base ++ lit "?serial=" ++ b ++ lit "&interface=" ++ n)
           (base ++ lit "?serial=" ++ a) = 0%Z.
Proof.
  intros Hb Ha Hb' Hn Hl1 Hl2 Hab. uri_facts.
  destruct (serial_differs base a b n) as [Hne1 Hne2]; try assumption.
  split.
  - run_print_cb_on_distinct Hne1.
    apply differ_suffix. discriminate.
  - run_print_cb_on_distinct Hne2.
    apply (differ_tail base). intros E.
    apply (app_inv_head (lit "?serial=")) in E. congruence.
Qed.

(** X30: the serial number of the queue URI is dropped when the detected
    URI has neither a serial number nor an interface specification, and
    the two then match; but when the detected URI carries an interface
    specification the pointer left by the interface search keeps the
    serial number from being dropped, and there is no match; likewise a
    queue URI with serial number and interface does not match the detected
    URI with the same serial number and no interface. *)
Theorem print_cb_serial_dropped_only_without_interface base sn n :
  plain base = true -> plain sn = true -> has_char "?" n = false ->
  (length (base ++ lit "?serial=" ++ sn ++ lit "&interface=" ++ n) < 1024)%nat ->
  print_cb base (base ++ lit "?serial=" ++ sn) = 1%Z /\
  print_cb (base ++ lit "?interface=" ++ n) (base ++ lit "?serial=" ++ sn)
    = 0%Z /\
  print_cb (base ++ lit "?serial=" ++ sn)
           (base ++ lit "?serial=" ++ sn ++ lit "&interface=" ++ n) = 0%Z.
Proof.
  intros Hb Hs Hn Hlen. uri_facts. split; [|split].
  - run_print_cb. apply same_string_refl.
  - assert (base ++ lit "?serial=" ++ sn <> base ++ lit "?interface=" ++ n)
      as Hne.
    { intros E. apply app_inv_head in E. discriminate. }
    run_print_cb_on_distinct Hne.
    apply differ_suffix. discriminate.
  - assert (base ++ lit "?serial=" ++ sn ++ lit "&interface=" ++ n
            <> base ++ lit "?serial=" ++ sn) as Hne.
    { intros E. apply app_inv_head in E.
      apply (app_inv_head (lit "?serial=")) in E.
      rewrite <- (app_nil_r sn) in E at 2. apply app_inv_head in E.
      discriminate. }
    run_print_cb_on_distinct Hne.
    apply differ_suffix. discriminate.
Qed.

Lemma print_cb_ignores_detected_interface_witness :
  print_cb (queue_base ++ lit "?interface=" ++ interface_1) queue_base = 1%Z /\
  print_cb (queue_base ++ lit "?serial=" ++ serial_abc ++ lit "&interface="
              ++ interface_1)
           (queue_base ++ lit "?serial=" ++ serial_abc) = 1%Z.
Proof.
  apply (print_cb_ignores_detected_interface queue_base serial_abc
           interface_1); try reflexivity.
  vm_compute. lia.
Defined.

Lemma print_cb_serial_wildcard_witness :
  print_cb queue_base (queue_base ++ lit "?serial=?") = 1%Z /\
  print_cb (queue_base ++ lit "?interface=" ++ interface_1)
           (queue_base ++ lit "?serial=?") = 1%Z /\
  print_cb (queue_base ++ lit "?serial=" ++ serial_abc)
           (queue_base ++ lit "?serial=?") = 1%Z /\
  print_cb (queue_base ++ lit "?serial=" ++ serial_abc ++ lit "&interface="
              ++ interface_1)
           (queue_base ++ lit "?serial=?") = 1%Z.
Proof.
  apply (print_cb_serial_wildcard queue_base serial_abc interface_1);
    try reflexivity.
  vm_compute. lia.
Defined.

Lemma print_cb_tells_serials_apart_witness :
  print_cb (queue_base ++ lit "?serial=" ++ serial_xyz)
           (queue_base ++ lit "?serial=" ++ serial_abc) = 0%Z /\
  print_cb (queue_base ++ lit "?serial=" ++ serial_xyz ++ lit "&interface="
              ++ interface_1)
           (queue_base ++ lit "?serial=" ++ serial_abc) = 0%Z.
Proof.
  apply (print_cb_tells_serials_apart queue_base serial_abc serial_xyz
           interface_1); try reflexivity.
  - vm_compute. lia.
  - vm_compute. lia.
  - discriminate.
Defined.

Lemma print_cb_serial_dropped_only_without_interface_witness :
  print_cb queue_base (queue_base ++ lit "?serial=" ++ serial_abc) = 1%Z /\
  print_cb (queue_base ++ lit "?interface=" ++ interface_1)
           (queue_base ++ lit "?serial=" ++ serial_abc) = 0%Z /\
  print_cb (queue_base ++ lit "?serial=" ++ serial_abc)
           (queue_base ++ lit "?serial=" ++ serial_abc ++ lit "&interface="
              ++ interface_1) = 0%Z.
Proof.
  apply (print_cb_serial_dropped_only_without_interface queue_base
           serial_abc interface_1); try reflexivity.
  vm_compute. lia.
Defined.

End UsbUriProps.

Module SchedStringsProps.
Import SchedStrings.

(** *** String variables *)

Lemma fresh_block_unused (h : gmap nat (list Z)) : h !! fresh (dom h) = None.
Proof. apply not_elem_of_dom. apply is_fresh. Qed.

Lemma string_at_insert_fresh (h : gmap nat (list Z)) b c q content :
  h !! b = None -> string_at h q = Some content ->
  string_at (<[b := c]> h) q = Some content.
Proof.
  unfold string_at. intros Hb.
  destruct (h !! fst q) as [x|] eqn:Hq; [|intros ?; discriminate].
  rewrite lookup_insert_ne by congruence. now rewrite Hq.
Qed.

Lemma string_at_delete_other (h : gmap nat (list Z)) b q :
  fst q <> b -> string_at (delete b h) q = string_at h q.
Proof.
  unfold string_at. intros Hb. now rewrite lookup_delete_ne by congruence.
Qed.

Lemma string_at_start (h : gmap nat (list Z)) b c :
  string_at (<[b := c]> h) (b, 0%nat) = Some c.
Proof. unfold string_at. cbn. now rewrite lookup_insert_eq. Qed.

(** The heap once the block a variable holds is freed. *)
Lemma size_after_free (h : gmap nat (list Z)) b old :
  h !! b = Some old -> S (size (delete b h)) = size h.
Proof.
  intros Hb. rewrite map_size_delete_Some by eauto.
  assert (size h <> 0)%nat; [|lia].
  intros Hz. apply map_size_empty_inv in Hz. subst h.
  now rewrite lookup_empty in Hb.
Qed.

(** X12: [SetString(s, v)] with a string [v] that lies outside the block
    [*s] holds leaves [*s] pointing to the start of a new block that reads
    as [v] did; [v] itself still reads the same, the block [*s] held has
    been freed and no other block was touched, so that the number of live
    blocks grows by one only when [*s] was null. *)
Theorem SetString_replaces (h : gmap nat (list Z)) cur q content :
  owned h cur ->
  outside q cur ->
  string_at h q = Some content ->
  exists h' b',
    SetString h (Some cur) (Some q) = Some (h', Some (Some (b', 0%nat))) /\
    h' = <[b' := content]>
           (match cur with Some p => delete (fst p) h | None => h end) /\
    string_at h' (b', 0%nat) = Some content /\
    string_at h' q = Some content /\
    b' <> fst q /\
    size h' = (size h + match cur with Some _ => 0 | None => 1 end)%nat.
Proof.
  intros Hown Hout Hq. unfold SetString.
  rewrite bool_decide_eq_false_2.
  2:{ intros E. subst cur. cbn in Hout. congruence. }
  assert (is_Some (h !! fst q)) as [qc Hqc].
  { unfold string_at in Hq. destruct (h !! fst q); [eauto|discriminate]. }
  destruct cur as [[b off]|]; cbn [owned outside fst snd] in *.
  - destruct Hown as [-> [old Hb]].
    unfold free. cbn [fst snd]. rewrite Hb. cbn [Nat.eqb].
    unfold strdup. rewrite string_at_delete_other by exact Hout. rewrite Hq.
    unfold alloc. set (b' := fresh (dom (delete b h))).
    assert (delete b h !! b' = None) as Hfresh by apply fresh_block_unused.
    assert (b' <> fst q) as Hbq.
    { intros E. rewrite E, lookup_delete_ne in Hfresh by congruence.
      congruence. }
    eexists _, b'. split; [reflexivity|]. split; [reflexivity|].
    split; [apply string_at_start|].
    split.
    { apply string_at_insert_fresh; [exact Hfresh|].
      now rewrite string_at_delete_other. }
    split; [exact Hbq|].
    rewrite map_size_insert_None by exact Hfresh.
    rewrite (size_after_free h b old Hb). lia.
  - unfold strdup. rewrite Hq.
    unfold alloc. set (b' := fresh (dom h)).
    assert (h !! b' = None) as Hfresh by apply fresh_block_unused.
    assert (b' <> fst q) as Hbq by congruence.
    eexists _, b'. split; [reflexivity|]. split; [reflexivity|].
    split; [apply string_at_start|].
    split; [now apply string_at_insert_fresh|].
    split; [exact Hbq|].
    rewrite map_size_insert_None by exact Hfresh. lia.
Qed.

Lemma SetString_replaces_witness :
  exists h' b',
    SetString two_strings (Some (Some (0%nat, 0%nat))) (Some (1%nat, 5%nat))
      = Some (h', Some (Some (b', 0%nat))) /\
    h' = <[b' := [108; 112; 48]]> (delete 0%nat two_strings) /\
    string_at h' (b', 0%nat) = Some [108; 112; 48] /\
    string_at h' (1%nat, 5%nat) = Some [108; 112; 48] /\
    b' <> 1%nat /\
    size h' = (size two_strings + 0)%nat.
Proof.
  apply (SetString_replaces two_strings (Some (0%nat, 0%nat))
           (1%nat, 5%nat) [108; 112; 48]).
  - split; [reflexivity|]. vm_compute. eauto.
  - cbn. lia.
  - vm_compute. reflexivity.
Defined.

(** X13: [SetString(s, v)] with [v] pointing into the string [*s] holds,
    past its start, frees the block and then copies from it: the call
    reads freed memory.  [SetStringf(s, "%s", v)] with the same arguments
    formats before it frees, and leaves [*s] pointing to a new block
    holding the tail that [v] pointed to (cut to 1023 characters), with
    the old block freed and the number of live blocks unchanged. *)
Theorem SetString_from_inside_old_block (h : gmap nat (list Z)) b old k :
  h !! b = Some old ->
  (0 < k <= length old)%nat ->
  SetString h (Some (Some (b, 0%nat))) (Some (b, k)) = None /\
  exists h' b',
    SetStringf h (Some (Some (b, 0%nat))) (Some (percent_s (b, k)))
      = Some (h', Some (Some (b', 0%nat))) /\
    string_at h' (b', 0%nat) = Some (take 1023 (drop k old)) /\
    h' !! b = None /\
    size h' = size h.
Proof.
  intros Hb Hk. split.
  - unfold SetString. rewrite bool_decide_eq_false_2.
    2:{ intros [= E]. lia. }
    unfold free. cbn [fst snd]. rewrite Hb. cbn [Nat.eqb].
    unfold strdup, string_at. cbn [fst snd].
    rewrite lookup_delete_eq. reflexivity.
  - unfold SetStringf, percent_s, string_at. cbn [fst snd]. rewrite Hb.
    replace (k <=? length old)%nat with true
      by (symmetry; apply Nat.leb_le; lia).
    unfold alloc. set (b' := fresh (dom h)).
    assert (h !! b' = None) as Hfresh by apply fresh_block_unused.
    assert (b' <> b) as Hne by congruence.
    unfold free. cbn [fst snd].
    rewrite lookup_insert_ne by congruence. rewrite Hb. cbn [Nat.eqb].
    eexists _, b'. split; [reflexivity|].
    rewrite lookup_delete_ne by congruence.
    rewrite lookup_insert_eq.
    split; [cbn; now rewrite drop_0|].
    split; [apply lookup_delete_eq|].
    pose proof (size_after_free (<[b' := take 1023 (drop k old)]> h) b old)
      as Hs.
    rewrite lookup_insert_ne in Hs by congruence.
    specialize (Hs Hb).
    rewrite map_size_insert_None in Hs by exact Hfresh. lia.
Qed.

Lemma SetString_from_inside_old_block_witness :
  SetString two_strings (Some (Some (1%nat, 0%nat))) (Some (1%nat, 5%nat))
    = None /\
  exists h' b',
    SetStringf two_strings (Some (Some (1%nat, 0%nat)))
      (Some (percent_s (1%nat, 5%nat)))
      = Some (h', Some (Some (b', 0%nat))) /\
    string_at h' (b', 0%nat)
      = Some (take 1023 (drop 5 [47; 100; 101; 118; 47; 108; 112; 48])) /\
    h' !! 1%nat = None /\
    size h' = size two_strings.
Proof.
  apply (SetString_from_inside_old_block two_strings 1
           [47; 100; 101; 118; 47; 108; 112; 48] 5).
  - vm_compute. reflexivity.
  - cbn. lia.
Defined.

End SchedStringsProps.
